(** * IRS SEE tutor: the lesson/session state machine

    A shallow embedding of the session logic of the tutoring application
    (App.tsx, services/geminiService.ts, types.ts) and the properties of
    its specification that concern lesson progression, answer evaluation
    and the mock exam.

    Conventions of the embedding.
    - JavaScript numbers that the program uses as integers (scores, twist
      counts, indices, counts) are [Z].  The one non-integer computation,
      the percentage of the mock exam, is done on binary64 values (see
      [Binary64]).
    - Strings are [string]; template literals are written out with [+:+].
    - React state ([useState]) and the scenario ref ([useRef]) are the
      fields of one record, [AppState].  A handler reads the values of its
      closure from the state it starts in and queues its updates on the
      state it threads through.
    - The generative-AI service is a collaborator: its outcome for a call is
      given by a [Collaborators] record, and every call is logged in the
      [requests] field of the state.
    - A thrown JavaScript value is [thrown]; a handler is a function
      [AppState -> AppState * (thrown + A)], so the updates made before a
      throw stay in place, as they do in the program. *)

From Stdlib Require Import SpecFloat.
From Stdlib Require Import ZArith Lia Bool Ascii.
From stdpp Require Import base list strings pretty.

Open Scope Z_scope.

(** ** types.ts *)

Inductive Status := locked | active | passed.

#[global] Instance Status_eq_dec : EqDecision Status.
Proof. solve_decision. Defined.

Record Lesson := {
  week : Z;
  day : Z;
  phase : string;
  topic : string;
  description : string;
  references : string;
  part : string;
  sequence : string;
}.

(** [LessonProgress extends Lesson]: the lesson's own fields are kept
    together in [lesson]. *)
Record LessonProgress := {
  lesson : Lesson;
  status : Status;
  score : Z;
  twistsCompleted : Z;
}.

Inductive Sender := user | ai | system.

Record Reference := { title : string; uri : string }.

(** The [id] of a message ([Date.now() + Math.random()]) is a clock and
    random reading that no handler reads back; it is left out. *)
Record ChatMessage := {
  sender : Sender;
  text : string;
  msg_references : option (list Reference);
}.

Inductive AppStatus :=
  | IDLE | GENERATING | AWAITING_ANSWER | EVALUATING | TOPIC_PASSED
  | COMPLETED | GENERATING_MOCK_EXAM | MOCK_EXAM_IN_PROGRESS
  | MOCK_EXAM_COMPLETED.

#[global] Instance AppStatus_eq_dec : EqDecision AppStatus.
Proof. solve_decision. Defined.

(** The handler reads every field of an evaluation through [??] or a
    truthiness test, so a field may be missing ([None]). *)
Record Scores := {
  rules : option Z;
  calculations : option Z;
  compliance : option Z;
  alternatives : option Z;
  planning : option Z;
  clarity : option Z;
}.

Record Feedback := {
  good : option (list string);
  corrections : option (list string);
  takeaways : option (list string);
}.

Record EvaluationResult := {
  totalScore : option Z;
  scores : option Scores;
  feedback : option Feedback;
  knowledgePoints : option (list string);
  detailedExplanation : option string;
}.

Inductive Letter := A | B | C | D.

Record Options := { optA : string; optB : string; optC : string; optD : string }.

Record MockQuestion := {
  mq_question : string;
  options : Options;
  correctAnswer : Letter;
  mq_topic : string;
}.

Record Scenario := { scenario : string; question : string }.

Record MockExam := {
  questions : list MockQuestion;
  currentQuestionIndex : Z;
  answers : list string;
}.

(** ** JavaScript values and operations used by the program *)

Module JS.

(** A thrown value: an [Error] (with its message) or anything else. *)
Inductive thrown :=
  | Error (message : string)
  | NotAnError.

Definition nl : string := String "010"%char EmptyString.

(** [arr[i]] for a number [i]: [undefined] ([None]) outside the array. *)
Definition at_index {T} (arr : list T) (i : Z) : option T :=
  if decide (0 <= i) then arr !! Z.to_nat i else None.

(** [arr.findIndex(p)]: the first index whose element satisfies [p],
    [-1] when there is none. *)
Fixpoint findIndex {T} (p : T -> bool) (arr : list T) : Z :=
  match arr with
  | [] => -1
  | x :: rest =>
      if p x then 0
      else let r := findIndex p rest in
           if decide (r = -1) then -1 else r + 1
  end.

(** [arr.join(sep)] on strings. *)
Definition join (sep : string) (arr : list string) : string :=
  String.concat sep arr.

(** [`${n}`] for an integer [n]. *)
Definition show (n : Z) : string := pretty n.

(** A string is the sequence of the bytes of its UTF-8 encoding.

    The white space that [trim] and the [\s] of a regular expression
    remove is ECMAScript's [WhiteSpace] and [LineTerminator].  Its
    characters are one, two or three bytes long:
    - U+0009 to U+000D (tab, line feed, vertical tab, form feed, carriage
      return) and U+0020 (space), one byte each; *)
Definition is_space (c : ascii) : bool :=
  let n := N_of_ascii c in
  ((9 <=? n) && (n <=? 13) || (n =? 32))%N.

(** - U+00A0 (no-break space), the bytes C2 A0; *)
Definition is_space2 (c1 c2 : ascii) : bool :=
  ((N_of_ascii c1 =? 194) && (N_of_ascii c2 =? 160))%N.

(** - U+1680 (E1 9A 80), U+2000 to U+200A (E2 80 80 to E2 80 8A), U+2028
      and U+2029 (E2 80 A8, E2 80 A9), U+202F (E2 80 AF), U+205F
      (E2 81 9F), U+3000 (E3 80 80) and U+FEFF (EF BB BF). *)
Definition is_space3 (c1 c2 c3 : ascii) : bool :=
  let n1 := N_of_ascii c1 in
  let n2 := N_of_ascii c2 in
  let n3 := N_of_ascii c3 in
  ((n1 =? 225) && (n2 =? 154) && (n3 =? 128)
   || (n1 =? 226) && (n2 =? 128)
      && ((128 <=? n3) && (n3 <=? 138) || (n3 =? 168) || (n3 =? 169)
          || (n3 =? 175))
   || (n1 =? 226) && (n2 =? 129) && (n3 =? 159)
   || (n1 =? 227) && (n2 =? 128) && (n3 =? 128)
   || (n1 =? 239) && (n2 =? 187) && (n3 =? 191))%N.

(** The text after the white space character that [s] starts with, if it
    starts with one. *)
Definition strip_space (s : string) : option string :=
  match s with
  | String c1 rest1 =>
      if is_space c1 then Some rest1
      else
        match rest1 with
        | String c2 rest2 =>
            if is_space2 c1 c2 then Some rest2
            else
              match rest2 with
              | String c3 rest3 =>
                  if is_space3 c1 c2 c3 then Some rest3 else None
              | EmptyString => None
              end
        | EmptyString => None
        end
  | EmptyString => None
  end.

Fixpoint trimStart (s : string) : string :=
  match s with
  | String c1 rest1 =>
      if is_space c1 then trimStart rest1
      else
        match rest1 with
        | String c2 rest2 =>
            if is_space2 c1 c2 then trimStart rest2
            else
              match rest2 with
              | String c3 rest3 =>
                  if is_space3 c1 c2 c3 then trimStart rest3 else s
              | EmptyString => s
              end
        | EmptyString => s
        end
  | EmptyString => EmptyString
  end.

(** [s] is white space only. *)
Definition all_space (s : string) : bool :=
  match trimStart s with
  | EmptyString => true
  | String _ _ => false
  end.

(** The text up to the white space it ends with: up to the first byte from
    which on it is white space only. *)
Fixpoint trimEnd (s : string) : string :=
  match s with
  | String c rest =>
      if all_space s then EmptyString else String c (trimEnd rest)
  | EmptyString => EmptyString
  end.

Definition trim (s : string) : string := trimEnd (trimStart s).

(** [toUpperCase]: a to z become A to Z.  The program only tests the result
    for being one of A, B, C, D (and keeps it when it is): a text has one
    of these as upper case only when it is that letter or its lower case,
    also with the special casings of Unicode, so the bytes of characters
    outside the ASCII range are left as they are. *)
Definition upper_char (c : ascii) : ascii :=
  let n := N_of_ascii c in
  if ((97 <=? n) && (n <=? 122))%N then ascii_of_N (n - 32) else c.

Fixpoint toUpperCase (s : string) : string :=
  match s with
  | String c rest => String (upper_char c) (toUpperCase rest)
  | EmptyString => EmptyString
  end.

(** [arr.includes(x)] on strings. *)
Definition includes (arr : list string) (x : string) : bool :=
  bool_decide (x ∈ arr).

End JS.

Export JS.

(** ** services/geminiService.ts: what the service does with a response *)

Module Json.

(** A parsed JSON value.  A number is kept as the integer it denotes, or
    marked as having a fractional part. *)
#[warnings="-register-all"]
Inductive json :=
  | JNull
  | JBool (b : bool)
  | JInteger (n : Z)
  | JFraction
  | JString (s : string)
  | JArray (items : list json)
  | JObject (fields : list (string * json)).

(** [obj[key]] on a parsed object: the last binding of a repeated key
    wins in [JSON.parse]; [fields] lists the bindings in source order. *)
Fixpoint get_field (key : string) (fields : list (string * json)) : option json :=
  match fields with
  | [] => None
  | (k, v) :: rest =>
      match get_field key rest with
      | Some v' => Some v'
      | None => if decide (k = key) then Some v else None
      end
  end.

(** The response schemas of the service are data of this shape
    ([Type.STRING], [Type.INTEGER], [Type.ARRAY], [Type.OBJECT]). *)
#[warnings="-register-all"]
Inductive schema :=
  | STRING
  | INTEGER
  | ARRAY (items : schema)
  | OBJECT (properties : list (string * schema)) (required : list string).

(** A value is valid per a schema when it has the schema's type, every
    required property is present, and every declared property that is
    present is valid per its own schema. *)
Fixpoint conforms (s : schema) (v : json) {struct s} : bool :=
  match s, v with
  | STRING, JString _ => true
  | INTEGER, JInteger _ => true
  | ARRAY it, JArray l => forallb (conforms it) l
  | OBJECT props req, JObject fields =>
      forallb (fun k => bool_decide (is_Some (get_field k fields))) req
      && forallb (fun p => match get_field (fst p) fields with
                           | Some x => conforms (snd p) x
                           | None => true
                           end) props
  | _, _ => false
  end.

End Json.

Module GeminiService.
Import Json.

Definition evaluationSchema : schema :=
  OBJECT
    [ ("totalScore", INTEGER);
      ("scores",
        OBJECT [ ("rules", INTEGER); ("calculations", INTEGER);
                 ("compliance", INTEGER); ("alternatives", INTEGER);
                 ("planning", INTEGER); ("clarity", INTEGER) ] []);
      ("feedback",
        OBJECT [ ("good", ARRAY STRING); ("corrections", ARRAY STRING);
                 ("takeaways", ARRAY STRING) ] []);
      ("knowledgePoints", ARRAY STRING);
      ("detailedExplanation", STRING) ]
    [ "totalScore"; "scores"; "feedback"; "knowledgePoints";
      "detailedExplanation" ].

Section Parse.

(** [JSON.parse]: [None] when it throws a [SyntaxError], whose message
    [syntax_error] gives. *)
Variable JSON_parse : string -> option json.
Variable syntax_error : string -> string.

(** [evaluateAnswer], from the collaborator's [response.text] on:
    [None] is an absent text ([undefined]).  The parsed value is
    returned as it is ([as EvaluationResult] is a type assertion, not a
    check). *)
Definition evaluateAnswer_response (responseText : option string)
  : thrown + json :=
  match responseText with
  | None | Some EmptyString =>
      inl (Error "Failed to evaluate answer: The AI returned an empty response.")
  | Some responseText =>
      let jsonString := trim responseText in
      match JSON_parse jsonString with
      | Some parsed => inr parsed
      | None => inl (Error (syntax_error jsonString))
      end
  end.

End Parse.

(** [generateMockExamQuestions]: the number of questions the prompt asks
    for, [Math.max(5, Math.min(15, Math.floor(passedLessons.length / 2)))]. *)
Definition questionCount (passedLessons : list LessonProgress) : Z :=
  Z.max 5 (Z.min 15 (Z.of_nat (length passedLessons) / 2)).

(** [generateScenario] strips a code fence from the response before it
    parses it: [responseText.trim().replace(/^```json\s*|```$/g, '')].
    The first alternative can only match at the start (the fence opener and
    the white space after it), the second only at the end. *)
Fixpoint strip_prefix (p s : string) : option string :=
  match p, s with
  | EmptyString, _ => Some s
  | String a p', String b s' =>
      if decide (a = b) then strip_prefix p' s' else None
  | String _ _, EmptyString => None
  end.

Fixpoint strip_suffix (suffix s : string) : option string :=
  if decide (s = suffix) then Some EmptyString
  else match s with
       | String c rest => String c <$> strip_suffix suffix rest
       | EmptyString => None
       end.

Definition stripFence (s : string) : string :=
  let afterOpener :=
    match strip_prefix "```json" s with
    | Some rest => trimStart rest
    | None => s
    end in
  match strip_suffix "```" afterOpener with
  | Some inner => inner
  | None => afterOpener
  end.

(** [v && typeof v === 'string'], for a property [v] that may be missing. *)
Definition nonEmptyString (v : option json) : option string :=
  match v with
  | Some (JString (String c rest)) => Some (String c rest)
  | _ => None
  end.

Definition scenarioEmptyError : thrown :=
  Error "Failed to generate scenario: The AI returned an empty response, possibly due to content filters.".

Definition scenarioMalformedError : thrown :=
  Error "Failed to generate scenario: AI response was malformed.".

Definition scenarioInvalidJsonError : thrown :=
  Error "Failed to generate scenario: The AI returned an invalid JSON response.".

Section ScenarioResponse.

Variable JSON_parse : string -> option json.

(** The [try] block of [generateScenario]: what it returns or throws.  A
    [SyntaxError] of [JSON.parse] and the [TypeError] of reading a property
    of [null] are thrown values like the malformed-response error. *)
Definition generateScenario_try (responseText : string) : thrown + Scenario :=
  let jsonString := stripFence (trim responseText) in
  match JSON_parse jsonString with
  | None => inl (Error "Unexpected token")
  | Some JNull => inl (Error "Cannot read properties of null")
  | Some (JObject fields) =>
      match nonEmptyString (get_field "scenario" fields),
            nonEmptyString (get_field "question" fields) with
      | Some s, Some q => inr {| scenario := s; question := q |}
      | _, _ => inl scenarioMalformedError
      end
  | Some _ => inl scenarioMalformedError
  end.

(** [generateScenario], from the collaborator's [response.text] on.  The
    [catch] block replaces whatever the [try] block throws. *)
Definition generateScenario_response (responseText : option string)
  : thrown + Scenario :=
  match responseText with
  | None | Some EmptyString => inl scenarioEmptyError
  | Some responseText =>
      match generateScenario_try responseText with
      | inr result => inr result
      | inl _ => inl scenarioInvalidJsonError
      end
  end.

End ScenarioResponse.

(** [getIrsReferences]: the grounding chunks of the search response, as far
    as the function reads them. *)
Record Web := { web_title : option string; web_uri : option string }.

Record GroundingChunk := { web : option Web }.

(** [chunks.filter(chunk => chunk.web).map(...).filter(ref => ref.uri &&
    ref.title)]: a chunk gives a reference when it has a [web] part with a
    title and a uri that are not empty. *)
Definition reference_of (chunk : GroundingChunk) : option Reference :=
  match web chunk with
  | Some w =>
      match web_title w, web_uri w with
      | Some (String a t), Some (String b u) =>
          Some {| title := String a t; uri := String b u |}
      | _, _ => None
      end
  | None => None
  end.

(** [searchOutcome] is what the search call gives: a thrown value, or the
    [groundingChunks] of the first candidate ([None] when a link of the
    optional chain is missing). *)
Definition getIrsReferences (searchOutcome : thrown + option (list GroundingChunk))
  : list Reference :=
  match searchOutcome with
  | inr (Some chunks) => omap reference_of chunks
  | inr None => []
  | inl _ => []
  end.

End GeminiService.

(** ** Numbers with a fractional part: IEEE 754 binary64

    The one place where the program computes with a non-integer number is
    the percentage of the mock exam,
    [((score / totalQuestions) * 100).toFixed(1)].  JavaScript numbers are
    binary64 values; their division and multiplication are those of the
    standard library's specification of IEEE 754 arithmetic ([SpecFloat]),
    at precision 53 and maximal exponent 1024. *)

Module Binary64.

Definition prec : Z := 53.
Definition emax : Z := 1024.

(** The binary64 value of an integer (exact below 2^53). *)
Definition of_Z (n : Z) : spec_float := binary_normalize prec emax n 0 false.

Definition div (x y : spec_float) : spec_float := SFdiv prec emax x y.
Definition mul (x y : spec_float) : spec_float := SFmul prec emax x y.

(** For the positive value [m * 2^e], the integer [n] for which [n / 10]
    is nearest to it, the larger one when two are equally near:
    [floor (10 * m * 2^e + 1/2)]. *)
Definition tenths (m : positive) (e : Z) : Z :=
  match e with
  | Zneg p => (20 * Zpos m + 2 ^ Zpos p) / 2 ^ (Zpos p + 1)
  | _ => 10 * Zpos m * 2 ^ e
  end.

(** The digits of [n] tenths: the integer part, a point, one digit. *)
Definition fixed1 (n : Z) : string :=
  show (n / 10) +:+ "." +:+ show (n mod 10).

(** [x.toFixed(1)], for [x] below 10^21 in magnitude (above, JavaScript
    switches to the exponent form, which the program never reaches: its
    values lie between 0 and 100). *)
Definition toFixed1 (x : spec_float) : string :=
  match x with
  | S754_nan => "NaN"
  | S754_infinity s => if s then "-Infinity" else "Infinity"
  | S754_zero _ => fixed1 0
  | S754_finite s m e => (if s then "-" else EmptyString) +:+ fixed1 (tenths m e)
  end.

End Binary64.

(** ** App.tsx: state, collaborators and the handler monad *)

Module App.

(** A call to the service, with the arguments the program passes. *)
Inductive Request :=
  | GenerateScenario (l : Lesson) (passedLessons : list LessonProgress)
      (previousScenario : option string) (isTwist : bool)
  | EvaluateAnswer (scenarioText answer : string)
      (passedLessons : list LessonProgress)
  | GenerateMockExamQuestions (passedLessons : list LessonProgress)
      (questionCount : Z).

(** What the service answers to a call: a value, or a thrown value. *)
Record Collaborators := {
  generateScenario_outcome :
    Lesson -> list LessonProgress -> option string -> bool -> thrown + Scenario;
  evaluateAnswer_outcome :
    string -> string -> list LessonProgress -> thrown + EvaluationResult;
  generateMockExamQuestions_outcome :
    list LessonProgress -> Z -> thrown + list MockQuestion;
}.

Record AppState := {
  lessons : list LessonProgress;
  currentLessonIndex : Z;
  messages : list ChatMessage;
  appStatus : AppStatus;
  inputDisabled : bool;
  mockExam : option MockExam;
  isSidebarOpen : bool;
  scenarioRef : option Scenario;
  requests : list Request;
}.

Definition M (T : Type) : Type := AppState -> AppState * (thrown + T).

Definition ret {T} (x : T) : M T := fun st => (st, inr x).

Definition bind {T U} (m : M T) (k : T -> M U) : M U :=
  fun st =>
    match m st with
    | (st', inr x) => k x st'
    | (st', inl e) => (st', inl e)
    end.

Definition throw {T} (e : thrown) : M T := fun st => (st, inl e).

(** [try { body } catch (error) { handler }] *)
Definition try_catch {T} (body : M T) (handler : thrown -> M T) : M T :=
  fun st =>
    match body st with
    | (st', inl e) => handler e st'
    | r => r
    end.

Declare Scope handler_scope.
Delimit Scope handler_scope with handler.
Bind Scope handler_scope with M.

Notation "'let*' x ':=' m 'in' k" := (bind m (fun x => k))
  (at level 10, x name, m at level 100, k at level 200) : handler_scope.
Notation "m ';;;' k" := (bind m (fun _ => k))
  (at level 100, k at level 200, right associativity) : handler_scope.

Open Scope handler_scope.

Definition update (f : AppState -> AppState) : M unit :=
  fun st => (f st, inr tt).

(** The [useState] setters and the ref assignment. *)
Definition setLessonsTo (v : list LessonProgress) : M unit :=
  update (fun st =>
    {| lessons := v; currentLessonIndex := currentLessonIndex st;
       messages := messages st; appStatus := appStatus st;
       inputDisabled := inputDisabled st; mockExam := mockExam st;
       isSidebarOpen := isSidebarOpen st; scenarioRef := scenarioRef st;
       requests := requests st |}).

(** [setLessons(prev => ...)]: the updater runs on the lessons of the
    state it is applied to; an updater that throws leaves them as they are. *)
Definition setLessons (updater : list LessonProgress -> thrown + list LessonProgress)
  : M unit :=
  fun st =>
    match updater (lessons st) with
    | inr newLessons => setLessonsTo newLessons st
    | inl e => (st, inl e)
    end.

Definition setCurrentLessonIndex (v : Z) : M unit :=
  update (fun st =>
    {| lessons := lessons st; currentLessonIndex := v;
       messages := messages st; appStatus := appStatus st;
       inputDisabled := inputDisabled st; mockExam := mockExam st;
       isSidebarOpen := isSidebarOpen st; scenarioRef := scenarioRef st;
       requests := requests st |}).

Definition setMessages (v : list ChatMessage) : M unit :=
  update (fun st =>
    {| lessons := lessons st; currentLessonIndex := currentLessonIndex st;
       messages := v; appStatus := appStatus st;
       inputDisabled := inputDisabled st; mockExam := mockExam st;
       isSidebarOpen := isSidebarOpen st; scenarioRef := scenarioRef st;
       requests := requests st |}).

Definition setAppStatus (v : AppStatus) : M unit :=
  update (fun st =>
    {| lessons := lessons st; currentLessonIndex := currentLessonIndex st;
       messages := messages st; appStatus := v;
       inputDisabled := inputDisabled st; mockExam := mockExam st;
       isSidebarOpen := isSidebarOpen st; scenarioRef := scenarioRef st;
       requests := requests st |}).

Definition setInputDisabled (v : bool) : M unit :=
  update (fun st =>
    {| lessons := lessons st; currentLessonIndex := currentLessonIndex st;
       messages := messages st; appStatus := appStatus st;
       inputDisabled := v; mockExam := mockExam st;
       isSidebarOpen := isSidebarOpen st; scenarioRef := scenarioRef st;
       requests := requests st |}).

Definition setMockExam (v : option MockExam) : M unit :=
  update (fun st =>
    {| lessons := lessons st; currentLessonIndex := currentLessonIndex st;
       messages := messages st; appStatus := appStatus st;
       inputDisabled := inputDisabled st; mockExam := v;
       isSidebarOpen := isSidebarOpen st; scenarioRef := scenarioRef st;
       requests := requests st |}).

Definition setIsSidebarOpen (v : bool) : M unit :=
  update (fun st =>
    {| lessons := lessons st; currentLessonIndex := currentLessonIndex st;
       messages := messages st; appStatus := appStatus st;
       inputDisabled := inputDisabled st; mockExam := mockExam st;
       isSidebarOpen := v; scenarioRef := scenarioRef st;
       requests := requests st |}).

Definition setScenarioRef (v : option Scenario) : M unit :=
  update (fun st =>
    {| lessons := lessons st; currentLessonIndex := currentLessonIndex st;
       messages := messages st; appStatus := appStatus st;
       inputDisabled := inputDisabled st; mockExam := mockExam st;
       isSidebarOpen := isSidebarOpen st; scenarioRef := v;
       requests := requests st |}).

Definition logRequest (r : Request) : M unit :=
  update (fun st =>
    {| lessons := lessons st; currentLessonIndex := currentLessonIndex st;
       messages := messages st; appStatus := appStatus st;
       inputDisabled := inputDisabled st; mockExam := mockExam st;
       isSidebarOpen := isSidebarOpen st; scenarioRef := scenarioRef st;
       requests := requests st ++ [r] |}).

(** [await] of a service call whose outcome is [o]. *)
Definition await {T} (o : thrown + T) : M T := fun st => (st, o).

(** [scenarioRef.current], read where the program dereferences it. *)
Definition scenarioRef_current : M Scenario :=
  fun st =>
    match scenarioRef st with
    | Some sc => (st, inr sc)
    | None => (st, inl (Error "Cannot read properties of null"))
    end.

(** [arr[i]] read where the program dereferences the element. *)
Definition element {T} (arr : list T) (i : Z) : thrown + T :=
  match at_index arr i with
  | Some x => inr x
  | None => inl (Error "Cannot read properties of undefined")
  end.

(** [newLessons[i].field = ...] on a copy of the array: the element at [i]
    is replaced by [f] of it; the dereference throws outside the array. *)
Definition assign_at (i : Z) (f : LessonProgress -> LessonProgress)
  (arr : list LessonProgress) : thrown + list LessonProgress :=
  match element arr i with
  | inr _ => inr (alter f (Z.to_nat i) arr)
  | inl e => inl e
  end.

Definition with_status (s : Status) (l : LessonProgress) : LessonProgress :=
  {| lesson := lesson l; status := s; score := score l;
     twistsCompleted := twistsCompleted l |}.

Definition with_score (n : Z) (l : LessonProgress) : LessonProgress :=
  {| lesson := lesson l; status := status l; score := n;
     twistsCompleted := twistsCompleted l |}.

Definition with_twistsCompleted (n : Z) (l : LessonProgress) : LessonProgress :=
  {| lesson := lesson l; status := status l; score := score l;
     twistsCompleted := n |}.

(** [lessons.filter(l => l.status === 'passed')] *)
Definition passedLessons (ls : list LessonProgress) : list LessonProgress :=
  filter (fun l => status l = passed) ls.

Definition addMessage (s : Sender) (t : string)
  (refs : option (list Reference)) : M unit :=
  update (fun st =>
    {| lessons := lessons st; currentLessonIndex := currentLessonIndex st;
       messages := messages st
                   ++ [ {| sender := s; text := t; msg_references := refs |} ];
       appStatus := appStatus st;
       inputDisabled := inputDisabled st; mockExam := mockExam st;
       isSidebarOpen := isSidebarOpen st; scenarioRef := scenarioRef st;
       requests := requests st |}).

Definition errorMessage (error : thrown) : string :=
  match error with
  | Error message => message
  | NotAnError => "An unknown error occurred."
  end.

(** *** The texts of the transcript *)

Definition bullets (items : list string) : string :=
  join nl (map (fun item => "- " +:+ item) items).

Definition zeroScores : Scores :=
  {| rules := Some 0; calculations := Some 0; compliance := Some 0;
     alternatives := Some 0; planning := Some 0; clarity := Some 0 |}.

Definition emptyFeedback : Feedback :=
  {| good := Some []; corrections := Some []; takeaways := Some [] |}.

Definition feedbackText (evaluation : EvaluationResult) : string :=
  let score := default 0 (totalScore evaluation) in
  let scores := default zeroScores (scores evaluation) in
  let feedbackDetails := default emptyFeedback (feedback evaluation) in
  "**Score: " +:+ show score +:+ "%**" +:+ nl +:+ nl
  +:+ "**Rubric Breakdown:**" +:+ nl
  +:+ "- Rules & Authority: " +:+ show (default 0 (rules scores)) +:+ "% " +:+ nl
  +:+ "- Calculations: " +:+ show (default 0 (calculations scores)) +:+ "% " +:+ nl
  +:+ "- Compliance: " +:+ show (default 0 (compliance scores)) +:+ "% " +:+ nl
  +:+ "- Alternatives: " +:+ show (default 0 (alternatives scores)) +:+ "% " +:+ nl
  +:+ "- Planning: " +:+ show (default 0 (planning scores)) +:+ "% " +:+ nl
  +:+ "- Clarity: " +:+ show (default 0 (clarity scores)) +:+ "%" +:+ nl +:+ nl
  +:+ "**What you did well:**" +:+ nl
  +:+ bullets (default [] (good feedbackDetails)) +:+ nl +:+ nl
  +:+ "**Corrections:**" +:+ nl
  +:+ bullets (default [] (corrections feedbackDetails)) +:+ nl +:+ nl
  +:+ "**Key takeaways:**" +:+ nl
  +:+ bullets (default [] (takeaways feedbackDetails)).

Definition twistAnnouncement (score : Z) : string :=
  "Excellent work! You've scored " +:+ show score
  +:+ "%. Let's cement your knowledge with a twist on the scenario.".

Definition twistText (currentTwists : Z) (newScenarioData : Scenario) : string :=
  "**Twist " +:+ show (currentTwists + 1) +:+ ":**" +:+ nl
  +:+ scenario newScenarioData +:+ nl +:+ nl
  +:+ "**Question:**" +:+ nl +:+ question newScenarioData.

Definition passedText (score : Z) : string :=
  "Congratulations! You've mastered this topic with a score of "
  +:+ show score +:+ "%.".

Definition failedText (score : Z) : string :=
  "Your score is " +:+ show score
  +:+ "%. You need 90% to pass. Review the feedback and the model answer below. Let's try this topic again.".

Definition knowledgePointsText (knowledgePoints : list string) : string :=
  "**Key Knowledge Points to Review:**" +:+ nl +:+ bullets knowledgePoints.

Definition modelAnswerText (detailedExplanation : string) : string :=
  "**Model Answer & Explanation:**" +:+ nl +:+ detailedExplanation.

Definition retryText (current : Scenario) : string :=
  "Let's try that again. Here is the original scenario:" +:+ nl +:+ nl
  +:+ "**Scenario:**" +:+ nl +:+ scenario current +:+ nl +:+ nl
  +:+ "**Question:**" +:+ nl +:+ question current.

Definition evaluationErrorText (error : thrown) : string :=
  "Sorry, I encountered an error evaluating your answer: "
  +:+ errorMessage error +:+ ". Please try again.".

Definition letterText (c : Letter) : string :=
  match c with A => "A" | B => "B" | C => "C" | D => "D" end.

(** [q.options[q.correctAnswer]] *)
Definition option_of (o : Options) (c : Letter) : string :=
  match c with A => optA o | B => optB o | C => optC o | D => optD o end.

Definition mockQuestionText (questionData : MockQuestion) (index total : Z)
  : string :=
  "**Question " +:+ show (index + 1) +:+ " of " +:+ show total
  +:+ "** (Topic: " +:+ mq_topic questionData +:+ ")" +:+ nl +:+ nl
  +:+ mq_question questionData +:+ nl +:+ nl
  +:+ "A. " +:+ optA (options questionData) +:+ nl
  +:+ "B. " +:+ optB (options questionData) +:+ nl
  +:+ "C. " +:+ optC (options questionData) +:+ nl
  +:+ "D. " +:+ optD (options questionData).

Definition invalidAnswerText : string :=
  "Invalid answer. Please enter A, B, C, or D.".

Definition mockExamGuardText : string :=
  "You need to pass at least 5 topics to start a mock exam.".

Definition mockExamGeneratingText : string :=
  "Generating a mock exam based on your mastered topics. This may take a moment...".

Definition mockExamErrorText (error : thrown) : string :=
  "Sorry, I encountered an error generating the mock exam: "
  +:+ errorMessage error +:+ ". Please try again later.".

Definition welcomeText : string :=
  "Welcome to your personalized IRS SEE Exam Prep Workflow. Click 'Start Today\'s Lesson' to begin.".

Definition selectedText : string :=
  "You've selected a new lesson. Click 'Start Today\'s Lesson' when you are ready.".

(** *** The mock exam *)

Definition displayCurrentMockQuestion (questionData : MockQuestion)
  (index total : Z) : M unit :=
  addMessage ai (mockQuestionText questionData index total) None ;;;
  setInputDisabled false.

(** [userAnswer || 'No Answer']: an absent answer and the empty text are
    both falsy. *)
Definition answerOrSentinel (userAnswer : option string) : string :=
  match userAnswer with
  | None | Some EmptyString => "No Answer"
  | Some a => a
  end.

Definition resultEntry (q : MockQuestion) (i : Z) (userAnswer : option string)
  : string :=
  "**Question " +:+ show (i + 1) +:+ " (Topic: " +:+ mq_topic q +:+ ")**" +:+ nl
  +:+ "- Your Answer: " +:+ answerOrSentinel userAnswer +:+ nl
  +:+ "- Correct Answer: " +:+ letterText (correctAnswer q) +:+ ": "
  +:+ option_of (options q) (correctAnswer q).

(** The [forEach] of [finishMockExam], from index [i] on, with the values
    of [score] and [results] so far. *)
Fixpoint grade (qs : list MockQuestion) (i : Z) (answers : list string)
  (score : Z) (results : list string) : Z * list string :=
  match qs with
  | [] => (score, results)
  | q :: rest =>
      let userAnswer := at_index answers i in
      if decide (userAnswer = Some (letterText (correctAnswer q)))
      then grade rest (i + 1) answers (score + 1) results
      else grade rest (i + 1) answers score
             (results ++ [resultEntry q i userAnswer])
  end.

(** [totalQuestions > 0 ? ((score / totalQuestions) * 100).toFixed(1) : 0],
    as the template literal prints it. *)
Definition percentageText (score totalQuestions : Z) : string :=
  if decide (0 < totalQuestions)
  then Binary64.toFixed1
         (Binary64.mul
            (Binary64.div (Binary64.of_Z score) (Binary64.of_Z totalQuestions))
            (Binary64.of_Z 100))
  else show 0.

Definition summaryText (score totalQuestions : Z) (percentage : string)
  (results : list string) : string :=
  "**Mock Exam Completed!**" +:+ nl +:+ nl
  +:+ "- **Score:** " +:+ show score +:+ " out of " +:+ show totalQuestions
  +:+ " (" +:+ percentage +:+ "%)" +:+ nl +:+ nl
  +:+ match results with
      | _ :: _ =>
          "**Review your incorrect answers:**" +:+ nl +:+ nl
          +:+ join (nl +:+ nl) results
      | [] => "Excellent work! You answered all questions correctly!"
      end.

Definition finishMockExam (finalExamState : MockExam) : M unit :=
  let '(score, results) :=
    grade (questions finalExamState) 0 (answers finalExamState) 0 [] in
  let totalQuestions := Z.of_nat (length (questions finalExamState)) in
  let percentage := percentageText score totalQuestions in
  addMessage system (summaryText score totalQuestions percentage results) None ;;;
  setAppStatus MOCK_EXAM_COMPLETED ;;;
  setInputDisabled true.

Definition handleMockAnswer (answer : string) : M unit :=
  fun st0 =>
  match mockExam st0 with
  | None => ret tt st0
  | Some mockExam =>
      let upperCaseAnswer := toUpperCase (trim answer) in
      if negb (includes ["A"; "B"; "C"; "D"] upperCaseAnswer)
      then addMessage system invalidAnswerText None st0
      else
        (addMessage user answer None ;;;
         setInputDisabled true ;;;
         let updatedAnswers := answers mockExam ++ [upperCaseAnswer] in
         let nextIndex := currentQuestionIndex mockExam + 1 in
         let newState :=
           {| questions := questions mockExam;
              currentQuestionIndex := nextIndex;
              answers := updatedAnswers |} in
         setMockExam (Some newState) ;;;
         if decide (nextIndex < Z.of_nat (length (questions mockExam)))
         then
           let* questionData := await (element (questions mockExam) nextIndex) in
           displayCurrentMockQuestion questionData nextIndex
             (Z.of_nat (length (questions mockExam)))
         else finishMockExam newState) st0
  end.

(** *** Handlers that call the service *)

Section Handlers.

Variable service : Collaborators.

Definition generateScenario (l : Lesson) (passedLessons : list LessonProgress)
  (previousScenario : option string) (isTwist : bool) : M Scenario :=
  logRequest (GenerateScenario l passedLessons previousScenario isTwist) ;;;
  await (generateScenario_outcome service l passedLessons previousScenario isTwist).

Definition evaluateAnswer (scenarioText answer : string)
  (passedLessons : list LessonProgress) : M EvaluationResult :=
  logRequest (EvaluateAnswer scenarioText answer passedLessons) ;;;
  await (evaluateAnswer_outcome service scenarioText answer passedLessons).

Definition generateMockExamQuestions (passedLessons : list LessonProgress)
  : M (list MockQuestion) :=
  let questionCount := GeminiService.questionCount passedLessons in
  logRequest (GenerateMockExamQuestions passedLessons questionCount) ;;;
  await (generateMockExamQuestions_outcome service passedLessons questionCount).

(** [handleSendMessage].  [st0] is the state the handler's closure was made
    in: [appStatus], [lessons] and [currentLessonIndex] are read from it. *)
Definition handleSendMessage (userMessage : string) : M unit :=
  fun st0 =>
  if decide (appStatus st0 = MOCK_EXAM_IN_PROGRESS)
  then handleMockAnswer userMessage st0
  else
  match scenarioRef st0 with
  | None => ret tt st0
  | Some _ =>
    (addMessage user userMessage None ;;;
     setAppStatus EVALUATING ;;;
     setInputDisabled true ;;;
     try_catch
       (let* current := scenarioRef_current in
        let* evaluation :=
          evaluateAnswer (scenario current) userMessage
            (passedLessons (lessons st0)) in
        let score := default 0 (totalScore evaluation) in
        let knowledgePoints := default [] (knowledgePoints evaluation) in
        addMessage ai (feedbackText evaluation) None ;;;
        if decide (90 <= score) then
          let* currentLesson :=
            await (element (lessons st0) (currentLessonIndex st0)) in
          let currentTwists := twistsCompleted currentLesson in
          if decide (currentTwists < 2) then
            addMessage system (twistAnnouncement score) None ;;;
            setLessons
              (assign_at (currentLessonIndex st0)
                 (with_twistsCompleted (currentTwists + 1))) ;;;
            setAppStatus GENERATING ;;;
            let* current := scenarioRef_current in
            let* newScenarioData :=
              generateScenario (lesson currentLesson)
                (passedLessons (lessons st0)) (Some (scenario current)) true in
            setScenarioRef (Some newScenarioData) ;;;
            addMessage ai (twistText currentTwists newScenarioData) None ;;;
            setAppStatus AWAITING_ANSWER ;;;
            setInputDisabled false
          else
            addMessage system (passedText score) None ;;;
            setLessons
              (fun prev =>
                 match assign_at (currentLessonIndex st0) (with_status passed) prev with
                 | inr newLessons =>
                     assign_at (currentLessonIndex st0) (with_score score) newLessons
                 | inl e => inl e
                 end) ;;;
            setAppStatus TOPIC_PASSED
        else
          addMessage system (failedText score) None ;;;
          (match knowledgePoints with
           | _ :: _ => addMessage ai (knowledgePointsText knowledgePoints) None
           | [] => ret tt
           end) ;;;
          (match detailedExplanation evaluation with
           | None | Some EmptyString => ret tt
           | Some explanation => addMessage ai (modelAnswerText explanation) None
           end) ;;;
          let* current := scenarioRef_current in
          addMessage ai (retryText current) None ;;;
          setAppStatus AWAITING_ANSWER ;;;
          setInputDisabled false)
       (fun error =>
          addMessage system (evaluationErrorText error) None ;;;
          setAppStatus AWAITING_ANSWER ;;;
          setInputDisabled false)) st0
  end.

(** [handleStartMockExam] *)
Definition handleStartMockExam : M unit :=
  fun st0 =>
  let passedLessons := passedLessons (lessons st0) in
  if decide (Z.of_nat (length passedLessons) < 5)
  then addMessage system mockExamGuardText None st0
  else
    (setAppStatus GENERATING_MOCK_EXAM ;;;
     setMessages [] ;;;
     addMessage system mockExamGeneratingText None ;;;
     setInputDisabled true ;;;
     setIsSidebarOpen false ;;;
     try_catch
       (let* questions := generateMockExamQuestions passedLessons in
        match questions with
        | first :: _ =>
            setMockExam
              (Some {| questions := questions; currentQuestionIndex := 0;
                       answers := [] |}) ;;;
            setAppStatus MOCK_EXAM_IN_PROGRESS ;;;
            displayCurrentMockQuestion first 0 (Z.of_nat (length questions))
        | [] => throw (Error "The generated exam had no questions.")
        end)
       (fun error =>
          addMessage system (mockExamErrorText error) None ;;;
          setAppStatus IDLE)) st0.

End Handlers.

(** *** Handlers that only touch the state *)

(** The [useState] initialisers, for the lessons found in storage (or built
    from the lesson plan when storage has none). *)
Definition initialState (storedLessons : list LessonProgress) : AppState :=
  {| lessons := storedLessons; currentLessonIndex := 0; messages := [];
     appStatus := IDLE; inputDisabled := true; mockExam := None;
     isSidebarOpen := false; scenarioRef := None; requests := [] |}.

(** [LESSON_PLAN.map(lesson => ({ ...lesson, status: 'locked', score: 0,
    twistsCompleted: 0 }))] *)
Definition freshLessons (LESSON_PLAN : list Lesson) : list LessonProgress :=
  map (fun l => {| lesson := l; status := locked; score := 0;
                   twistsCompleted := 0 |}) LESSON_PLAN.

(** The effect that runs once after the first render. *)
Definition initialize : M unit :=
  fun st0 =>
  let firstLockedIndex :=
    findIndex (fun l => bool_decide (status l <> passed)) (lessons st0) in
  let initialIndex :=
    if decide (firstLockedIndex = -1)
    then Z.of_nat (length (lessons st0)) - 1
    else firstLockedIndex in
  (setCurrentLessonIndex initialIndex ;;;
   setLessons
     (fun currentLessons =>
        if decide (initialIndex < Z.of_nat (length currentLessons)) then
          match element currentLessons initialIndex with
          | inr l =>
              if decide (status l = locked)
              then assign_at initialIndex (with_status active) currentLessons
              else inr currentLessons
          | inl e => inl e
          end
        else inr currentLessons) ;;;
   setMessages [ {| sender := system; text := welcomeText;
                    msg_references := None |} ] ;;;
   setAppStatus IDLE ;;;
   setInputDisabled true) st0.

(** [handleSelectLesson] *)
Definition handleSelectLesson (index : Z) : M unit :=
  fun st0 =>
  if decide (index = currentLessonIndex st0) then ret tt st0
  else
    (setLessons
       (fun prevLessons =>
          match element prevLessons (currentLessonIndex st0) with
          | inl e => inl e
          | inr current =>
              let newLessons :=
                if decide (status current = active)
                then alter (with_status locked)
                       (Z.to_nat (currentLessonIndex st0)) prevLessons
                else prevLessons in
              match element newLessons index with
              | inl e => inl e
              | inr target =>
                  if decide (status target <> passed)
                  then inr (alter (with_status active) (Z.to_nat index) newLessons)
                  else inr newLessons
              end
          end) ;;;
     setCurrentLessonIndex index ;;;
     setScenarioRef None ;;;
     setMessages [ {| sender := system; text := selectedText;
                      msg_references := None |} ] ;;;
     setAppStatus IDLE ;;;
     setInputDisabled true ;;;
     setIsSidebarOpen false) st0.

(** A page load: the lessons come back from storage as they were last
    written (every change of [lessons] is written), all other state starts
    afresh, and the initial effect runs. *)
Definition reload (st : AppState) : AppState * (thrown + unit) :=
  initialize (initialState (lessons st)).

(** *** The remaining handlers *)

Definition startingText (l : Lesson) : string :=
  "Starting lesson: " +:+ topic l +:+ " - " +:+ description l.

Definition scenarioText (scenarioData : Scenario) : string :=
  "A new client query has arrived." +:+ nl +:+ nl
  +:+ "**Scenario:**" +:+ nl +:+ scenario scenarioData +:+ nl +:+ nl
  +:+ "**Question:**" +:+ nl +:+ question scenarioData.

Definition notebookPrompt (l : Lesson) : string :=
  "Analyze all of the following resources for paid tax preparers and tax professionals in context to"
  +:+ nl +:+ nl
  +:+ "**Phase:** " +:+ phase l +:+ nl
  +:+ "**Topic:** " +:+ topic l +:+ ": " +:+ description l +:+ nl +:+ nl
  +:+ "and your Output Must Include (with clear headings):" +:+ nl
  +:+ "• Applicable Rules" +:+ nl
  +:+ "• Calculations" +:+ nl
  +:+ "• Examples" +:+ nl
  +:+ "• Alternatives" +:+ nl
  +:+ "• Compliance" +:+ nl
  +:+ "• Planning" +:+ nl
  +:+ "• Pitfalls" +:+ nl
  +:+ "• ✅ Short Checklist".

Definition studyPromptText (l : Lesson) : string :=
  "**Study Prompt:**" +:+ nl +:+ notebookPrompt l.

Definition guidanceText : string := "**Official IRS Guidance:**".

Definition noGuidanceText : string :=
  "**Official IRS Guidance:**" +:+ nl
  +:+ "No specific guidance found via search for this topic. Please refer to standard IRS publications.".

Definition lessonErrorText (error : thrown) : string :=
  "Sorry, I encountered an error generating the lesson: "
  +:+ errorMessage error +:+ ". Please try again.".

Definition nextLessonText : string :=
  "Ready for the next challenge? Click 'Start Today\'s Lesson' when you are ready.".

Definition completedText : string :=
  "You have completed all lessons! Congratulations!".

Definition exitText : string :=
  "You have returned to the main lesson plan. Click 'Start Today\'s Lesson' to continue where you left off.".

Section Lessons.

Variable service : Collaborators.

(** What the search behind [getIrsReferences] gives for a lesson. *)
Variable search : Lesson -> thrown + option (list GeminiService.GroundingChunk).

(** [startLesson].  Both calls of the [Promise.all] are made before either
    is awaited; [getIrsReferences] catches what its search throws, so only
    the generation can reject. *)
Definition startLesson : M unit :=
  fun st0 =>
  (setAppStatus GENERATING ;;;
   setInputDisabled true ;;;
   match at_index (lessons st0) (currentLessonIndex st0) with
   | None => ret tt
   | Some l =>
       addMessage system (startingText (lesson l)) None ;;;
       try_catch
         (let irsData := GeminiService.getIrsReferences (search (lesson l)) in
          let* scenarioData :=
            generateScenario service (lesson l) (passedLessons (lessons st0))
              None false in
          setScenarioRef (Some scenarioData) ;;;
          addMessage ai (scenarioText scenarioData) None ;;;
          addMessage system (studyPromptText (lesson l)) None ;;;
          (match irsData with
           | _ :: _ => addMessage system guidanceText (Some irsData)
           | [] => addMessage system noGuidanceText None
           end) ;;;
          setAppStatus AWAITING_ANSWER ;;;
          setInputDisabled false)
         (fun error =>
            addMessage system (lessonErrorText error) None ;;;
            setAppStatus IDLE)
   end) st0.

End Lessons.

(** [handleNextLesson] *)
Definition handleNextLesson : M unit :=
  fun st0 =>
  let nextIndex := currentLessonIndex st0 + 1 in
  if decide (nextIndex < Z.of_nat (length (lessons st0))) then
    (setCurrentLessonIndex nextIndex ;;;
     setLessons
       (fun prev =>
          match element prev nextIndex with
          | inr next =>
              if decide (status next = locked)
              then assign_at nextIndex (with_status active) prev
              else inr prev
          | inl e => inl e
          end) ;;;
     setMessages [] ;;;
     setScenarioRef None ;;;
     addMessage system nextLessonText None ;;;
     setAppStatus IDLE) st0
  else
    (addMessage system completedText None ;;;
     setAppStatus COMPLETED) st0.

(** [handleExitMockExam] *)
Definition handleExitMockExam : M unit :=
  setMockExam None ;;;
  setAppStatus IDLE ;;;
  setMessages [ {| sender := system; text := exitText;
                   msg_references := None |} ].

(** The callbacks the application hands to its components. *)
Inductive Event :=
  | StartLesson
  | SendMessage (userMessage : string)
  | NextLesson
  | SelectLesson (index : Z)
  | StartMockExam
  | ExitMockExam.

Definition handle (service : Collaborators)
  (search : Lesson -> thrown + option (list GeminiService.GroundingChunk))
  (event : Event) : M unit :=
  match event with
  | StartLesson => startLesson service search
  | SendMessage userMessage => handleSendMessage service userMessage
  | NextLesson => handleNextLesson
  | SelectLesson index => handleSelectLesson index
  | StartMockExam => handleStartMockExam service
  | ExitMockExam => handleExitMockExam
  end.

End App.

(** ** components/ChatInterface.tsx and components/Sidebar.tsx: what the
    components call *)

Module Components.
Import App.

(** [handleSend]: the text of the input box is sent, trimmed, when it is
    not blank and the input is enabled.  ([setInputValue('')] clears the
    box, which is state of the component.) *)
Definition handleSend (onSendMessage : string -> M unit) (inputValue : string)
  : M unit :=
  fun st =>
  match trim inputValue with
  | EmptyString => ret tt st
  | String c rest =>
      if inputDisabled st then ret tt st
      else onSendMessage (trim inputValue) st
  end.

(** [renderActionButton]: the callback behind the button that is shown for
    a status, if one is shown. *)
Definition actionButton (appStatus : AppStatus) : option Event :=
  match appStatus with
  | IDLE => Some StartLesson
  | TOPIC_PASSED => Some NextLesson
  | MOCK_EXAM_COMPLETED => Some ExitMockExam
  | _ => None
  end.

(** The events the components can raise in a state: the action button, the
    send button, a lesson of the side bar (one button per entry of
    [lessons]), and the mock exam button of the side bar (disabled below 5
    passed lessons). *)
Inductive offered (st : AppState) : Event -> Prop :=
  | offered_action event :
      actionButton (appStatus st) = Some event -> offered st event
  | offered_send inputValue c rest :
      trim inputValue = String c rest -> inputDisabled st = false ->
      offered st (SendMessage (trim inputValue))
  | offered_select (index : nat) :
      (index < length (lessons st))%nat ->
      offered st (SelectLesson (Z.of_nat index))
  | offered_mock :
      5 <= Z.of_nat (length (passedLessons (lessons st))) ->
      offered st StartMockExam.

End Components.

(** ** What holds in a session *)

Module Session.
Import App Components.

(** A progress record the program writes: between 0 and 2 twists, and a
    passed lesson has had both twists and a score from 90. *)
Definition progress_ok (l : LessonProgress) : Prop :=
  0 <= twistsCompleted l <= 2
  /\ (status l = passed -> twistsCompleted l = 2 /\ 90 <= score l).

(** From [l] to [l'] no progress is lost: the lesson is the same, a passed
    lesson is still passed, no twist is taken back. *)
Definition keeps_progress (l l' : LessonProgress) : Prop :=
  lesson l' = lesson l
  /\ (status l = passed -> status l' = passed)
  /\ twistsCompleted l <= twistsCompleted l'.

Definition isLetter (a : string) : Prop := a ∈ ["A"; "B"; "C"; "D"].

Record session_ok (st : AppState) : Prop := {
  (** every record is one the program writes *)
  store_ok : Forall progress_ok (lessons st);
  (** the pointer is on a lesson *)
  pointer_ok : 0 <= currentLessonIndex st < Z.of_nat (length (lessons st));
  (** that lesson is active or passed *)
  current_ok :
    forall l, at_index (lessons st) (currentLessonIndex st) = Some l ->
              status l <> locked;
  (** and no other lesson is active *)
  active_ok :
    forall j l, lessons st !! j = Some l -> status l = active ->
                Z.of_nat j = currentLessonIndex st;
  (** the button to the next lesson is shown on a passed lesson only *)
  topic_passed_ok :
    appStatus st = TOPIC_PASSED ->
    status <$> at_index (lessons st) (currentLessonIndex st) = Some passed;
  (** the cursor of a mock exam counts its answers, which are letters *)
  exam_ok :
    forall exam, mockExam st = Some exam ->
      currentQuestionIndex exam = Z.of_nat (length (answers exam))
      /\ Forall isLetter (answers exam);
  (** and while the exam is in progress there is a question at the cursor *)
  in_progress_ok :
    appStatus st = MOCK_EXAM_IN_PROGRESS ->
    exists exam, mockExam st = Some exam
                 /\ currentQuestionIndex exam
                    < Z.of_nat (length (questions exam));
}.

Section Runs.

Variable service : Collaborators.
Variable search : Lesson -> thrown + option (list GeminiService.GroundingChunk).

(** The state after an event, however the handler ends. *)
Definition after (event : Event) (st : AppState) : AppState :=
  fst (handle service search event st).

(** The states of a session: from a fresh lesson plan, through events the
    components offer, each handled to its end before the next. *)
Inductive reachable (plan : list Lesson) : AppState -> Prop :=
  | reachable_start :
      reachable plan (fst (initialize (initialState (freshLessons plan))))
  | reachable_event st event :
      reachable plan st -> offered st event ->
      reachable plan (after event st).

(** The messages sent one after the other. *)
Definition sendAll (userMessages : list string) (st : AppState) : AppState :=
  foldl (fun st userMessage => after (SendMessage userMessage) st)
    st userMessages.

End Runs.

End Session.

(** ** The words of the specification *)

Module Spec.
Import App.

(** [clamp x lo hi]: [x] brought into the range from [lo] to [hi]. *)
Definition clamp (x lo hi : Z) : Z :=
  if decide (x < lo) then lo else if decide (hi < x) then hi else x.

(** The number of entries with a given status. *)
Definition count_status (s : Status) (ls : list LessonProgress) : nat :=
  length (filter (fun l => status l = s) ls).

(** The lowest index whose entry is not passed, if there is one. *)
Fixpoint first_not_passed (ls : list LessonProgress) : option nat :=
  match ls with
  | [] => None
  | l :: rest =>
      if decide (status l = passed) then S <$> first_not_passed rest
      else Some 0%nat
  end.

(** After initialisation "exactly one entry has status active (or zero if
    all are passed), and it is the lowest-ordered non-passed entry". *)
Definition one_active_at_first_not_passed (ls : list LessonProgress) : Prop :=
  match first_not_passed ls with
  | None => count_status active ls = 0%nat
  | Some i =>
      count_status active ls = 1%nat /\ status <$> ls !! i = Some active
  end.

(** A letter as it is written. *)
Definition letterOf (c : Letter) : string :=
  match c with A => "A" | B => "B" | C => "C" | D => "D" end.

(** The text of the option with letter [c]. *)
Definition optionText (o : Options) (c : Letter) : string :=
  match c with A => optA o | B => optB o | C => optC o | D => optD o end.

Definition lineBreak : string := String "010"%char EmptyString.

(** The answer at index [i] is the correct answer of question [i]. *)
Definition correct_at (Q : list MockQuestion) (A : list string) (i : nat)
  : Prop :=
  A !! i = (fun q => letterOf (correctAnswer q)) <$> Q !! i.

#[global] Instance correct_at_dec Q A i : Decision (correct_at Q A i).
Proof. unfold correct_at. apply _. Defined.

Definition correct_indices (Q : list MockQuestion) (A : list string)
  : list nat :=
  filter (correct_at Q A) (seq 0 (length Q)).

Definition incorrect_indices (Q : list MockQuestion) (A : list string)
  : list nat :=
  filter (fun i => ~ correct_at Q A i) (seq 0 (length Q)).

(** What is recorded for an incorrect answer. *)
Record IncorrectAnswer := {
  questionNumber : Z;
  questionTopic : string;
  yourAnswer : string;
  correctLetter : Letter;
  correctText : string;
}.

Definition noAnswer : string := "No Answer".

(** The record for question [q] at index [i]: the learner's answer, or the
    sentinel when there is none, and the correct option. *)
Definition incorrectAnswer (A : list string) (i : nat) (q : MockQuestion)
  : IncorrectAnswer :=
  {| questionNumber := Z.of_nat i + 1;
     questionTopic := mq_topic q;
     yourAnswer := default noAnswer (A !! i);
     correctLetter := correctAnswer q;
     correctText := optionText (options q) (correctAnswer q) |}.

Definition incorrectAnswers (Q : list MockQuestion) (A : list string)
  : list IncorrectAnswer :=
  omap (fun i => incorrectAnswer A i <$> Q !! i) (incorrect_indices Q A).

(** How a record is printed in the summary: the number and the topic of
    the question, the learner's answer, the letter and the text of the
    correct option. *)
Definition printIncorrect (r : IncorrectAnswer) : string :=
  "**Question " +:+ pretty (questionNumber r)
  +:+ " (Topic: " +:+ questionTopic r +:+ ")**" +:+ lineBreak
  +:+ "- Your Answer: " +:+ yourAnswer r +:+ lineBreak
  +:+ "- Correct Answer: " +:+ letterOf (correctLetter r) +:+ ": "
  +:+ correctText r.

(** [n / 10] is [score / total * 100] rounded to one decimal place: no
    other number of tenths is nearer. *)
Definition rounded_percentage (score total n : Z) : Prop :=
  2 * Z.abs (n * total - 1000 * score) <= total.

(** The decimal numeral of [n] tenths: the integer part, a point and one
    digit ([667] tenths are written 66.7). *)
Definition oneDecimal (n : Z) : string :=
  pretty (n / 10) +:+ "." +:+ pretty (n mod 10).

(** The text of the report of a mock exam: the score out of the total with
    the percentage, then the records of the incorrect answers in their
    order, or the congratulation when there is none. *)
Definition reportText (score total : Z) (percentage : string)
  (incorrect : list IncorrectAnswer) : string :=
  "**Mock Exam Completed!**" +:+ lineBreak +:+ lineBreak
  +:+ "- **Score:** " +:+ pretty score +:+ " out of " +:+ pretty total
  +:+ " (" +:+ percentage +:+ "%)" +:+ lineBreak +:+ lineBreak
  +:+ match incorrect with
      | [] => "Excellent work! You answered all questions correctly!"
      | _ :: _ =>
          "**Review your incorrect answers:**" +:+ lineBreak +:+ lineBreak
          +:+ String.concat (lineBreak +:+ lineBreak)
                (map printIncorrect incorrect)
      end.

(** The state [st'] is [st] with the messages [ms] appended and nothing else
    changed. *)
Definition only_appends (ms : list ChatMessage) (st st' : AppState) : Prop :=
  st' = {| lessons := lessons st;
           currentLessonIndex := currentLessonIndex st;
           messages := messages st ++ ms;
           appStatus := appStatus st;
           inputDisabled := inputDisabled st;
           mockExam := mockExam st;
           isSidebarOpen := isSidebarOpen st;
           scenarioRef := scenarioRef st;
           requests := requests st |}.

Definition says (s : Sender) (t : string) : ChatMessage :=
  {| sender := s; text := t; msg_references := None |}.

(** The messages a failing evaluation appends after the learner's, up to
    the one that shows the scenario again. *)
Definition failing_messages (evaluation : EvaluationResult) : list ChatMessage :=
  [ says ai (feedbackText evaluation);
    says system (failedText (default 0 (totalScore evaluation))) ]
  ++ match default [] (knowledgePoints evaluation) with
     | [] => []
     | points => [ says ai (knowledgePointsText points) ]
     end
  ++ match detailedExplanation evaluation with
     | None | Some EmptyString => []
     | Some explanation => [ says ai (modelAnswerText explanation) ]
     end.

End Spec.

(** ** Sample data *)

Module Sample.
Import App.

Definition sampleLesson (d : Z) (t : string) : Lesson :=
  {| week := (d - 1) / 5 + 1; day := d; phase := "Phase 1: Foundations";
     topic := t; description := "Rules and applications";
     references := "Pub 17"; part := "Part 1"; sequence := "1" |}.

Definition samplePlan : list Lesson :=
  [ sampleLesson 1 "Filing Status"; sampleLesson 2 "Dependents";
    sampleLesson 3 "Gross Income"; sampleLesson 4 "Adjustments";
    sampleLesson 5 "Standard Deduction"; sampleLesson 6 "Itemized Deductions";
    sampleLesson 7 "Tax Credits" ].

Definition progress (s : Status) (n t : Z) (l : Lesson) : LessonProgress :=
  {| lesson := l; status := s; score := n; twistsCompleted := t |}.

(** Five lessons passed, the sixth in progress with one twist done. *)
Definition sampleLessons : list LessonProgress :=
  [ progress passed 95 2 (sampleLesson 1 "Filing Status");
    progress passed 92 2 (sampleLesson 2 "Dependents");
    progress passed 90 2 (sampleLesson 3 "Gross Income");
    progress passed 97 2 (sampleLesson 4 "Adjustments");
    progress passed 91 2 (sampleLesson 5 "Standard Deduction");
    progress active 0 1 (sampleLesson 6 "Itemized Deductions");
    progress locked 0 0 (sampleLesson 7 "Tax Credits") ].

Definition originalScenario : Scenario :=
  {| scenario := "Jane paid 12,000 of mortgage interest and 4,000 of state tax.";
     question := "Which deductions can Jane itemize?" |}.

Definition twistScenario : Scenario :=
  {| scenario := "Jane paid 12,000 of mortgage interest and 14,000 of state tax.";
     question := "How does the state tax limit change the result?" |}.

Definition evaluationWith (total : Z) (points : list string)
  (explanation : string) : EvaluationResult :=
  {| totalScore := Some total;
     scores := Some {| rules := Some 28; calculations := Some 27;
                       compliance := Some 14; alternatives := Some 9;
                       planning := Some 9; clarity := Some 5 |};
     feedback := Some {| good := Some ["Clear structure"];
                         corrections := Some [];
                         takeaways := Some ["Check the limits"] |};
     knowledgePoints := Some points;
     detailedExplanation := Some explanation |}.

Definition passingEvaluation : EvaluationResult := evaluationWith 92 [] EmptyString.

Definition failingEvaluation : EvaluationResult :=
  evaluationWith 60 ["pt1"; "pt2"] "Schedule A line by line.".

Definition sampleQuestion (t : string) (c : Letter) : MockQuestion :=
  {| mq_question := "Which form applies?";
     options := {| optA := "Form 1040"; optB := "Schedule A";
                   optC := "Schedule C"; optD := "Form 8863" |};
     correctAnswer := c; mq_topic := t |}.

Definition sampleQuestions : list MockQuestion :=
  [ sampleQuestion "Filing Status" A; sampleQuestion "Dependents" B;
    sampleQuestion "Gross Income" C ].

(** A service that grades the answer "good" 92 and any other answer 60, and
    generates [twistScenario] as the twist. *)
Definition sampleService : Collaborators :=
  {| generateScenario_outcome := fun _ _ _ isTwist =>
       inr (if isTwist then twistScenario else originalScenario);
     evaluateAnswer_outcome := fun _ answer _ =>
       inr (if decide (answer = "good") then passingEvaluation
            else failingEvaluation);
     generateMockExamQuestions_outcome := fun _ _ => inr sampleQuestions |}.

(** The same service, with scenario generation failing. *)
Definition failingGenerator : Collaborators :=
  {| generateScenario_outcome := fun _ _ _ _ =>
       inl (Error "Failed to generate scenario: AI response was malformed.");
     evaluateAnswer_outcome := evaluateAnswer_outcome sampleService;
     generateMockExamQuestions_outcome :=
       generateMockExamQuestions_outcome sampleService |}.

(** The session waiting for an answer to [current] on the lesson at
    [index]. *)
Definition awaitingAnswer (ls : list LessonProgress) (index : Z)
  (current : Scenario) : AppState :=
  {| lessons := ls; currentLessonIndex := index; messages := [];
     appStatus := AWAITING_ANSWER; inputDisabled := false; mockExam := None;
     isSidebarOpen := false; scenarioRef := Some current; requests := [] |}.

(** A mock exam in progress at question [cursor]. *)
Definition inMockExam (Q : list MockQuestion) (cursor : Z)
  (given : list string) : AppState :=
  {| lessons := sampleLessons; currentLessonIndex := 5; messages := [];
     appStatus := MOCK_EXAM_IN_PROGRESS; inputDisabled := false;
     mockExam := Some {| questions := Q; currentQuestionIndex := cursor;
                         answers := given |};
     isSidebarOpen := false; scenarioRef := None; requests := [] |}.

(** [JSON.parse] on the one text the examples use: the empty object. *)
Definition parse_empty_object (s : string) : option Json.json :=
  if decide (s = "{}") then Some (Json.JObject []) else None.

(** The text with the given bytes. *)
Definition utf8 (bytes : list N) : string :=
  fold_right (fun n s => String (ascii_of_N n) s) EmptyString bytes.

Definition noBreakSpace : string := utf8 [194; 160]%N.

(** The white space characters of ECMAScript, in UTF-8: U+0009 to U+000D,
    U+0020, U+00A0, U+1680, U+2000 to U+200A, U+2028, U+2029, U+202F,
    U+205F, U+3000, U+FEFF. *)
Definition whiteSpace : list string :=
  map utf8
    [ [9]; [10]; [11]; [12]; [13]; [32]; [194; 160]; [225; 154; 128];
      [226; 128; 128]; [226; 128; 129]; [226; 128; 130]; [226; 128; 131];
      [226; 128; 132]; [226; 128; 133]; [226; 128; 134]; [226; 128; 135];
      [226; 128; 136]; [226; 128; 137]; [226; 128; 138];
      [226; 128; 168]; [226; 128; 169]; [226; 128; 175]; [226; 129; 159];
      [227; 128; 128]; [239; 187; 191] ]%N.

(** Characters next to them that are not white space in ECMAScript: U+0008,
    U+000E, U+001F, U+0085 (next line), U+180E (Mongolian vowel separator),
    U+200B (zero width space), U+2060 (word joiner). *)
Definition notWhiteSpace : list string :=
  map utf8
    [ [8]; [14]; [31]; [194; 133]; [225; 160; 142]; [226; 128; 139];
      [226; 129; 160] ]%N.

End Sample.

(** ** Summaries of runs *)

Module Runs.
Import App Spec.

(** The summary of a mock exam with questions [Q] and answers [A], in the
    words of the specification: the number of correct indices, the total,
    the percentage, and the records of the incorrect answers in order. *)
Definition examSummary (Q : list MockQuestion) (A : list string) : string :=
  let score := Z.of_nat (length (correct_indices Q A)) in
  let total := Z.of_nat (length Q) in
  summaryText score total (percentageText score total)
    (map printIncorrect (incorrectAnswers Q A)).

(** The text [t] is read as the letter [c]: trimmed and in upper case it is
    that letter. *)
Definition reads_as (t : string) (c : Letter) : Prop :=
  toUpperCase (trim t) = letterText c.

End Runs.

(** * Properties *)

Import App Spec.

(** ** Reading and updating arrays *)

Lemma at_index_nat {T} (arr : list T) (i : nat) :
  at_index arr (Z.of_nat i) = arr !! i.
Proof.
  unfold at_index. rewrite decide_True by lia. now rewrite Nat2Z.id.
Qed.

Lemma at_index_Some_range {T} (arr : list T) (i : Z) (x : T) :
  at_index arr i = Some x -> 0 <= i < Z.of_nat (length arr).
Proof.
  unfold at_index. destruct (decide (0 <= i)); [|discriminate].
  intros H%lookup_lt_Some. lia.
Qed.

Lemma at_index_alter {T} (f : T -> T) (arr : list T) (i : Z) (x : T) :
  at_index arr i = Some x ->
  at_index (alter f (Z.to_nat i) arr) i = Some (f x).
Proof.
  unfold at_index. destruct (decide (0 <= i)); [|discriminate].
  intros H. rewrite list_lookup_alter, decide_True by done.
  now rewrite H.
Qed.

Lemma at_index_alter_ne {T} (f : T -> T) (arr : list T) (i j : Z) :
  0 <= i -> i <> j ->
  at_index (alter f (Z.to_nat i) arr) j = at_index arr j.
Proof.
  intros Hi Hne. unfold at_index. destruct (decide (0 <= j)); [|done].
  apply list_lookup_alter_ne. lia.
Qed.

Lemma element_Some {T} (arr : list T) (i : Z) (x : T) :
  at_index arr i = Some x -> element arr i = inr x.
Proof. unfold element. now intros ->. Qed.

Lemma assign_at_Some (f : LessonProgress -> LessonProgress)
  (arr : list LessonProgress) (i : Z) (x : LessonProgress) :
  at_index arr i = Some x ->
  assign_at i f arr = inr (alter f (Z.to_nat i) arr).
Proof. unfold assign_at. now intros ->%element_Some. Qed.

(** Unfolding of the handler monad, so that a handler run on a state
    becomes a term on that state. *)
Ltac run_handler :=
  unfold try_catch, bind, ret, throw, await, evaluateAnswer, generateScenario,
    generateMockExamQuestions, displayCurrentMockQuestion, logRequest,
    addMessage, setAppStatus, setInputDisabled, setMockExam, setMessages,
    setIsSidebarOpen, setCurrentLessonIndex, setScenarioRef,
    scenarioRef_current, setLessons, setLessonsTo, update;
  cbn.

(** ** Evaluation of a submitted answer *)

Section Evaluation.

Variable service : Collaborators.
Variables (st : AppState) (userMessage : string) (current : Scenario)
  (evaluation : EvaluationResult).

(** The handler takes the evaluation path: no mock exam is in progress and
    a scenario is stored. *)
Hypothesis Hnot_mock : appStatus st <> MOCK_EXAM_IN_PROGRESS.
Hypothesis Hscenario : scenarioRef st = Some current.

(** The evaluator answers with [evaluation]. *)
Hypothesis Hevaluation :
  evaluateAnswer_outcome service (scenario current) userMessage
    (passedLessons (lessons st)) = inr evaluation.

(** The run of the handler up to the branch on the score. *)
Ltac enter_evaluation :=
  unfold handleSendMessage;
  destruct (decide (appStatus st = MOCK_EXAM_IN_PROGRESS)) as [|_];
  [contradiction|];
  rewrite Hscenario; run_handler; rewrite ?Hscenario, ?Hevaluation; cbn.

(** C1. For every evaluation of a submitted answer with totalScore at least
    90 while the current lesson's twistsCompleted is below 2, the handler
    increments twistsCompleted on the current LessonProgress and changes no
    other field of any entry (so the status is not set to passed: an active
    lesson stays active), requests a twist scenario from the generator with
    the previous scenario text and the twist flag true, replaces the stored
    scenario with the generator's result, and ends in AWAITING_ANSWER. *)
Theorem passing_score_before_two_twists_issues_twist (l : LessonProgress) :
  90 <= default 0 (totalScore evaluation) ->
  at_index (lessons st) (currentLessonIndex st) = Some l ->
  twistsCompleted l < 2 ->
  let st' := fst (handleSendMessage service userMessage st) in
  lessons st'
    = alter (with_twistsCompleted (twistsCompleted l + 1))
        (Z.to_nat (currentLessonIndex st)) (lessons st)
  /\ at_index (lessons st') (currentLessonIndex st)
     = Some {| lesson := lesson l; status := status l; score := score l;
               twistsCompleted := twistsCompleted l + 1 |}
  /\ requests st'
     = requests st
       ++ [ EvaluateAnswer (scenario current) userMessage
              (passedLessons (lessons st));
            GenerateScenario (lesson l) (passedLessons (lessons st))
              (Some (scenario current)) true ]
  /\ (forall newScenarioData,
        generateScenario_outcome service (lesson l)
          (passedLessons (lessons st)) (Some (scenario current)) true
        = inr newScenarioData ->
        scenarioRef st' = Some newScenarioData)
  /\ appStatus st' = AWAITING_ANSWER
  /\ snd (handleSendMessage service userMessage st) = inr tt.
Proof.
  intros H90 Hl Htwists.
  pose proof (at_index_alter (with_twistsCompleted (twistsCompleted l + 1))
                _ _ _ Hl) as Hl'.
  enter_evaluation.
  destruct (decide (90 <= default 0 (totalScore evaluation))); [|lia].
  run_handler. rewrite (element_Some _ _ _ Hl). cbn.
  destruct (decide (twistsCompleted l < 2)); [|lia].
  run_handler. rewrite (assign_at_Some _ _ _ _ Hl). cbn.
  destruct (generateScenario_outcome service (lesson l)
              (passedLessons (lessons st)) (Some (scenario current)) true)
    as [error|newScenarioData]; cbn;
    repeat split; auto; try congruence; now rewrite <- app_assoc.
Qed.

(** C2. For every evaluation of a submitted answer with totalScore at least
    90 while the current lesson's twistsCompleted equals 2, the handler sets
    the current LessonProgress status to passed and its score to the given
    totalScore, leaves twistsCompleted at 2 and every other entry as it
    was, and goes to TOPIC_PASSED. *)
Theorem passing_score_after_two_twists_passes_topic (l : LessonProgress) :
  90 <= default 0 (totalScore evaluation) ->
  at_index (lessons st) (currentLessonIndex st) = Some l ->
  twistsCompleted l = 2 ->
  let st' := fst (handleSendMessage service userMessage st) in
  at_index (lessons st') (currentLessonIndex st)
    = Some {| lesson := lesson l; status := passed;
              score := default 0 (totalScore evaluation);
              twistsCompleted := 2 |}
  /\ (forall j, j <> currentLessonIndex st ->
        at_index (lessons st') j = at_index (lessons st) j)
  /\ appStatus st' = TOPIC_PASSED
  /\ snd (handleSendMessage service userMessage st) = inr tt.
Proof.
  intros H90 Hl Htwists.
  pose proof (at_index_alter (with_status passed) _ _ _ Hl) as Hl'.
  pose proof (at_index_Some_range _ _ _ Hl) as Hrange.
  enter_evaluation.
  destruct (decide (90 <= default 0 (totalScore evaluation))); [|lia].
  run_handler. rewrite (element_Some _ _ _ Hl). cbn.
  destruct (decide (twistsCompleted l < 2)); [lia|].
  run_handler. rewrite (assign_at_Some _ _ _ _ Hl).
  rewrite (assign_at_Some _ _ _ _ Hl'). cbn.
  repeat split.
  - rewrite (at_index_alter _ _ _ _ Hl'). unfold with_score, with_status.
    cbn. now rewrite Htwists.
  - intros j Hj. rewrite !at_index_alter_ne by lia. reflexivity.
Qed.

(** C4. For every evaluation of a submitted answer with totalScore below 90,
    no field of any LessonProgress entry changes: the lessons after the
    transition are the lessons before it (so the current lesson's status
    and twistsCompleted are the same). *)
Theorem failing_score_leaves_lessons_unchanged :
  default 0 (totalScore evaluation) < 90 ->
  lessons (fst (handleSendMessage service userMessage st)) = lessons st.
Proof.
  intros Hfail. enter_evaluation.
  destruct (decide (90 <= default 0 (totalScore evaluation))); [lia|].
  run_handler.
  destruct (default [] (knowledgePoints evaluation)); cbn;
    destruct (detailedExplanation evaluation) as [[|]|]; cbn;
    rewrite ?Hscenario; reflexivity.
Qed.

(** C3, as the program has it.  For every evaluation with totalScore below
    90, the handler appends the feedback message, the score message, the
    knowledge points (when there are any) and the model answer (when it is
    not empty), then shows again the scenario that is stored at that
    moment, the one the answer was evaluated against: the original
    scenario when no twist has been issued, the latest twist otherwise.
    The stored scenario is kept and the state returns to AWAITING_ANSWER. *)
Theorem failing_score_shows_stored_scenario_again :
  default 0 (totalScore evaluation) < 90 ->
  let st' := fst (handleSendMessage service userMessage st) in
  messages st'
    = messages st ++ [ says user userMessage ] ++ failing_messages evaluation
      ++ [ says ai (retryText current) ]
  /\ scenarioRef st' = Some current
  /\ appStatus st' = AWAITING_ANSWER
  /\ snd (handleSendMessage service userMessage st) = inr tt.
Proof.
  intros Hfail. enter_evaluation. unfold failing_messages.
  destruct (decide (90 <= default 0 (totalScore evaluation))); [lia|].
  run_handler.
  destruct (default [] (knowledgePoints evaluation)); cbn;
    destruct (detailedExplanation evaluation) as [[|]|]; cbn;
    rewrite ?Hscenario; cbn; rewrite <- ?app_assoc; cbn; auto.
Qed.

(** C10. If the twist generation request throws after an evaluation with
    totalScore at least 90 and twistsCompleted below 2, the error handler
    appends a system error message and returns the session to
    AWAITING_ANSWER with the previous scenario still stored, and the
    increment of twistsCompleted made before the request stays in the
    lessons: it is not rolled back. *)
Theorem failed_twist_generation_keeps_increment
  (l : LessonProgress) (error : thrown) :
  90 <= default 0 (totalScore evaluation) ->
  at_index (lessons st) (currentLessonIndex st) = Some l ->
  twistsCompleted l < 2 ->
  generateScenario_outcome service (lesson l) (passedLessons (lessons st))
    (Some (scenario current)) true = inl error ->
  let st' := fst (handleSendMessage service userMessage st) in
  last (messages st') = Some (says system (evaluationErrorText error))
  /\ appStatus st' = AWAITING_ANSWER
  /\ scenarioRef st' = Some current
  /\ at_index (lessons st') (currentLessonIndex st)
     = Some {| lesson := lesson l; status := status l; score := score l;
               twistsCompleted := twistsCompleted l + 1 |}
  /\ snd (handleSendMessage service userMessage st) = inr tt.
Proof.
  intros H90 Hl Htwists Hthrows.
  pose proof (at_index_alter (with_twistsCompleted (twistsCompleted l + 1))
                _ _ _ Hl) as Hl'.
  enter_evaluation.
  destruct (decide (90 <= default 0 (totalScore evaluation))); [|lia].
  run_handler. rewrite (element_Some _ _ _ Hl). cbn.
  destruct (decide (twistsCompleted l < 2)); [|lia].
  run_handler. rewrite (assign_at_Some _ _ _ _ Hl). cbn.
  rewrite Hthrows. cbn. rewrite last_snoc. auto.
Qed.

End Evaluation.

(** *** The evaluation properties on the sample session *)

Import Sample.

(** Score 92 with one twist done: the twist count becomes 2, the lesson
    stays active, the twist is requested with the prior scenario text, and
    the session waits for an answer to the twist. *)
Lemma passing_score_before_two_twists_issues_twist_witness :
  let st := awaitingAnswer sampleLessons 5 originalScenario in
  let st' := fst (handleSendMessage sampleService "good" st) in
  at_index (lessons st') 5
    = Some (progress active 0 2 (sampleLesson 6 "Itemized Deductions"))
  /\ requests st'
     = [ EvaluateAnswer (scenario originalScenario) "good"
           (passedLessons sampleLessons);
         GenerateScenario (sampleLesson 6 "Itemized Deductions")
           (passedLessons sampleLessons) (Some (scenario originalScenario))
           true ]
  /\ scenarioRef st' = Some twistScenario
  /\ appStatus st' = AWAITING_ANSWER.
Proof.
  destruct (passing_score_before_two_twists_issues_twist sampleService
              (awaitingAnswer sampleLessons 5 originalScenario) "good"
              originalScenario passingEvaluation
              ltac:(discriminate) eq_refl eq_refl
              (progress active 0 1 (sampleLesson 6 "Itemized Deductions"))
              ltac:(vm_compute; discriminate) eq_refl ltac:(reflexivity))
    as (_ & Hentry & Hrequests & Hstored & Hstatus & _).
  exact (conj Hentry (conj Hrequests
           (conj (Hstored twistScenario eq_refl) Hstatus))).
Defined.

(** Score 92 with both twists done: the lesson is passed with score 92. *)
Lemma passing_score_after_two_twists_passes_topic_witness :
  let st := awaitingAnswer sampleLessons 0 originalScenario in
  let st' := fst (handleSendMessage sampleService "good" st) in
  at_index (lessons st') 0
    = Some (progress passed 92 2 (sampleLesson 1 "Filing Status"))
  /\ appStatus st' = TOPIC_PASSED.
Proof.
  destruct (passing_score_after_two_twists_passes_topic sampleService
              (awaitingAnswer sampleLessons 0 originalScenario) "good"
              originalScenario passingEvaluation
              ltac:(discriminate) eq_refl eq_refl
              (progress passed 95 2 (sampleLesson 1 "Filing Status"))
              ltac:(vm_compute; discriminate) eq_refl eq_refl)
    as (Hentry & _ & Hstatus & _).
  exact (conj Hentry Hstatus).
Defined.

(** Score 60: the lessons are as they were. *)
Lemma failing_score_leaves_lessons_unchanged_witness :
  lessons (fst (handleSendMessage sampleService "poor"
                  (awaitingAnswer sampleLessons 5 originalScenario)))
  = sampleLessons.
Proof.
  exact (failing_score_leaves_lessons_unchanged sampleService
           (awaitingAnswer sampleLessons 5 originalScenario) "poor"
           originalScenario failingEvaluation
           ltac:(discriminate) eq_refl eq_refl ltac:(reflexivity)).
Defined.

(** Score 60 with knowledge points and a model answer: feedback, score
    message, knowledge points and model answer are appended, then the
    stored scenario. *)
Lemma failing_score_shows_stored_scenario_again_witness :
  let st := awaitingAnswer sampleLessons 5 originalScenario in
  let st' := fst (handleSendMessage sampleService "poor" st) in
  messages st'
    = [ says user "poor";
        says ai (feedbackText failingEvaluation);
        says system (failedText 60);
        says ai (knowledgePointsText ["pt1"; "pt2"]);
        says ai (modelAnswerText "Schedule A line by line.");
        says ai (retryText originalScenario) ]
  /\ appStatus st' = AWAITING_ANSWER.
Proof.
  destruct (failing_score_shows_stored_scenario_again sampleService
              (awaitingAnswer sampleLessons 5 originalScenario) "poor"
              originalScenario failingEvaluation
              ltac:(discriminate) eq_refl eq_refl ltac:(reflexivity))
    as (Hmessages & _ & Hstatus & _).
  exact (conj Hmessages Hstatus).
Defined.

(** The generator fails on the twist after score 92 with one twist done:
    the twist count is 2 all the same. *)
Lemma failed_twist_generation_keeps_increment_witness :
  let st := awaitingAnswer sampleLessons 5 originalScenario in
  let st' := fst (handleSendMessage failingGenerator "good" st) in
  at_index (lessons st') 5
    = Some (progress active 0 2 (sampleLesson 6 "Itemized Deductions"))
  /\ scenarioRef st' = Some originalScenario
  /\ appStatus st' = AWAITING_ANSWER.
Proof.
  destruct (failed_twist_generation_keeps_increment failingGenerator
              (awaitingAnswer sampleLessons 5 originalScenario) "good"
              originalScenario passingEvaluation
              ltac:(discriminate) eq_refl eq_refl
              (progress active 0 1 (sampleLesson 6 "Itemized Deductions"))
              (Error "Failed to generate scenario: AI response was malformed.")
              ltac:(vm_compute; discriminate) eq_refl ltac:(reflexivity)
              eq_refl)
    as (_ & Hstatus & Hstored & Hentry & _).
  exact (conj Hentry (conj Hstored Hstatus)).
Defined.

(** C3, as stated, fails.  The learner passes the original scenario (score
    92), so a twist is issued and stored; the learner then fails the twist
    (score 60).  The scenario shown again for the retry is the twist, not
    the original scenario. *)
Lemma retry_after_twist_shows_twist_not_original :
  let st0 := awaitingAnswer sampleLessons 5 originalScenario in
  let st1 := fst (handleSendMessage sampleService "good" st0) in
  let st2 := fst (handleSendMessage sampleService "poor" st1) in
  scenarioRef st1 = Some twistScenario
  /\ appStatus st2 = AWAITING_ANSWER
  /\ last (messages st2) = Some (says ai (retryText twistScenario))
  /\ last (messages st2) <> Some (says ai (retryText originalScenario)).
Proof.
  vm_compute. repeat split. discriminate.
Qed.

(** ** The evaluator's response *)

(** C5, as stated, fails.  The response text "{}" parses to the empty
    object, which has none of the five required fields of the evaluation
    schema; [evaluateAnswer] returns it as its result. *)
Lemma schema_invalid_response_is_returned :
  Json.conforms GeminiService.evaluationSchema (Json.JObject []) = false
  /\ GeminiService.evaluateAnswer_response parse_empty_object
       (fun _ => "Unexpected end of JSON input") (Some "{}")
     = inr (Json.JObject []).
Proof. split; reflexivity. Qed.

(** C5, as the program has it.  [evaluateAnswer] fails when the
    collaborator's response is empty (no text, or the empty text) and when
    the text does not parse as JSON.  A text that parses is returned as the
    result whatever its shape: the response is not validated against the
    evaluation schema. *)
Theorem evaluateAnswer_fails_only_on_empty_or_unparseable
  (JSON_parse : string -> option Json.json) (syntax_error : string -> string)
  (responseText : option string) :
  let result :=
    GeminiService.evaluateAnswer_response JSON_parse syntax_error responseText in
  (responseText = None \/ responseText = Some EmptyString ->
     result = inl (Error "Failed to evaluate answer: The AI returned an empty response."))
  /\ (forall t, responseText = Some t -> t <> EmptyString ->
        JSON_parse (trim t) = None ->
        result = inl (Error (syntax_error (trim t))))
  /\ (forall t parsed, responseText = Some t -> t <> EmptyString ->
        JSON_parse (trim t) = Some parsed ->
        result = inr parsed).
Proof.
  unfold GeminiService.evaluateAnswer_response. repeat split.
  - now intros [-> | ->].
  - intros t -> Hne Hparse. destruct t; [done|]. now rewrite Hparse.
  - intros t parsed -> Hne Hparse. destruct t; [done|]. now rewrite Hparse.
Qed.

Lemma evaluateAnswer_fails_only_on_empty_or_unparseable_witness :
  GeminiService.evaluateAnswer_response parse_empty_object
    (fun _ => "Unexpected end of JSON input") None
  = inl (Error "Failed to evaluate answer: The AI returned an empty response.")
  /\ GeminiService.evaluateAnswer_response parse_empty_object
       (fun _ => "Unexpected end of JSON input") (Some "{")
     = inl (Error "Unexpected end of JSON input")
  /\ GeminiService.evaluateAnswer_response parse_empty_object
       (fun _ => "Unexpected end of JSON input") (Some " {} ")
     = inr (Json.JObject []).
Proof.
  split; [|split].
  - exact (proj1 (evaluateAnswer_fails_only_on_empty_or_unparseable
                    parse_empty_object _ None) (or_introl eq_refl)).
  - exact (proj1 (proj2 (evaluateAnswer_fails_only_on_empty_or_unparseable
                           parse_empty_object
                           (fun _ => "Unexpected end of JSON input")
                           (Some "{")))
             "{" eq_refl ltac:(discriminate) eq_refl).
  - exact (proj2 (proj2 (evaluateAnswer_fails_only_on_empty_or_unparseable
                           parse_empty_object
                           (fun _ => "Unexpected end of JSON input")
                           (Some " {} ")))
             " {} " (Json.JObject []) eq_refl ltac:(discriminate) eq_refl).
Defined.

(** ** The mock exam: answers *)

(** C7, as stated, fails.  The answer " b" is, after upper-casing, " B",
    which is not one of A, B, C, D; the handler trims it first, takes it as
    B, appends it to the answers and advances the cursor. *)
Lemma padded_letter_is_accepted :
  let st := inMockExam sampleQuestions 0 [] in
  includes ["A"; "B"; "C"; "D"] (toUpperCase " b") = false
  /\ mockExam (fst (handleMockAnswer " b" st))
     = Some {| questions := sampleQuestions; currentQuestionIndex := 1;
               answers := ["B"] |}.
Proof. split; reflexivity. Qed.

(** [trim] removes each white space character of ECMAScript on both sides,
    and none of the characters next to them. *)
Example trim_removes_white_space :
  Forall (fun w => trim (w +:+ "b" +:+ w) = "b") whiteSpace
  /\ Forall (fun w => trim (w +:+ "b" +:+ w) = w +:+ "b" +:+ w) notWhiteSpace.
Proof. split; repeat constructor. Qed.

(** So a letter with a no-break space in front (the bytes C2 A0) is taken
    as that letter too. *)
Example no_break_space_before_letter_is_trimmed :
  let st := inMockExam sampleQuestions 0 [] in
  mockExam (fst (handleMockAnswer (noBreakSpace +:+ "b") st))
  = Some {| questions := sampleQuestions; currentQuestionIndex := 1;
            answers := ["B"] |}.
Proof. reflexivity. Qed.

(** C7, as the program has it.  For every mock-answer submission whose
    text, after trimming the white space around it (all the white space
    that [trim] removes, the no-break space and the other white space
    outside the ASCII range included) and upper-casing, is not one of A, B,
    C, D, the handler only appends the message that the answer is invalid:
    the cursor does not advance, nothing is appended to the answers, and
    the status is the one before, MOCK_EXAM_IN_PROGRESS. *)
Theorem invalid_mock_answer_is_rejected
  (service : Collaborators) (st : AppState) (exam : MockExam)
  (answer : string) :
  appStatus st = MOCK_EXAM_IN_PROGRESS ->
  mockExam st = Some exam ->
  includes ["A"; "B"; "C"; "D"] (toUpperCase (trim answer)) = false ->
  let st' := fst (handleSendMessage service answer st) in
  only_appends [ says system invalidAnswerText ] st st'
  /\ mockExam st' = Some exam
  /\ appStatus st' = MOCK_EXAM_IN_PROGRESS
  /\ snd (handleSendMessage service answer st) = inr tt.
Proof.
  intros Hstatus Hexam Hinvalid. unfold handleSendMessage.
  rewrite decide_True by done. unfold handleMockAnswer.
  rewrite Hexam, Hinvalid. cbn. unfold only_appends. auto.
Qed.

Lemma invalid_mock_answer_is_rejected_witness :
  let st := inMockExam sampleQuestions 1 ["A"] in
  let st' := fst (handleSendMessage sampleService "e" st) in
  messages st' = [ says system invalidAnswerText ]
  /\ mockExam st'
     = Some {| questions := sampleQuestions; currentQuestionIndex := 1;
               answers := ["A"] |}
  /\ appStatus st' = MOCK_EXAM_IN_PROGRESS.
Proof.
  destruct (invalid_mock_answer_is_rejected sampleService
              (inMockExam sampleQuestions 1 ["A"])
              {| questions := sampleQuestions; currentQuestionIndex := 1;
                 answers := ["A"] |}
              "e" eq_refl eq_refl eq_refl)
    as (Happended & Hexam & Hstatus & _).
  exact (conj (f_equal messages Happended) (conj Hexam Hstatus)).
Defined.

(** ** The mock exam: start *)

Lemma questionCount_clamp (passedLessons : list LessonProgress) :
  GeminiService.questionCount passedLessons
  = clamp (Z.of_nat (length passedLessons) / 2) 5 15.
Proof.
  unfold GeminiService.questionCount, clamp.
  repeat case_decide; lia.
Qed.

(** C8. Starting a mock exam when fewer than 5 lessons are passed issues no
    generation request and changes nothing of the state but the transcript,
    which gets the rejection message.  When at least 5 are passed, exactly
    one request goes to the generator, and the number of questions it asks
    for is clamp(floor(passedCount / 2), 5, 15). *)
Theorem start_mock_exam_guard_and_question_count
  (service : Collaborators) (st : AppState) :
  let passedCount := Z.of_nat (length (passedLessons (lessons st))) in
  let st' := fst (handleStartMockExam service st) in
  (passedCount < 5 ->
     only_appends [ says system mockExamGuardText ] st st'
     /\ requests st' = requests st
     /\ snd (handleStartMockExam service st) = inr tt)
  /\ (5 <= passedCount ->
        requests st'
        = requests st
          ++ [ GenerateMockExamQuestions (passedLessons (lessons st))
                 (clamp (passedCount / 2) 5 15) ]).
Proof.
  cbn zeta. unfold handleStartMockExam. split; intros Hcount.
  - rewrite decide_True by done. cbn. unfold only_appends. auto.
  - rewrite decide_False by lia. run_handler.
    rewrite questionCount_clamp.
    destruct (generateMockExamQuestions_outcome service _ _) as [e|[|q qs]];
      reflexivity.
Qed.

Lemma start_mock_exam_guard_and_question_count_witness :
  (let st := initialState (take 4 sampleLessons) in
   let st' := fst (handleStartMockExam sampleService st) in
   messages st' = [ says system mockExamGuardText ]
   /\ requests st' = []
   /\ appStatus st' = IDLE)
  /\ requests (fst (handleStartMockExam sampleService
                      (initialState sampleLessons)))
     = [ GenerateMockExamQuestions (passedLessons sampleLessons) 5 ].
Proof.
  split.
  - destruct (proj1 (start_mock_exam_guard_and_question_count sampleService
                       (initialState (take 4 sampleLessons)))
                ltac:(vm_compute; reflexivity))
      as (Happended & Hrequests & _).
    exact (conj (f_equal messages Happended)
             (conj Hrequests (f_equal appStatus Happended))).
  - exact (proj2 (start_mock_exam_guard_and_question_count sampleService
                    (initialState sampleLessons))
             ltac:(vm_compute; discriminate)).
Defined.

(** ** Initialisation *)

Lemma findIndex_first_not_passed (ls : list LessonProgress) :
  findIndex (fun l => bool_decide (status l <> passed)) ls
  = match first_not_passed ls with
    | Some i => Z.of_nat i
    | None => -1
    end.
Proof.
  induction ls as [|l rest IH]; [reflexivity|]. cbn.
  destruct (decide (status l = passed)) as [Hp|Hp].
  - rewrite bool_decide_false by (intros H; now apply H).
    rewrite IH. destruct (first_not_passed rest) as [i|]; cbn.
    + rewrite decide_False by lia. lia.
    + reflexivity.
  - now rewrite bool_decide_true.
Qed.

Lemma first_not_passed_Some (ls : list LessonProgress) (i : nat) :
  first_not_passed ls = Some i ->
  exists l, ls !! i = Some l /\ status l <> passed.
Proof.
  revert i. induction ls as [|l rest IH]; intros i; [discriminate|]. cbn.
  destruct (decide (status l = passed)) as [Hp|Hp].
  - destruct (first_not_passed rest) as [j|]; [|discriminate].
    intros [= <-]. cbn. now apply IH.
  - intros [= <-]. now exists l.
Qed.

Lemma first_not_passed_alter (f : LessonProgress -> LessonProgress)
  (ls : list LessonProgress) (i : nat) :
  first_not_passed ls = Some i ->
  (forall l, status l <> passed -> status (f l) <> passed) ->
  first_not_passed (alter f i ls) = Some i.
Proof.
  intros Hfirst Hf. revert i Hfirst.
  induction ls as [|l rest IH]; intros i; [discriminate|]. cbn.
  destruct (decide (status l = passed)) as [Hp|Hp].
  - destruct (first_not_passed rest) as [j|] eqn:Hrest; [|discriminate].
    intros [= <-]. cbn. rewrite decide_True by done.
    now rewrite (IH j eq_refl).
  - intros [= <-]. cbn. rewrite decide_False; [done|]. now apply Hf.
Qed.

Lemma count_status_none (s : Status) (ls : list LessonProgress) :
  (forall j l, ls !! j = Some l -> status l <> s) ->
  count_status s ls = 0%nat.
Proof.
  unfold count_status. induction ls as [|l rest IH]; intros H; [done|].
  rewrite filter_cons_False by (apply (H 0%nat); reflexivity).
  apply IH. intros j l' Hj. apply (H (S j)). exact Hj.
Qed.

Lemma count_status_only_at (s : Status) (ls : list LessonProgress)
  (i : nat) (l : LessonProgress) :
  ls !! i = Some l -> status l = s ->
  (forall j l', ls !! j = Some l' -> status l' = s -> j = i) ->
  count_status s ls = 1%nat.
Proof.
  revert i. induction ls as [|x rest IH]; intros i Hi Hs Honly; [done|].
  destruct i as [|i]; cbn in Hi.
  - injection Hi as ->. unfold count_status.
    rewrite filter_cons_True by done. cbn. f_equal.
    apply count_status_none. intros j l' Hj Hl'.
    now specialize (Honly (S j) l' Hj Hl').
  - unfold count_status. rewrite filter_cons_False.
    + apply (IH i Hi Hs). intros j l' Hj Hl'.
      specialize (Honly (S j) l' Hj Hl'). lia.
    + intros Hx. now specialize (Honly 0%nat x eq_refl Hx).
Qed.

Lemma first_not_passed_None (ls : list LessonProgress) :
  first_not_passed ls = None ->
  forall j l, ls !! j = Some l -> status l = passed.
Proof.
  induction ls as [|x rest IH]; intros Hnone j l Hj; [done|].
  cbn in Hnone. destruct (decide (status x = passed)) as [Hp|Hp]; [|done].
  destruct (first_not_passed rest); [done|].
  destruct j as [|j]; cbn in Hj.
  - now injection Hj as <-.
  - now apply (IH eq_refl j).
Qed.

(** What initialisation does establish: when every entry that is stored as
    active is the lowest-ordered entry that is not passed (so, for a fresh
    lesson plan and for a store that was written while the learner followed
    the lessons in order), exactly one entry is active afterwards, the
    lowest-ordered one that is not passed, or none when all are passed. *)
Lemma initialize_one_active_when_stored_active_is_first
  (stored : list LessonProgress) :
  stored <> [] ->
  (forall j l, stored !! j = Some l -> status l = active ->
     first_not_passed stored = Some j) ->
  one_active_at_first_not_passed (lessons (fst (initialize (initialState stored))))
  /\ snd (initialize (initialState stored)) = inr tt.
Proof.
  intros Hne Hactive. unfold initialize.
  cbn [lessons initialState]. rewrite findIndex_first_not_passed.
  destruct (first_not_passed stored) as [i|] eqn:Hfirst.
  - destruct (first_not_passed_Some _ _ Hfirst) as (l & Hl & Hnp).
    pose proof (lookup_lt_Some _ _ _ Hl) as Hlt.
    rewrite decide_False by lia. run_handler.
    rewrite decide_True by lia.
    assert (Hat : at_index stored (Z.of_nat i) = Some l)
      by now rewrite at_index_nat.
    rewrite (element_Some _ _ _ Hat).
    destruct (decide (status l = locked)) as [Hlocked|Hunlocked].
    + rewrite (assign_at_Some _ _ _ _ Hat), Nat2Z.id. cbn.
      split; [|done]. unfold one_active_at_first_not_passed.
      rewrite (first_not_passed_alter _ _ _ Hfirst)
        by (intros ? _; cbn; discriminate).
      rewrite list_lookup_alter, decide_True, Hl by done.
      split; [|done].
      apply (count_status_only_at active _ i (with_status active l)).
      * now rewrite list_lookup_alter, decide_True, Hl.
      * reflexivity.
      * intros j l' Hj Hl'. destruct (decide (j = i)) as [|Hji]; [done|].
        rewrite list_lookup_alter_ne in Hj by done.
        specialize (Hactive j l' Hj Hl'). congruence.
    + cbn. split; [|done]. unfold one_active_at_first_not_passed.
      rewrite Hfirst, Hl.
      assert (Hact : status l = active) by (destruct (status l); done).
      split; [|cbn; now rewrite Hact].
      apply (count_status_only_at active _ i l Hl Hact).
      intros j l' Hj Hl'. specialize (Hactive j l' Hj Hl'). congruence.
  - pose proof (first_not_passed_None _ Hfirst) as Hall.
    rewrite decide_True by done. run_handler.
    rewrite decide_True by lia.
    assert (Hlen : (0 < length stored)%nat)
      by (destruct stored; [done | cbn; lia]).
    destruct (lookup_lt_is_Some_2 stored (length stored - 1)) as [l Hl];
      [lia|].
    assert (Hat : at_index stored (Z.of_nat (length stored) - 1) = Some l).
    { replace (Z.of_nat (length stored) - 1)
        with (Z.of_nat (length stored - 1)) by lia.
      now rewrite at_index_nat. }
    rewrite (element_Some _ _ _ Hat).
    rewrite decide_False by (rewrite (Hall _ _ Hl); done).
    cbn. split; [|done]. unfold one_active_at_first_not_passed.
    rewrite Hfirst.
    apply count_status_none. intros j l' Hj. now rewrite (Hall _ _ Hj).
Qed.

(** A fresh lesson plan has no active entry: after initialisation its first
    lesson is the one active entry. *)
Example initialize_fresh_plan :
  one_active_at_first_not_passed
    (lessons (fst (initialize (initialState (freshLessons samplePlan)))))
  /\ map status (lessons (fst (initialize (initialState (freshLessons samplePlan)))))
     = [ active; locked; locked; locked; locked; locked; locked ].
Proof.
  split; [|reflexivity].
  apply initialize_one_active_when_stored_active_is_first; [discriminate|].
  intros j l Hj Hactive. exfalso.
  unfold freshLessons in Hj. rewrite list_lookup_fmap in Hj.
  destruct (samplePlan !! j); [|discriminate].
  injection Hj as <-. discriminate Hactive.
Qed.

(** C9, on a store the program writes.  With a plan of two lessons the
    learner starts afresh (the first lesson becomes active), selects the
    second lesson (the first goes back to locked, the second becomes
    active), and loads the page again.  Initialisation finds the first
    lesson locked and makes it active; the second one, stored as active, is
    not touched.  Two entries are active, where the claim has exactly one. *)
Lemma initialize_leaves_stored_active_entry :
  let plan := [ sampleLesson 1 "Filing Status"; sampleLesson 2 "Dependents" ] in
  let started := fst (initialize (initialState (freshLessons plan))) in
  let selected := fst (handleSelectLesson 1 started) in
  let loaded := fst (reload selected) in
  map status (lessons started) = [ active; locked ]
  /\ map status (lessons selected) = [ locked; active ]
  /\ map status (lessons loaded) = [ active; active ]
  /\ count_status active (lessons loaded) = 2%nat
  /\ ~ one_active_at_first_not_passed (lessons loaded).
Proof.
  vm_compute. repeat split. intros [H _]. discriminate H.
Qed.

(** ** Binary64 arithmetic: how near the computed percentage is *)

Import Binary64.

(** The number of binary digits of a positive number. *)
Lemma digits2_pos_bounds (p : positive) :
  2 ^ (Zpos (digits2_pos p) - 1) <= Zpos p < 2 ^ Zpos (digits2_pos p).
Proof.
  induction p as [p IH|p IH|]; cbn [digits2_pos].
  - rewrite Pos2Z.inj_succ. change (Zpos p~1) with (2 * Zpos p + 1).
    replace (Z.succ (Zpos (digits2_pos p)) - 1)
      with (Z.succ (Zpos (digits2_pos p) - 1)) by lia.
    rewrite !Z.pow_succ_r by lia. revert IH.
    generalize (2 ^ (Zpos (digits2_pos p) - 1)) (2 ^ Zpos (digits2_pos p)).
    intros; lia.
  - rewrite Pos2Z.inj_succ. change (Zpos p~0) with (2 * Zpos p).
    replace (Z.succ (Zpos (digits2_pos p)) - 1)
      with (Z.succ (Zpos (digits2_pos p) - 1)) by lia.
    rewrite !Z.pow_succ_r by lia. revert IH.
    generalize (2 ^ (Zpos (digits2_pos p) - 1)) (2 ^ Zpos (digits2_pos p)).
    intros; lia.
  - cbn. lia.
Qed.

Lemma Zdigits2_unique (x d : Z) :
  2 ^ (d - 1) <= x < 2 ^ d -> 0 < x -> Zdigits2 x = d.
Proof.
  intros Hx Hpos. destruct x as [|p|p]; try lia. cbn [Zdigits2].
  pose proof (digits2_pos_bounds p) as Hp.
  set (d' := Zpos (digits2_pos p)) in *.
  assert (0 < d).
  { destruct (Z.lt_trichotomy d 0) as [Hd|[Hd|Hd]]; [|subst d; cbn in Hx; lia|lia].
    rewrite (Z.pow_neg_r 2 d) in Hx by lia. lia. }
  destruct (Z.lt_trichotomy d' d) as [Hlt|[Heq|Hgt]]; [|exact Heq|].
  - assert (2 ^ d' <= 2 ^ (d - 1)) by (apply Z.pow_le_mono_r; lia). lia.
  - assert (2 ^ d <= 2 ^ (d' - 1)) by (apply Z.pow_le_mono_r; lia). lia.
Qed.

Lemma Zdigits2_bounds (x : Z) :
  0 < x -> 2 ^ (Zdigits2 x - 1) <= x < 2 ^ Zdigits2 x.
Proof. destruct x as [|p|p]; try lia. intros _. apply digits2_pos_bounds. Qed.

Lemma shr_1_m (mrs : shr_record) :
  0 <= shr_m mrs -> shr_m (shr_1 mrs) = shr_m mrs / 2.
Proof.
  destruct mrs as [m r s]. cbn [shr_m]. intros Hm.
  destruct m as [|p|p]; [reflexivity| |lia].
  destruct p as [p|p|]; cbn [shr_1 shr_m].
  - change (Zpos p~1) with (2 * Zpos p + 1). apply (Z.div_unique _ 2 _ 1); lia.
  - change (Zpos p~0) with (2 * Zpos p). apply (Z.div_unique _ 2 _ 0); lia.
  - reflexivity.
Qed.

Lemma iter_pos_shr_1_m (p : positive) (mrs : shr_record) :
  0 <= shr_m mrs ->
  shr_m (SpecFloat.iter_pos shr_1 p mrs) = shr_m mrs / 2 ^ Zpos p.
Proof.
  revert mrs. induction p as [p IH|p IH|]; intros mrs Hm; cbn [SpecFloat.iter_pos].
  - assert (H1 : 0 <= shr_m (shr_1 mrs))
      by (rewrite shr_1_m by done; apply Z.div_pos; lia).
    assert (H2 : 0 <= shr_m (SpecFloat.iter_pos shr_1 p (shr_1 mrs)))
      by (rewrite IH by done; apply Z.div_pos; [done|apply Z.pow_pos_nonneg; lia]).
    rewrite IH, IH, shr_1_m by done.
    rewrite !Z.div_div by (try apply Z.pow_pos_nonneg; lia).
    f_equal. change (Zpos p~1) with (2 * Zpos p + 1).
    replace (2 * Zpos p + 1) with (1 + Zpos p + Zpos p) by lia.
    rewrite !Z.pow_add_r by lia. change (2 ^ 1) with 2. ring.
  - assert (H2 : 0 <= shr_m (SpecFloat.iter_pos shr_1 p mrs))
      by (rewrite IH by done; apply Z.div_pos; [done|apply Z.pow_pos_nonneg; lia]).
    rewrite IH, IH by done.
    rewrite !Z.div_div by (try apply Z.pow_pos_nonneg; lia).
    f_equal. change (Zpos p~0) with (2 * Zpos p).
    replace (2 * Zpos p) with (Zpos p + Zpos p) by lia.
    rewrite !Z.pow_add_r by lia. ring.
  - now rewrite shr_1_m.
Qed.

Lemma shr_record_of_loc_m (m : Z) (l : location) :
  shr_m (shr_record_of_loc m l) = m.
Proof. destruct l as [|[| |]]; reflexivity. Qed.

Lemma shr_m_div (m e n : Z) (l : location) :
  0 <= m -> 0 <= n ->
  shr_m (fst (shr (shr_record_of_loc m l) e n)) = m / 2 ^ n
  /\ snd (shr (shr_record_of_loc m l) e n) = e + n.
Proof.
  intros Hm Hn. destruct n as [|p|p]; try lia; cbn [shr fst snd].
  - rewrite shr_record_of_loc_m, Z.div_1_r. lia.
  - rewrite iter_pos_shr_1_m by (rewrite shr_record_of_loc_m; lia).
    now rewrite shr_record_of_loc_m.
Qed.

Lemma round_nearest_even_cases (m : Z) (l : location) :
  round_nearest_even m l = m \/ round_nearest_even m l = m + 1.
Proof.
  destruct l as [|[| |]]; cbn; auto. destruct (Z.even m); auto.
Qed.

Lemma shr_fexp_shift (m e : Z) (l : location) :
  0 < m -> 53 <= Zdigits2 m -> -1074 <= Zdigits2 m + e - 53 ->
  shr_m (fst (shr_fexp prec emax m e l)) = m / 2 ^ (Zdigits2 m - 53)
  /\ snd (shr_fexp prec emax m e l) = e + (Zdigits2 m - 53).
Proof.
  intros Hm Hd He. unfold shr_fexp, fexp, emin, prec, emax.
  replace (Z.max (Zdigits2 m + e - 53) (3 - 1024 - 53) - e)
    with (Zdigits2 m - 53) by lia.
  apply shr_m_div; lia.
Qed.

Lemma pow2_split (a b : Z) : 0 <= a -> 0 <= b -> 2 ^ (a + b) = 2 ^ a * 2 ^ b.
Proof. intros. now apply Z.pow_add_r. Qed.

Lemma binary_round_aux_faithful (mx ex : Z) (lx : location) :
  2 ^ 52 <= mx ->
  -1074 <= Zdigits2 mx + ex - 53 ->
  Zdigits2 mx + ex - 53 + 1 <= 971 ->
  exists m e,
    binary_round_aux prec emax false mx ex lx = S754_finite false m e
    /\ 2 ^ 52 <= Zpos m < 2 ^ 53
    /\ Zdigits2 mx - 53 <= e - ex <= Zdigits2 mx - 53 + 1
    /\ mx - 2 ^ (Zdigits2 mx - 53) < Zpos m * 2 ^ (e - ex)
       <= mx + 2 ^ (Zdigits2 mx - 53).
Proof.
  intros Hmx Hlo Hhi.
  assert (Hpos : 0 < mx) by (assert (0 < 2 ^ 52) by (now vm_compute); lia).
  pose proof (Zdigits2_bounds mx Hpos) as Hd.
  set (d := Zdigits2 mx) in *.
  assert (Hd53 : 53 <= d).
  { destruct (Z.le_gt_cases 53 d) as [|Hlt]; [done|].
    assert (2 ^ d <= 2 ^ 52) by (apply Z.pow_le_mono_r; lia). lia. }
  set (n := d - 53) in *.
  assert (Hn : 0 < 2 ^ n) by (apply Z.pow_pos_nonneg; lia).
  assert (Hdn : 2 ^ (d - 1) = 2 ^ 52 * 2 ^ n)
    by (replace (d - 1) with (52 + n) by lia; apply pow2_split; lia).
  assert (Hdn' : 2 ^ d = 2 ^ 53 * 2 ^ n)
    by (replace d with (53 + n) at 1 by lia; apply pow2_split; lia).
  destruct (shr_fexp_shift mx ex lx Hpos Hd53 Hlo) as [Hm1 He1].
  fold d n in Hm1, He1. unfold binary_round_aux.
  destruct (shr_fexp prec emax mx ex lx) as [mrs' e'].
  cbn [fst snd] in Hm1, He1.
  set (q := mx / 2 ^ n) in *.
  assert (Hq : 2 ^ 52 <= q < 2 ^ 53).
  { split.
    - apply Z.div_le_lower_bound; lia.
    - apply Z.div_lt_upper_bound; lia. }
  assert (Hqn : mx - 2 ^ n < q * 2 ^ n <= mx).
  { pose proof (Z.mul_div_le mx (2 ^ n) Hn).
    pose proof (Z.mul_succ_div_gt mx (2 ^ n) Hn). fold q in H, H0. lia. }
  set (r := round_nearest_even (shr_m mrs') (loc_of_shr_record mrs')).
  assert (Hr : r = q \/ r = q + 1)
    by (subst r; rewrite Hm1; apply round_nearest_even_cases).
  assert (H253 : 2 ^ 53 = 2 * 2 ^ 52) by (now vm_compute).
  destruct (Z.eq_dec r (2 ^ 53)) as [Hr53|Hr53].
  - assert (Hdr : Zdigits2 r = 54)
      by (apply Zdigits2_unique; rewrite Hr53; now vm_compute).
    destruct (shr_fexp_shift r e' loc_Exact) as [Hm2 He2]; [lia..|].
    rewrite Hdr in Hm2, He2.
    destruct (shr_fexp prec emax r e' loc_Exact) as [mrs'' e''].
    cbn [fst snd] in Hm2, He2. rewrite Hm2, Hr53.
    change (2 ^ 53 / 2 ^ (54 - 53)) with (Zpos (Z.to_pos (2 ^ 52))).
    rewrite (proj2 (Z.leb_le e'' (emax - prec))) by (unfold emax, prec; lia).
    exists (Z.to_pos (2 ^ 52)), e''. split; [done|].
    split; [now vm_compute|]. split; [lia|].
    replace (e'' - ex) with (1 + n) by lia.
    rewrite pow2_split by lia.
    change (Zpos (Z.to_pos (2 ^ 52))) with (2 ^ 52). change (2 ^ 1) with 2.
    assert (Hq1 : q = 2 ^ 53 - 1) by lia. rewrite Hq1 in Hqn.
    revert Hqn. generalize (2 ^ n). change (2 ^ 53) with 9007199254740992.
    change (2 ^ 52) with 4503599627370496. intros; lia.
  - assert (Hrb : 2 ^ 52 <= r < 2 ^ 53) by lia.
    assert (Hdr : Zdigits2 r = 53) by (apply Zdigits2_unique; [done|lia]).
    destruct (shr_fexp_shift r e' loc_Exact) as [Hm2 He2]; [lia..|].
    rewrite Hdr in Hm2, He2.
    destruct (shr_fexp prec emax r e' loc_Exact) as [mrs'' e''].
    cbn [fst snd] in Hm2, He2. rewrite Hm2.
    change (2 ^ (53 - 53)) with 1. rewrite Z.div_1_r.
    destruct r as [|m|m] eqn:Hrm; [lia| |lia].
    rewrite (proj2 (Z.leb_le e'' (emax - prec))) by (unfold emax, prec; lia).
    exists m, e''. split; [done|]. split; [done|]. split; [lia|].
    replace (e'' - ex) with n by lia. lia.
Qed.


Lemma binary_round_aux_exact (m : positive) (e : Z) :
  Zpos (digits2_pos m) = 53 -> -1074 <= e <= 971 ->
  binary_round_aux prec emax false (Zpos m) e loc_Exact = S754_finite false m e.
Proof.
  intros Hd He. unfold binary_round_aux, shr_fexp, fexp, emin, prec, emax.
  cbn [Zdigits2 shr_record_of_loc]. rewrite Hd.
  replace (Z.max (53 + e - 53) (3 - 1024 - 53) - e) with 0 by lia.
  cbn [shr shr_m loc_of_shr_record round_nearest_even Zdigits2].
  unfold shr_fexp, fexp, emin. cbn [Zdigits2 shr_record_of_loc]. rewrite Hd.
  replace (Z.max (53 + e - 53) (3 - 1024 - 53) - e) with 0 by lia.
  cbn [shr shr_m]. now rewrite (proj2 (Z.leb_le e (1024 - 53))) by lia.
Qed.

Lemma iter_xO (p k : positive) :
  Zpos (Pos.iter xO p k) = Zpos p * 2 ^ Zpos k.
Proof.
  induction k as [|k IH] using Pos.peano_ind.
  - cbn. lia.
  - rewrite Pos.iter_succ, Pos2Z.inj_succ, Z.pow_succ_r by lia.
    change (Zpos (Pos.iter xO p k)~0) with (2 * Zpos (Pos.iter xO p k)).
    rewrite IH. ring.
Qed.

(** The binary64 value of a positive integer below 2^53 is the integer
    itself, with a mantissa of 53 bits. *)
Lemma of_Z_finite (n : Z) :
  0 < n < 2 ^ 53 ->
  exists m, of_Z n = S754_finite false m (Zdigits2 n - 53)
            /\ Zpos m = n * 2 ^ (53 - Zdigits2 n)
            /\ 2 ^ 52 <= Zpos m < 2 ^ 53.
Proof.
  intros Hn. destruct n as [|p|p]; try lia.
  pose proof (digits2_pos_bounds p) as Hd.
  unfold of_Z, binary_normalize, binary_round, shl_align, fexp, emin.
  cbn [Zdigits2]. set (d := Zpos (digits2_pos p)) in *.
  assert (Hd53 : d <= 53).
  { destruct (Z.le_gt_cases d 53) as [|Hgt]; [done|].
    assert (2 ^ 53 <= 2 ^ (d - 1)) by (apply Z.pow_le_mono_r; lia). lia. }
  assert (0 < d) by (subst d; lia).
  unfold prec, emax.
  replace (Z.max (d + 0 - 53) (3 - 1024 - 53) - 0) with (d - 53) by lia.
  replace (Z.max (d + 0 - 53) (3 - 1024 - 53)) with (d - 53) by lia.
  destruct (d - 53) as [|k|k] eqn:Hk; try lia.
  - exists p. rewrite binary_round_aux_exact by (fold d; lia).
    replace (53 - d) with 0 by lia. rewrite Z.mul_1_r.
    replace d with 53 in Hd by lia. auto.
  - assert (Hdk : 53 - d = Zpos k) by lia.
    assert (Hm : Zpos (Pos.iter xO p k) = Zpos p * 2 ^ (53 - d))
      by (rewrite Hdk; apply iter_xO).
    assert (Hb : 2 ^ 52 <= Zpos (Pos.iter xO p k) < 2 ^ 53).
    { rewrite Hm.
      assert (0 < 2 ^ (53 - d)) by (apply Z.pow_pos_nonneg; lia).
      assert (2 ^ 52 = 2 ^ (d - 1) * 2 ^ (53 - d))
        by (rewrite <- pow2_split by lia; f_equal; lia).
      assert (2 ^ 53 = 2 ^ d * 2 ^ (53 - d))
        by (rewrite <- pow2_split by lia; f_equal; lia).
      nia. }
    exists (Pos.iter xO p k).
    rewrite binary_round_aux_exact.
    + auto.
    + change (Zpos (digits2_pos (Pos.iter xO p k)))
        with (Zdigits2 (Zpos (Pos.iter xO p k))).
      apply Zdigits2_unique; [exact Hb | lia].
    + lia.
Qed.

Lemma Zdigits2_between (x lo hi : Z) :
  0 <= lo -> 2 ^ lo <= x < 2 ^ hi -> lo + 1 <= Zdigits2 x <= hi.
Proof.
  intros Hlo Hx.
  assert (Hpos : 0 < x) by (assert (0 < 2 ^ lo) by (apply Z.pow_pos_nonneg; lia); lia).
  pose proof (Zdigits2_bounds x Hpos) as Hd. split.
  - destruct (Z.le_gt_cases (lo + 1) (Zdigits2 x)) as [|Hlt]; [done|].
    assert (2 ^ Zdigits2 x <= 2 ^ lo) by (apply Z.pow_le_mono_r; lia). lia.
  - destruct (Z.le_gt_cases (Zdigits2 x) hi) as [|Hgt]; [done|].
    assert (0 <= hi).
    { destruct (Z.le_gt_cases 0 hi) as [|Hneg]; [done|].
      rewrite (Z.pow_neg_r 2 hi) in Hx by lia. lia. }
    assert (2 ^ hi <= 2 ^ (Zdigits2 x - 1)) by (apply Z.pow_le_mono_r; lia).
    lia.
Qed.

(** Division of two positive binary64 values with 53-bit mantissas: the
    result has a 53-bit mantissa [m] and is within one unit in the last
    place of the quotient. *)
Lemma div_faithful (ms mt : positive) (es et : Z) :
  2 ^ 52 <= Zpos ms < 2 ^ 53 -> 2 ^ 52 <= Zpos mt < 2 ^ 53 ->
  -900 <= es - et <= 900 ->
  exists m e,
    div (S754_finite false ms es) (S754_finite false mt et)
    = S754_finite false m e
    /\ 2 ^ 52 <= Zpos m < 2 ^ 53
    /\ 0 <= e - (es - et - 53) <= 2
    /\ (Zpos m - 1) * 2 ^ (e - (es - et - 53)) * Zpos mt <= Zpos ms * 2 ^ 53
    /\ Zpos ms * 2 ^ 53 <= (Zpos m + 2) * 2 ^ (e - (es - et - 53)) * Zpos mt.
Proof.
  intros Hms Hmt He.
  assert (Hds : Zdigits2 (Zpos ms) = 53) by (apply Zdigits2_unique; [done|lia]).
  assert (Hdt : Zdigits2 (Zpos mt) = 53) by (apply Zdigits2_unique; [done|lia]).
  unfold div, SFdiv, SFdiv_core_binary. rewrite Hds, Hdt.
  unfold fexp, emin, prec, emax.
  replace (Z.min (Z.max (53 + es - (53 + et) - 53) (3 - 1024 - 53)) (es - et))
    with (es - et - 53) by lia.
  replace (es - et - (es - et - 53)) with 53 by lia.
  rewrite Z.shiftl_mul_pow2 by lia.
  pose proof (Z_div_mod (Zpos ms * 2 ^ 53) (Zpos mt) ltac:(lia)) as Hqr.
  destruct (Z.div_eucl (Zpos ms * 2 ^ 53) (Zpos mt)) as [q r].
  destruct Hqr as [Hqr Hr]. cbn [xorb].
  change (2 ^ 52) with 4503599627370496 in *.
  change (2 ^ 53) with 9007199254740992 in *.
  assert (Hq : 2 ^ 52 <= q < 2 ^ 54).
  { change (2 ^ 52) with 4503599627370496.
    change (2 ^ 54) with 18014398509481984. nia. }
  destruct (Zdigits2_between q 52 54 ltac:(lia) Hq) as [Hdq1 Hdq2].
  destruct (binary_round_aux_faithful q (es - et - 53) (new_location (Zpos mt) r))
    as (m & e & Hres & Hm & Hk & Hval);
    [change (2 ^ 52) with 4503599627370496 in *; lia | lia | lia |].
  unfold prec, emax in Hres. exists m, e. rewrite Hres.
  change (2 ^ 52) with 4503599627370496 in *.
  change (2 ^ 53) with 9007199254740992 in *.
  split; [done|]. split; [done|]. split; [lia|].
  set (k := e - (es - et - 53)) in *. set (n := Zdigits2 q - 53) in *.
  assert (Hnk : 2 ^ n <= 2 ^ k) by (apply Z.pow_le_mono_r; lia).
  assert (Hn : 0 < 2 ^ n) by (apply Z.pow_pos_nonneg; lia).
  revert Hval Hnk Hn. generalize (2 ^ n) (2 ^ k). intros N K Hval Hnk Hn.
  split; nia.
Qed.

(** Multiplication of two positive binary64 values with 53-bit mantissas:
    the same for the product. *)
Lemma mul_faithful (m1 mc : positive) (e1 ec : Z) :
  2 ^ 52 <= Zpos m1 < 2 ^ 53 -> 2 ^ 52 <= Zpos mc < 2 ^ 53 ->
  -900 <= e1 + ec <= 800 ->
  exists m e,
    mul (S754_finite false m1 e1) (S754_finite false mc ec)
    = S754_finite false m e
    /\ 2 ^ 52 <= Zpos m < 2 ^ 53
    /\ 52 <= e - (e1 + ec) <= 54
    /\ (Zpos m - 1) * 2 ^ (e - (e1 + ec)) <= Zpos m1 * Zpos mc
    /\ Zpos m1 * Zpos mc <= (Zpos m + 1) * 2 ^ (e - (e1 + ec)).
Proof.
  intros Hm1 Hmc He. unfold mul, SFmul. cbn [xorb].
  rewrite Pos2Z.inj_mul.
  assert (HP : 2 ^ 104 <= Zpos m1 * Zpos mc < 2 ^ 106).
  { change (2 ^ 52) with 4503599627370496 in *.
    change (2 ^ 53) with 9007199254740992 in *.
    change (2 ^ 104) with (4503599627370496 * 4503599627370496).
    change (2 ^ 106) with (9007199254740992 * 9007199254740992). nia. }
  destruct (Zdigits2_between _ 104 106 ltac:(lia) HP) as [Hd1 Hd2].
  destruct (binary_round_aux_faithful (Zpos m1 * Zpos mc) (e1 + ec) loc_Exact)
    as (m & e & Hres & Hm & Hk & Hval).
  { assert (2 ^ 52 <= 2 ^ 104) by (now vm_compute). lia. }
  { lia. }
  { lia. }
  exists m, e. rewrite Hres. split; [done|]. split; [done|]. split; [lia|].
  set (k := e - (e1 + ec)) in *.
  set (n := Zdigits2 (Zpos m1 * Zpos mc) - 53) in *.
  assert (Hnk : 2 ^ n <= 2 ^ k) by (apply Z.pow_le_mono_r; lia).
  assert (Hn : 0 < 2 ^ n) by (apply Z.pow_pos_nonneg; lia).
  revert Hval Hnk Hn. generalize (2 ^ n) (2 ^ k) (Zpos m1 * Zpos mc).
  intros N K P Hval Hnk Hn. split; nia.
Qed.

Lemma Zdigits2_mono (x y : Z) : 0 < x <= y -> Zdigits2 x <= Zdigits2 y.
Proof.
  intros Hxy.
  pose proof (Zdigits2_bounds x ltac:(lia)) as Hx.
  pose proof (Zdigits2_bounds y ltac:(lia)) as Hy.
  destruct (Z.le_gt_cases (Zdigits2 x) (Zdigits2 y)) as [|Hgt]; [done|].
  assert (2 ^ Zdigits2 y <= 2 ^ (Zdigits2 x - 1))
    by (apply Z.pow_le_mono_r; lia).
  lia.
Qed.

(** The binary64 value of [(s / t) * 100], for integers [0 < s <= t < 2^32]:
    a value [m * 2^e] within a few units in the last place of
    [100 * s / t]. *)
Lemma percentage_faithful (s t : Z) :
  0 < s <= t -> t < 2 ^ 32 ->
  exists m e,
    mul (div (of_Z s) (of_Z t)) (of_Z 100) = S754_finite false m e
    /\ e <= -43
    /\ (Zpos m - 3) * t <= 100 * s * 2 ^ (- e) <= (Zpos m + 5) * t.
Proof.
  intros Hst Ht.
  assert (H3253 : 2 ^ 32 < 2 ^ 53) by (now vm_compute).
  destruct (of_Z_finite s) as (ms & Hs & Hms & Hmsb); [lia|].
  destruct (of_Z_finite t) as (mt & Htt & Hmt & Hmtb); [lia|].
  pose proof (Zdigits2_mono s t Hst) as Hmono.
  destruct (Zdigits2_between s 0 32 ltac:(lia) ltac:(change (2 ^ 0) with 1; lia))
    as [Hds1 Hds2].
  destruct (Zdigits2_between t 0 32 ltac:(lia) ltac:(change (2 ^ 0) with 1; lia))
    as [Hdt1 Hdt2].
  set (ds := Zdigits2 s) in *. set (dt := Zdigits2 t) in *.
  rewrite Hs, Htt.
  destruct (div_faithful ms mt (ds - 53) (dt - 53) Hmsb Hmtb ltac:(lia))
    as (m1 & e1 & Hdiv & Hm1 & Hk1 & Hlo1 & Hhi1).
  rewrite Hdiv.
  change (of_Z 100) with (S754_finite false 7036874417766400 (-46)).
  destruct (mul_faithful m1 7036874417766400 e1 (-46) Hm1
              ltac:(now vm_compute) ltac:(lia))
    as (m2 & e2 & Hmul & Hm2 & Hk2 & Hlo2 & Hhi2).
  rewrite Hmul. exists m2, e2. split; [done|]. split; [lia|].
  set (k1 := e1 - (ds - 53 - (dt - 53) - 53)) in *.
  set (k2 := e2 - (e1 + -46)) in *.
  assert (Hpow : 2 ^ (- e2) * (2 ^ k1 * 2 ^ k2 * 2 ^ (53 - dt))
                 = 2 ^ (53 - ds) * 2 ^ 99).
  { rewrite <- !Z.pow_add_r by lia. f_equal. lia. }
  assert (HK2 : 2 ^ 52 <= 2 ^ k2) by (apply Z.pow_le_mono_r; lia).
  assert (HK1 : 0 < 2 ^ k1) by (apply Z.pow_pos_nonneg; lia).
  assert (HB : 0 < 2 ^ (53 - dt)) by (apply Z.pow_pos_nonneg; lia).
  assert (HD : 0 < 2 ^ (- e2)) by (apply Z.pow_pos_nonneg; lia).
  change (2 ^ 99) with (70368744177664 * 9007199254740992) in Hpow.
  change (2 ^ 52) with 4503599627370496 in *.
  change (2 ^ 53) with 9007199254740992 in *.
  revert Hms Hmt Hlo1 Hhi1 Hlo2 Hhi2 Hpow HK2 HK1 HB HD.
  generalize (2 ^ (- e2)) (2 ^ k1) (2 ^ k2) (2 ^ (53 - dt)) (2 ^ (53 - ds)).
  intros D K1 K2 B A Hms Hmt Hlo1 Hhi1 Hlo2 Hhi2 Hpow HK2 HK1 HB HD.
  rewrite Hms, Hmt in *.
  set (M1 := Zpos m1) in *. set (M2 := Zpos m2) in *.
  assert (HW : 0 < K1 * K2 * B) by nia.
  (* both sides, scaled by K1 * K2 * B *)
  assert (Hscale : 100 * s * D * (K1 * K2 * B)
                   = 7036874417766400 * (s * A * 9007199254740992)).
  { replace (100 * s * D * (K1 * K2 * B))
      with (100 * s * (D * (K1 * K2 * B))) by ring.
    rewrite Hpow. ring. }
  split.
  - apply (Z.mul_le_mono_pos_r _ _ (K1 * K2 * B) HW). rewrite Hscale.
    assert (H1 : 7036874417766400 * ((M1 - 1) * K1 * (t * B))
                 <= 7036874417766400 * (s * A * 9007199254740992))
      by (apply Z.mul_le_mono_nonneg_l; lia).
    assert (H2 : ((M2 - 1) * K2 - 7036874417766400) * (K1 * (t * B))
                 <= (M1 * 7036874417766400 - 7036874417766400) * (K1 * (t * B)))
      by (apply Z.mul_le_mono_nonneg_r; nia).
    assert (H3 : (M2 - 3) * K2 * (K1 * (t * B))
                 <= ((M2 - 1) * K2 - 7036874417766400) * (K1 * (t * B)))
      by (apply Z.mul_le_mono_nonneg_r; nia).
    nia.
  - apply (Z.mul_le_mono_pos_r _ _ (K1 * K2 * B) HW). rewrite Hscale.
    assert (H1 : 7036874417766400 * (s * A * 9007199254740992)
                 <= 7036874417766400 * ((M1 + 2) * K1 * (t * B)))
      by (apply Z.mul_le_mono_nonneg_l; lia).
    assert (H2 : (M1 * 7036874417766400 + 2 * 7036874417766400) * (K1 * (t * B))
                 <= ((M2 + 1) * K2 + 2 * 7036874417766400) * (K1 * (t * B)))
      by (apply Z.mul_le_mono_nonneg_r; nia).
    assert (H3 : ((M2 + 1) * K2 + 2 * 7036874417766400) * (K1 * (t * B))
                 <= (M2 + 5) * K2 * (K1 * (t * B)))
      by (apply Z.mul_le_mono_nonneg_r; nia).
    nia.
Qed.

(** Rounding such a value to tenths gives a number of tenths nearest to
    [1000 * s / t]. *)
Lemma tenths_rounded (s t : Z) (m : positive) (e : Z) :
  0 <= s -> 0 < t < 2 ^ 32 -> e <= -43 ->
  (Zpos m - 3) * t <= 100 * s * 2 ^ (- e) <= (Zpos m + 5) * t ->
  2 * Z.abs (tenths m e * t - 1000 * s) <= t.
Proof.
  intros Hs Ht He Hval. destruct e as [|p|p]; try lia.
  cbn [tenths]. change (- Z.neg p) with (Zpos p) in Hval.
  assert (HD : 2 ^ 43 <= 2 ^ Zpos p) by (apply Z.pow_le_mono_r; lia).
  rewrite Z.pow_add_r by lia. change (2 ^ 1) with 2.
  change (2 ^ 43) with 8796093022208 in HD.
  change (2 ^ 32) with 4294967296 in Ht.
  revert Hval HD. generalize (2 ^ Zpos p). intros D Hval HD.
  pose proof (Z.mul_div_le (20 * Zpos m + D) (D * 2) ltac:(lia)) as Hlo.
  pose proof (Z.mul_succ_div_gt (20 * Zpos m + D) (D * 2) ltac:(lia)) as Hhi.
  set (n := (20 * Zpos m + D) / (D * 2)) in *.
  set (M := Zpos m) in *.
  assert (H1 : (2 * n - 1) * D <= 20 * M) by lia.
  assert (H2 : 20 * M + 1 <= (2 * n + 1) * D) by lia.
  assert (H3 : (2 * n - 1) * D * t <= 20 * M * t)
    by (apply Z.mul_le_mono_nonneg_r; lia).
  assert (H4 : (20 * M + 1) * t <= (2 * n + 1) * D * t)
    by (apply Z.mul_le_mono_nonneg_r; lia).
  assert (Hup : 2000 * s <= (2 * n + 1) * t).
  { destruct (Z.le_gt_cases (2000 * s) ((2 * n + 1) * t)) as [|Hgt]; [done|].
    assert (((2 * n + 1) * t + 1) * D <= 2000 * s * D)
      by (apply Z.mul_le_mono_nonneg_r; lia).
    lia. }
  assert (Hdown : (2 * n - 1) * t <= 2000 * s).
  { destruct (Z.le_gt_cases ((2 * n - 1) * t) (2000 * s)) as [|Hgt]; [done|].
    assert ((2000 * s + 1) * D <= (2 * n - 1) * t * D)
      by (apply Z.mul_le_mono_nonneg_r; lia).
    lia. }
  lia.
Qed.

(** Two values as the arithmetic computes them: 1/3 is the double
    6004799503160661 * 2^-54, and (2/3) * 100 the double
    4691249611844266 * 2^-46, which [toFixed(1)] prints as 66.7. *)
Example binary64_sample_values :
  div (of_Z 1) (of_Z 3) = S754_finite false 6004799503160661 (-54)
  /\ mul (div (of_Z 2) (of_Z 3)) (of_Z 100)
     = S754_finite false 4691249611844266 (-46)
  /\ tenths 4691249611844266 (-46) = 667.
Proof. repeat split; vm_compute; reflexivity. Qed.

(** The percentage the summary prints, for a score between 0 and the
    number of questions: a number of tenths nearest to [score / total * 100]. *)
Lemma percentageText_rounded (score total : Z) :
  0 <= score <= total -> 0 < total < 2 ^ 32 ->
  exists n, percentageText score total = fixed1 n
            /\ rounded_percentage score total n.
Proof.
  intros Hscore Htotal. unfold percentageText, rounded_percentage.
  rewrite decide_True by lia.
  destruct (Z.eq_dec score 0) as [->|Hpos].
  - destruct (of_Z_finite total) as (mt & -> & _);
      [assert (2 ^ 32 < 2 ^ 53) by (now vm_compute); lia|].
    exists 0. split; [reflexivity|lia].
  - destruct (percentage_faithful score total) as (m & e & -> & He & Hval);
      [lia..|].
    exists (tenths m e). split; [reflexivity|].
    apply tenths_rounded; [lia..|done].
Qed.

(** ** The mock exam: results *)

Lemma answerOrSentinel_default (answers : list string) (i : nat) :
  Forall (fun a => a <> EmptyString) answers ->
  answerOrSentinel (answers !! i) = default noAnswer (answers !! i).
Proof.
  intros Hne. destruct (answers !! i) as [a|] eqn:Hi; [|reflexivity].
  cbn. destruct a; [|reflexivity].
  rewrite Forall_lookup in Hne. now specialize (Hne _ _ Hi).
Qed.

Lemma resultEntry_printIncorrect (answers : list string) (i : nat)
  (q : MockQuestion) :
  Forall (fun a => a <> EmptyString) answers ->
  resultEntry q (Z.of_nat i) (answers !! i)
  = printIncorrect (incorrectAnswer answers i q).
Proof.
  intros Hne. unfold resultEntry, printIncorrect, incorrectAnswer. cbn.
  now rewrite answerOrSentinel_default.
Qed.

(** The loop over the questions [qs], which are the questions of [Q] from
    index [k] on: the score grows by the number of correct indices, the
    results by the records of the incorrect ones, in order. *)
Lemma grade_from (Q : list MockQuestion) (A : list string)
  (qs : list MockQuestion) (k : nat) (score : Z) (results : list string) :
  Forall (fun a => a <> EmptyString) A ->
  (forall j, Q !! (k + j)%nat = qs !! j) ->
  grade qs (Z.of_nat k) A score results
  = ( score + Z.of_nat (length (filter (correct_at Q A) (seq k (length qs)))),
      results
      ++ map printIncorrect
           (omap (fun i => incorrectAnswer A i <$> Q !! i)
              (filter (fun i => ~ correct_at Q A i) (seq k (length qs)))) ).
Proof.
  intros Hne. revert k score results.
  induction qs as [|q rest IH]; intros k score results HQ.
  - cbn. now rewrite Z.add_0_r, app_nil_r.
  - assert (Hk : Q !! k = Some q) by (rewrite <- (Nat.add_0_r k) at 1; apply HQ).
    assert (Hrest : forall j, Q !! (S k + j)%nat = rest !! j).
    { intros j. replace (S k + j)%nat with (k + S j)%nat by lia.
      now rewrite HQ. }
    cbn [grade length seq]. rewrite at_index_nat.
    replace (Z.of_nat k + 1) with (Z.of_nat (S k)) by lia.
    destruct (decide (A !! k = Some (letterText (correctAnswer q)))) as [Hc|Hc].
    + assert (Hck : correct_at Q A k) by (unfold correct_at; now rewrite Hk).
      rewrite (IH (S k) _ _ Hrest).
      rewrite filter_cons_True by done.
      rewrite filter_cons_False by (intros Hn; now apply Hn).
      cbn [length]. f_equal. lia.
    + assert (Hck : ~ correct_at Q A k) by (unfold correct_at; now rewrite Hk).
      rewrite (IH (S k) _ _ Hrest).
      rewrite filter_cons_False by done.
      rewrite filter_cons_True by done.
      cbn [omap list_omap]. rewrite Hk. cbn [fmap option_fmap option_map map].
      rewrite <- app_assoc. cbn [app].
      now rewrite resultEntry_printIncorrect.
Qed.

Lemma grade_all (Q : list MockQuestion) (A : list string) :
  Forall (fun a => a <> EmptyString) A ->
  grade Q 0 A 0 []
  = ( Z.of_nat (length (correct_indices Q A)),
      map printIncorrect (incorrectAnswers Q A) ).
Proof.
  intros Hne. exact (grade_from Q A Q 0 0 [] Hne (fun j => eq_refl)).
Qed.

Lemma summaryText_reportText (score total : Z) (percentage : string)
  (incorrect : list IncorrectAnswer) :
  summaryText score total percentage (map printIncorrect incorrect)
  = reportText score total percentage incorrect.
Proof. now destruct incorrect. Qed.

(** C6. For every completed mock exam with questions Q and answers A (each
    answer a letter, so none is the empty text; Q shorter than 2^32, as
    every array is), the report that is appended to the transcript reads:
    the heading, then as score the number of indices i with
    A[i] = Q[i].correctAnswer, out of |Q|; in brackets the percentage,
    which is the numeral with one decimal of score / |Q| * 100 rounded to
    one decimal place, and 0 when |Q| = 0; then, for each incorrect index
    in the order of the questions, the number and topic of the question,
    the learner's answer (or No Answer when there is none) and the letter
    and the text of the correct option.  The session ends in
    MOCK_EXAM_COMPLETED. *)
Theorem finishMockExam_reports_score_percentage_and_incorrect_answers
  (exam : MockExam) (st : AppState) :
  Forall (fun a => a <> EmptyString) (answers exam) ->
  Z.of_nat (length (questions exam)) < 2 ^ 32 ->
  let Q := questions exam in
  let A := answers exam in
  let score := Z.of_nat (length (correct_indices Q A)) in
  let total := Z.of_nat (length Q) in
  let st' := fst (finishMockExam exam st) in
  exists percentage,
    messages st'
    = messages st
      ++ [ says system
             (reportText score total percentage (incorrectAnswers Q A)) ]
    /\ (total = 0 -> percentage = "0")
    /\ (0 < total ->
          exists n, percentage = oneDecimal n
                    /\ rounded_percentage score total n)
    /\ appStatus st' = MOCK_EXAM_COMPLETED
    /\ snd (finishMockExam exam st) = inr tt.
Proof.
  intros Hne Hlen. cbv zeta.
  assert (Hscore : 0 <= Z.of_nat (length (correct_indices (questions exam)
                                             (answers exam)))
                   <= Z.of_nat (length (questions exam))).
  { unfold correct_indices.
    pose proof (length_filter (correct_at (questions exam) (answers exam))
                  (seq 0 (length (questions exam)))) as Hle.
    rewrite length_seq in Hle. lia. }
  exists (percentageText
            (Z.of_nat (length (correct_indices (questions exam) (answers exam))))
            (Z.of_nat (length (questions exam)))).
  unfold finishMockExam. rewrite (grade_all _ _ Hne). run_handler.
  rewrite summaryText_reportText.
  split; [reflexivity|]. split; [|split; [|done]].
  - intros ->. reflexivity.
  - intros Htotal. apply percentageText_rounded; [done | lia].
Qed.

(** Three questions with correct answers A, B, C, answered A, C, C: the
    score is 2 out of 3, the percentage a numeral with one decimal next to
    200 / 3, and the second answer is listed. *)
Lemma finishMockExam_reports_score_percentage_and_incorrect_answers_witness :
  let exam := {| questions := sampleQuestions; currentQuestionIndex := 3;
                 answers := ["A"; "C"; "C"] |} in
  exists percentage,
    messages (fst (finishMockExam exam (inMockExam sampleQuestions 2 ["A"; "C"])))
    = [ says system
          (reportText 2 3 percentage
             [ {| questionNumber := 2; questionTopic := "Dependents";
                  yourAnswer := "C"; correctLetter := B;
                  correctText := "Schedule A" |} ]) ]
    /\ (3 = 0 -> percentage = "0")
    /\ (0 < 3 ->
          exists n, percentage = oneDecimal n /\ rounded_percentage 2 3 n)
    /\ appStatus (fst (finishMockExam exam
                         (inMockExam sampleQuestions 2 ["A"; "C"])))
       = MOCK_EXAM_COMPLETED
    /\ snd (finishMockExam exam (inMockExam sampleQuestions 2 ["A"; "C"]))
       = inr tt.
Proof.
  exact (finishMockExam_reports_score_percentage_and_incorrect_answers
           {| questions := sampleQuestions; currentQuestionIndex := 3;
              answers := ["A"; "C"; "C"] |}
           (inMockExam sampleQuestions 2 ["A"; "C"])
           ltac:(repeat constructor; discriminate)
           ltac:(vm_compute; reflexivity)).
Defined.

(** The summary of that exam, as the program prints it. *)
Example finishMockExam_sample_percentage :
  percentageText 2 3 = "66.7" /\ percentageText 0 0 = "0".
Proof. split; vm_compute; reflexivity. Qed.

Example finishMockExam_sample_report :
  let exam := {| questions := sampleQuestions; currentQuestionIndex := 3;
                 answers := ["A"; "C"; "C"] |} in
  text <$> last (messages (fst (finishMockExam exam
                                  (inMockExam sampleQuestions 2 ["A"; "C"]))))
  = Some ("**Mock Exam Completed!**" +:+ nl +:+ nl
          +:+ "- **Score:** 2 out of 3 (66.7%)" +:+ nl +:+ nl
          +:+ "**Review your incorrect answers:**" +:+ nl +:+ nl
          +:+ "**Question 2 (Topic: Dependents)**" +:+ nl
          +:+ "- Your Answer: C" +:+ nl
          +:+ "- Correct Answer: B: Schedule A").
Proof. vm_compute. reflexivity. Qed.

(** Every answer the mock exam records is one of the four letters, so none
    is the empty text: the hypothesis of the theorem above holds in every
    session. *)
Lemma handleMockAnswer_records_letters (st : AppState) (exam exam' : MockExam)
  (answer : string) :
  mockExam st = Some exam ->
  mockExam (fst (handleMockAnswer answer st)) = Some exam' ->
  answers exam' = answers exam
  \/ exists c, answers exam' = answers exam ++ [ letterText c ].
Proof.
  intros Hexam. unfold handleMockAnswer. rewrite Hexam.
  destruct (includes _ _) eqn:Hletter; cbn [negb].
  - apply bool_decide_eq_true in Hletter.
    assert (Hc : exists c, toUpperCase (trim answer) = letterText c).
    { repeat (apply elem_of_cons in Hletter as [->|Hletter]);
        [now exists A | now exists B | now exists C | now exists D |].
      now apply elem_of_nil in Hletter. }
    destruct Hc as [c Hc]. rewrite Hc. run_handler.
    destruct (decide _).
    + destruct (element _ _); cbn; intros [= <-]; right; now exists c.
    + unfold finishMockExam. destruct (grade _ _ _ _ _). run_handler.
      intros [= <-]. right. now exists c.
  - cbn. rewrite Hexam. intros [= <-]. now left.
Qed.

(** * Further properties *)

Import GeminiService Components Session.

(** ** The scenario response *)

Lemma nonEmptyString_Some (v : option Json.json) (s : string) :
  nonEmptyString v = Some s -> v = Some (Json.JString s) /\ s <> EmptyString.
Proof.
  destruct v as [[| | | |[|c rest]| |]|]; cbn; try discriminate.
  intros [= <-]. split; [reflexivity | discriminate].
Qed.

(** X1.  [generateScenario] only returns a scenario whose two texts are not
    empty, read from the [scenario] and [question] string properties of the
    object that the response, fence removed, parses to. *)
Theorem generateScenario_returns_nonempty_texts
  (JSON_parse : string -> option Json.json) (responseText : option string)
  (result : Scenario) :
  generateScenario_response JSON_parse responseText = inr result ->
  scenario result <> EmptyString /\ question result <> EmptyString
  /\ exists text fields,
       responseText = Some text
       /\ JSON_parse (stripFence (trim text)) = Some (Json.JObject fields)
       /\ Json.get_field "scenario" fields = Some (Json.JString (scenario result))
       /\ Json.get_field "question" fields = Some (Json.JString (question result)).
Proof.
  unfold generateScenario_response, generateScenario_try.
  destruct responseText as [[|c text]|]; try discriminate.
  destruct (JSON_parse _) as [[| | | | | |fields]|] eqn:Hparse; try discriminate.
  destruct (nonEmptyString (Json.get_field "scenario" fields)) as [s|] eqn:Hs;
    [|discriminate].
  destruct (nonEmptyString (Json.get_field "question" fields)) as [q|] eqn:Hq;
    [|discriminate].
  intros [= <-]. cbn.
  apply nonEmptyString_Some in Hs as [Hs Hs'], Hq as [Hq Hq'].
  repeat split; [done..|]. now exists (String c text), fields.
Qed.

Lemma generateScenario_returns_nonempty_texts_witness :
  let parse := fun s =>
    if decide (s = "{}") then
      Some (Json.JObject [ ("scenario", Json.JString "Jane is single.");
                           ("question", Json.JString "Which status?") ])
    else None in
  let result := {| scenario := "Jane is single."; question := "Which status?" |} in
  generateScenario_response parse (Some "```json {}```") = inr result
  /\ scenario result <> EmptyString /\ question result <> EmptyString.
Proof.
  intros parse result.
  destruct (generateScenario_returns_nonempty_texts parse
              (Some "```json {}```") result eq_refl) as (Hs & Hq & _).
  exact (conj eq_refl (conj Hs Hq)).
Defined.

(** X2.  Whatever goes wrong with a response that is not empty (it does not
    parse, it is [null], it is not an object, a text is missing, empty or
    not a string), [generateScenario] fails with the one message of its
    [catch] block; the malformed-response error of the [try] block never
    leaves the function.  An empty response fails with its own message. *)
Theorem generateScenario_failure_messages
  (JSON_parse : string -> option Json.json) (responseText : option string)
  (error : thrown) :
  generateScenario_response JSON_parse responseText = inl error ->
  error = match responseText with
          | None | Some EmptyString => scenarioEmptyError
          | Some _ => scenarioInvalidJsonError
          end
  /\ error <> scenarioMalformedError.
Proof.
  unfold generateScenario_response.
  destruct responseText as [[|c text]|].
  - intros [= <-]. split; [reflexivity | discriminate].
  - destruct (generateScenario_try _ _); [|discriminate].
    intros [= <-]. split; [reflexivity | discriminate].
  - intros [= <-]. split; [reflexivity | discriminate].
Qed.

Lemma generateScenario_failure_messages_witness :
  generateScenario_response parse_empty_object (Some "{}")
  = inl scenarioInvalidJsonError
  /\ scenarioInvalidJsonError <> scenarioMalformedError.
Proof.
  exact (conj eq_refl
           (proj2 (generateScenario_failure_messages parse_empty_object
                     (Some "{}") scenarioInvalidJsonError eq_refl))).
Defined.

(** ** The code fence *)

Lemma strip_prefix_app (p s : string) : strip_prefix p (p +:+ s) = Some s.
Proof.
  induction p as [|c p IH]; [now destruct s|].
  change (String c p +:+ s) with (String c (p +:+ s)).
  cbn [strip_prefix]. now rewrite decide_True.
Qed.

Lemma append_length (a b : string) :
  String.length (a +:+ b) = (String.length a + String.length b)%nat.
Proof.
  induction a as [|c a IH]; [reflexivity|].
  change (S (String.length (a +:+ b))
          = S (String.length a + String.length b)).
  now rewrite IH.
Qed.

Lemma strip_suffix_app (suffix body : string) :
  strip_suffix suffix (body +:+ suffix) = Some body.
Proof.
  induction body as [|c body IH].
  - change (EmptyString +:+ suffix) with suffix.
    destruct suffix; cbn [strip_suffix]; now rewrite decide_True.
  - change (String c body +:+ suffix) with (String c (body +:+ suffix)).
    cbn [strip_suffix]. rewrite decide_False.
    + now rewrite IH.
    + intros H. apply (f_equal String.length) in H.
      cbn [String.length] in H. rewrite append_length in H. lia.
Qed.

(** *** White space *)

Lemma string_length_ind (P : string -> Prop) :
  (forall s, (forall t, (String.length t < String.length s)%nat -> P t) -> P s) ->
  forall s, P s.
Proof.
  intros H s. remember (String.length s) as n eqn:Hn. revert s Hn.
  induction n as [n IH] using lt_wf_ind. intros s ->. apply H.
  intros t Ht. exact (IH _ Ht t eq_refl).
Qed.

(** [trimStart] removes white space characters as long as there is one in
    front. *)
Lemma trimStart_eq (s : string) :
  trimStart s
  = match strip_space s with Some rest => trimStart rest | None => s end.
Proof.
  destruct s as [|c1 [|c2 [|c3 rest]]]; cbn [trimStart strip_space];
    [done|destruct (is_space c1); done| |].
  - destruct (is_space c1); [done|]. destruct (is_space2 c1 c2); done.
  - destruct (is_space c1); [done|]. destruct (is_space2 c1 c2); [done|].
    destruct (is_space3 c1 c2 c3); done.
Qed.

Lemma strip_space_length (s rest : string) :
  strip_space s = Some rest -> (String.length rest < String.length s)%nat.
Proof.
  destruct s as [|c1 [|c2 [|c3 s]]]; cbn [strip_space]; [done| | |].
  - destruct (is_space c1); [|done]. intros [= <-]. cbn. lia.
  - destruct (is_space c1); [intros [= <-]; cbn; lia|].
    destruct (is_space2 c1 c2); [|done]. intros [= <-]. cbn. lia.
  - destruct (is_space c1); [intros [= <-]; cbn; lia|].
    destruct (is_space2 c1 c2); [intros [= <-]; cbn; lia|].
    destruct (is_space3 c1 c2 c3); [|done]. intros [= <-]. cbn. lia.
Qed.

Lemma append_cons (c : ascii) (s more : string) :
  String c s +:+ more = String c (s +:+ more).
Proof. reflexivity. Qed.

Lemma append_nil (more : string) : EmptyString +:+ more = more.
Proof. reflexivity. Qed.

Lemma strip_space_app (s rest more : string) :
  strip_space s = Some rest -> strip_space (s +:+ more) = Some (rest +:+ more).
Proof.
  destruct s as [|c1 [|c2 [|c3 s]]]; rewrite ?append_cons, ?append_nil;
    cbn [strip_space]; [done| | |].
  - destruct (is_space c1); [|done]. now intros [= <-].
  - destruct (is_space c1); [now intros [= <-]|].
    destruct (is_space2 c1 c2); [|done]. now intros [= <-].
  - destruct (is_space c1); [now intros [= <-]|].
    destruct (is_space2 c1 c2); [now intros [= <-]|].
    destruct (is_space3 c1 c2 c3); [|done]. now intros [= <-].
Qed.

Lemma trimStart_length (s : string) :
  (String.length (trimStart s) <= String.length s)%nat.
Proof.
  induction s as [s IH] using string_length_ind. rewrite trimStart_eq.
  destruct (strip_space s) as [rest|] eqn:Hs; [|done].
  apply strip_space_length in Hs. specialize (IH rest Hs). lia.
Qed.

(** What [trimStart] leaves does not start with white space. *)
Lemma strip_space_trimStart (s : string) : strip_space (trimStart s) = None.
Proof.
  induction s as [s IH] using string_length_ind. rewrite trimStart_eq.
  destruct (strip_space s) as [rest|] eqn:Hs; [|done].
  apply IH. now apply strip_space_length.
Qed.

Lemma trimStart_fixed (s : string) : trimStart s = s -> strip_space s = None.
Proof. intros <-. apply strip_space_trimStart. Qed.

Lemma trimStart_idempotent (s : string) : trimStart (trimStart s) = trimStart s.
Proof. now rewrite (trimStart_eq (trimStart s)), strip_space_trimStart. Qed.

Lemma trimStart_app_space (spaces more : string) :
  trimStart spaces = EmptyString ->
  trimStart (spaces +:+ more) = trimStart more.
Proof.
  induction spaces as [spaces IH] using string_length_ind.
  rewrite (trimStart_eq spaces).
  destruct (strip_space spaces) as [rest|] eqn:Hs.
  - intros Hrest. rewrite trimStart_eq, (strip_space_app _ _ more Hs).
    apply IH; [now apply strip_space_length|done].
  - now intros ->.
Qed.

Lemma trimStart_app (spaces body : string) :
  trimStart spaces = EmptyString -> trimStart body = body ->
  trimStart (spaces +:+ body) = body.
Proof. intros Hspaces Hbody. now rewrite trimStart_app_space. Qed.

(** No white space character has the byte of the fence in it. *)
Lemma is_space3_fence (c1 c2 c3 : ascii) :
  c2 = "`"%char \/ c3 = "`"%char -> is_space3 c1 c2 c3 = false.
Proof.
  intros [-> | ->]; unfold is_space3; change (N_of_ascii "`"%char) with 96%N;
    cbv zeta;
    repeat match goal with
           | |- context [(N_of_ascii ?c =? ?y)%N] =>
               destruct (N_of_ascii c =? y)%N
           | |- context [(?x <=? N_of_ascii ?c)%N] =>
               destruct (x <=? N_of_ascii c)%N
           | |- context [(N_of_ascii ?c <=? ?y)%N] =>
               destruct (N_of_ascii c <=? y)%N
           end; reflexivity.
Qed.

Lemma strip_space_before_fence (body rest : string) :
  strip_space body = None ->
  strip_space (body +:+ String "`" rest) = None.
Proof.
  destruct body as [|c1 [|c2 [|c3 body]]];
    rewrite ?append_cons, ?append_nil; cbn [strip_space].
  - intros _. now destruct rest as [|c2 [|c3 rest]].
  - destruct (is_space c1) eqn:H1; [done|]. intros _.
    unfold is_space2. change (N_of_ascii "`"%char) with 96%N.
    change (96 =? 160)%N with false. rewrite andb_false_r.
    destruct rest as [|c3 rest]; [done|].
    now rewrite is_space3_fence by auto.
  - destruct (is_space c1) eqn:H1; [done|].
    destruct (is_space2 c1 c2) eqn:H2; [done|]. intros _.
    now rewrite is_space3_fence by auto.
  - destruct (is_space c1); [done|].
    destruct (is_space2 c1 c2); [done|]. now destruct (is_space3 c1 c2 c3).
Qed.

Lemma trimStart_before_fence (body rest : string) :
  trimStart body = body ->
  trimStart (body +:+ String "`" rest) = body +:+ String "`" rest.
Proof.
  intros Hbody%trimStart_fixed.
  now rewrite trimStart_eq, strip_space_before_fence.
Qed.

(** [s] is what [trimEnd] keeps of it, followed by white space only. *)
Lemma trimEnd_split (s : string) :
  exists spaces, s = trimEnd s +:+ spaces /\ trimStart spaces = EmptyString.
Proof.
  induction s as [|c s (spaces & IH & Hspaces)]; [now exists EmptyString|].
  cbn [trimEnd]. unfold all_space.
  destruct (trimStart (String c s)) eqn:Hall.
  - now exists (String c s).
  - exists spaces. split; [|done].
    change (String c (trimEnd s) +:+ spaces)
      with (String c (trimEnd s +:+ spaces)).
    now rewrite <- IH.
Qed.

Lemma trimEnd_idempotent (s : string) : trimEnd (trimEnd s) = trimEnd s.
Proof.
  induction s as [|c s IH]; [done|]. cbn [trimEnd]. unfold all_space.
  destruct (trimStart (String c s)) as [|d rest] eqn:Hall; [done|].
  cbn [trimEnd]. unfold all_space.
  destruct (trimStart (String c (trimEnd s))) eqn:Hkept; [|now rewrite IH].
  destruct (trimEnd_split s) as (spaces & Hs & Hspaces).
  rewrite Hs in Hall at 1.
  change (String c (trimEnd s +:+ spaces))
    with (String c (trimEnd s) +:+ spaces) in Hall.
  rewrite (trimStart_app_space _ _ Hkept), Hspaces in Hall. discriminate.
Qed.

Lemma trimEnd_keeps_start (s : string) :
  trimStart s = s -> trimStart (trimEnd s) = trimEnd s.
Proof.
  intros Hs%trimStart_fixed. rewrite trimStart_eq.
  destruct (strip_space (trimEnd s)) as [rest|] eqn:Hkept; [|done].
  destruct (trimEnd_split s) as (spaces & Heq & _).
  rewrite Heq, (strip_space_app _ _ spaces Hkept) in Hs. discriminate.
Qed.

Lemma trim_idempotent (s : string) : trim (trim s) = trim s.
Proof.
  unfold trim.
  rewrite (trimEnd_keeps_start (trimStart s)) by apply trimStart_idempotent.
  apply trimEnd_idempotent.
Qed.

(** X3.  A response in a json code fence is unwrapped: the opening fence, the
    white space after it and the closing fence are removed, and the body,
    which does not start with white space, is kept as it is.  (White space
    is what [\s] matches.) *)
Theorem stripFence_unwraps (spaces body : string) :
  trimStart spaces = EmptyString -> trimStart body = body ->
  stripFence ("```json" +:+ spaces +:+ body +:+ "```") = body.
Proof.
  intros Hspaces Hbody. unfold stripFence.
  rewrite strip_prefix_app.
  rewrite (trimStart_app spaces (body +:+ "```") Hspaces)
    by (now apply trimStart_before_fence).
  now rewrite strip_suffix_app.
Qed.

Lemma stripFence_unwraps_witness :
  stripFence ("```json" +:+ nl +:+ "{ }" +:+ "```") = "{ }".
Proof.
  exact (stripFence_unwraps nl "{ }" eq_refl eq_refl).
Defined.

(** ** Starting a lesson *)

Lemma getIrsReferences_fields
  (searchOutcome : thrown + option (list GroundingChunk)) :
  Forall (fun r => title r <> EmptyString /\ uri r <> EmptyString)
    (getIrsReferences searchOutcome).
Proof.
  unfold getIrsReferences. destruct searchOutcome as [e|[chunks|]]; [done| |done].
  apply Forall_forall. intros r Hr.
  apply list_elem_of_omap in Hr as (chunk & _ & Hchunk).
  unfold reference_of in Hchunk.
  destruct (web chunk) as [w|]; [|discriminate].
  destruct (web_title w) as [[|a t]|]; try discriminate.
  destruct (web_uri w) as [[|b u]|]; try discriminate.
  injection Hchunk as <-. split; discriminate.
Qed.

Section StartLesson.

Variable service : Collaborators.
Variable search : Lesson -> thrown + option (list GroundingChunk).
Variables (st : AppState) (l : LessonProgress).
Hypothesis Hcurrent : at_index (lessons st) (currentLessonIndex st) = Some l.

(** X4.  When the generator returns a scenario, [startLesson] stores it and
    waits for the answer, whatever the reference search does (it may throw
    or find nothing): the transcript gets the announcement, the scenario,
    the study prompt and a guidance message, which carries either
    references that all have a title and a uri or the fallback text.  One
    generation request is made, without previous scenario and not as a
    twist; the lessons are not touched. *)
Theorem startLesson_stores_scenario (scenarioData : Scenario) :
  generateScenario_outcome service (lesson l) (passedLessons (lessons st))
    None false = inr scenarioData ->
  let st' := fst (startLesson service search st) in
  scenarioRef st' = Some scenarioData
  /\ appStatus st' = AWAITING_ANSWER
  /\ inputDisabled st' = false
  /\ lessons st' = lessons st
  /\ requests st'
     = requests st
       ++ [ GenerateScenario (lesson l) (passedLessons (lessons st)) None false ]
  /\ (exists guidance,
        messages st'
        = messages st
          ++ [ says system (startingText (lesson l));
               says ai (scenarioText scenarioData);
               says system (studyPromptText (lesson l));
               guidance ]
        /\ sender guidance = system
        /\ match msg_references guidance with
           | Some refs =>
               text guidance = guidanceText /\ refs <> []
               /\ Forall (fun r => title r <> EmptyString
                                   /\ uri r <> EmptyString) refs
           | None => text guidance = noGuidanceText
           end)
  /\ snd (startLesson service search st) = inr tt.
Proof.
  intros Hgenerated. unfold startLesson. rewrite Hcurrent. run_handler.
  rewrite Hgenerated. cbn.
  pose proof (getIrsReferences_fields (search (lesson l))) as Hfields.
  destruct (getIrsReferences (search (lesson l))) as [|r refs] eqn:Hrefs; cbn.
  - split_and!; try done.
    eexists. split; [now rewrite <- !app_assoc|]. done.
  - split_and!; try done.
    eexists. split; [now rewrite <- !app_assoc|]. done.
Qed.

(** X5.  When the generation throws, [startLesson] reports the error and goes
    back to IDLE: no scenario is stored, the lessons are not touched, and
    the input stays disabled. *)
Theorem startLesson_failure_returns_to_idle (error : thrown) :
  generateScenario_outcome service (lesson l) (passedLessons (lessons st))
    None false = inl error ->
  let st' := fst (startLesson service search st) in
  appStatus st' = IDLE
  /\ scenarioRef st' = scenarioRef st
  /\ lessons st' = lessons st
  /\ inputDisabled st' = true
  /\ messages st'
     = messages st
       ++ [ says system (startingText (lesson l));
            says system (lessonErrorText error) ]
  /\ snd (startLesson service search st) = inr tt.
Proof.
  intros Hthrows. unfold startLesson. rewrite Hcurrent. run_handler.
  rewrite Hthrows. cbn. split_and!; try done. now rewrite <- app_assoc.
Qed.

End StartLesson.

Lemma startLesson_stores_scenario_witness :
  let st := initialState sampleLessons in
  let st' := fst (startLesson sampleService (fun _ => inl NotAnError)
                    (fst (setCurrentLessonIndex 5 st))) in
  scenarioRef st' = Some originalScenario /\ appStatus st' = AWAITING_ANSWER.
Proof.
  destruct (startLesson_stores_scenario sampleService (fun _ => inl NotAnError)
              (fst (setCurrentLessonIndex 5 (initialState sampleLessons)))
              (progress active 0 1 (sampleLesson 6 "Itemized Deductions"))
              eq_refl originalScenario eq_refl)
    as (Hstored & Hstatus & _).
  exact (conj Hstored Hstatus).
Defined.

Lemma startLesson_failure_returns_to_idle_witness :
  let st := fst (setCurrentLessonIndex 5 (initialState sampleLessons)) in
  let st' := fst (startLesson failingGenerator (fun _ => inr None) st) in
  appStatus st' = IDLE /\ scenarioRef st' = None.
Proof.
  destruct (startLesson_failure_returns_to_idle failingGenerator
              (fun _ => inr None)
              (fst (setCurrentLessonIndex 5 (initialState sampleLessons)))
              (progress active 0 1 (sampleLesson 6 "Itemized Deductions"))
              eq_refl
              (Error "Failed to generate scenario: AI response was malformed.")
              eq_refl)
    as (Hstatus & Hstored & _).
  exact (conj Hstatus Hstored).
Defined.

(** ** An evaluation that fails *)

(** X7.  When the evaluator throws, [handleSendMessage] reports the error after
    the learner's message and waits for an answer again: the scenario is
    kept, the lessons are not touched, the input is enabled, and the only
    request made is the evaluation. *)
Theorem evaluation_failure_keeps_scenario
  (service : Collaborators) (st : AppState) (userMessage : string)
  (current : Scenario) (error : thrown) :
  appStatus st <> MOCK_EXAM_IN_PROGRESS ->
  scenarioRef st = Some current ->
  evaluateAnswer_outcome service (scenario current) userMessage
    (passedLessons (lessons st)) = inl error ->
  let st' := fst (handleSendMessage service userMessage st) in
  messages st'
    = messages st
      ++ [ says user userMessage; says system (evaluationErrorText error) ]
  /\ appStatus st' = AWAITING_ANSWER
  /\ inputDisabled st' = false
  /\ scenarioRef st' = Some current
  /\ lessons st' = lessons st
  /\ requests st'
     = requests st
       ++ [ EvaluateAnswer (scenario current) userMessage
              (passedLessons (lessons st)) ]
  /\ snd (handleSendMessage service userMessage st) = inr tt.
Proof.
  intros Hnot_mock Hscenario Hthrows. unfold handleSendMessage.
  rewrite decide_False by done. rewrite Hscenario. run_handler.
  rewrite Hscenario, Hthrows. cbn. split_and!; try done.
  now rewrite <- app_assoc.
Qed.

Lemma evaluation_failure_keeps_scenario_witness :
  let service :=
    {| generateScenario_outcome := generateScenario_outcome sampleService;
       evaluateAnswer_outcome := fun _ _ _ =>
         inl (Error "Failed to evaluate answer: The AI returned an empty response.");
       generateMockExamQuestions_outcome :=
         generateMockExamQuestions_outcome sampleService |} in
  let st' := fst (handleSendMessage service "good"
                    (awaitingAnswer sampleLessons 5 originalScenario)) in
  appStatus st' = AWAITING_ANSWER /\ scenarioRef st' = Some originalScenario
  /\ lessons st' = sampleLessons.
Proof.
  intros service.
  destruct (evaluation_failure_keeps_scenario service
              (awaitingAnswer sampleLessons 5 originalScenario) "good"
              originalScenario
              (Error "Failed to evaluate answer: The AI returned an empty response.")
              ltac:(discriminate) eq_refl eq_refl)
    as (_ & Hstatus & _ & Hstored & Hlessons & _).
  exact (conj Hstatus (conj Hstored Hlessons)).
Defined.

(** ** The mock exam: how it starts, what it leaves alone *)

Section StartMockExam.

Variable service : Collaborators.
Variable st : AppState.
Hypothesis Henough : 5 <= Z.of_nat (length (passedLessons (lessons st))).

(** X8.  With questions from the generator, the mock exam starts at the first
    question with no answers; the transcript is cleared and shows the
    first question, and the input is enabled. *)
Theorem handleStartMockExam_starts_at_first_question
  (first : MockQuestion) (others : list MockQuestion) :
  generateMockExamQuestions_outcome service (passedLessons (lessons st))
    (questionCount (passedLessons (lessons st))) = inr (first :: others) ->
  let st' := fst (handleStartMockExam service st) in
  mockExam st'
    = Some {| questions := first :: others; currentQuestionIndex := 0;
              answers := [] |}
  /\ appStatus st' = MOCK_EXAM_IN_PROGRESS
  /\ inputDisabled st' = false
  /\ messages st'
     = [ says system mockExamGeneratingText;
         says ai (mockQuestionText first 0
                    (Z.of_nat (length (first :: others)))) ]
  /\ snd (handleStartMockExam service st) = inr tt.
Proof.
  intros Hquestions. unfold handleStartMockExam.
  rewrite decide_False by lia. run_handler. rewrite Hquestions. done.
Qed.

(** X9.  Without questions (the generator throws, or returns none) no mock exam
    is started: the session goes to IDLE with the error in the transcript,
    the mock exam state is what it was, and the input stays disabled. *)
Theorem handleStartMockExam_failure_returns_to_idle :
  let outcome :=
    generateMockExamQuestions_outcome service (passedLessons (lessons st))
      (questionCount (passedLessons (lessons st))) in
  (forall first others, outcome <> inr (first :: others)) ->
  let st' := fst (handleStartMockExam service st) in
  appStatus st' = IDLE
  /\ mockExam st' = mockExam st
  /\ inputDisabled st' = true
  /\ messages st'
     = [ says system mockExamGeneratingText;
         says system
           (mockExamErrorText
              match outcome with
              | inl error => error
              | inr _ => Error "The generated exam had no questions."
              end) ]
  /\ snd (handleStartMockExam service st) = inr tt.
Proof.
  cbn zeta. intros Hnone. unfold handleStartMockExam.
  rewrite decide_False by lia. run_handler.
  destruct (generateMockExamQuestions_outcome service _ _)
    as [error|[|first others]]; [done..|].
  now destruct (Hnone first others).
Qed.

End StartMockExam.

Lemma handleStartMockExam_starts_at_first_question_witness :
  let st' := fst (handleStartMockExam sampleService (initialState sampleLessons)) in
  option_map currentQuestionIndex (mockExam st') = Some 0
  /\ appStatus st' = MOCK_EXAM_IN_PROGRESS.
Proof.
  destruct (handleStartMockExam_starts_at_first_question sampleService
              (initialState sampleLessons) ltac:(vm_compute; discriminate)
              (sampleQuestion "Filing Status" A)
              [ sampleQuestion "Dependents" B; sampleQuestion "Gross Income" C ]
              eq_refl)
    as (Hexam & Hstatus & _).
  exact (conj (f_equal (option_map currentQuestionIndex) Hexam) Hstatus).
Defined.

Lemma handleStartMockExam_failure_returns_to_idle_witness :
  let service :=
    {| generateScenario_outcome := generateScenario_outcome sampleService;
       evaluateAnswer_outcome := evaluateAnswer_outcome sampleService;
       generateMockExamQuestions_outcome := fun _ _ => inr [] |} in
  let st' := fst (handleStartMockExam service (initialState sampleLessons)) in
  appStatus st' = IDLE /\ mockExam st' = None.
Proof.
  intros service.
  destruct (handleStartMockExam_failure_returns_to_idle service
              (initialState sampleLessons) ltac:(vm_compute; discriminate)
              ltac:(intros first others; discriminate))
    as (Hstatus & Hexam & _).
  exact (conj Hstatus Hexam).
Defined.

Lemma finishMockExam_frame (exam : MockExam) (st : AppState) :
  let st' := fst (finishMockExam exam st) in
  lessons st' = lessons st
  /\ currentLessonIndex st' = currentLessonIndex st
  /\ scenarioRef st' = scenarioRef st
  /\ mockExam st' = mockExam st
  /\ requests st' = requests st
  /\ appStatus st' = MOCK_EXAM_COMPLETED
  /\ snd (finishMockExam exam st) = inr tt.
Proof.
  unfold finishMockExam. destruct (grade _ _ _ _ _). run_handler. done.
Qed.

Lemma handleMockAnswer_frame (answer : string) (st : AppState) :
  let st' := fst (handleMockAnswer answer st) in
  lessons st' = lessons st
  /\ currentLessonIndex st' = currentLessonIndex st
  /\ scenarioRef st' = scenarioRef st
  /\ requests st' = requests st.
Proof.
  unfold handleMockAnswer. destruct (mockExam st) as [exam|]; [|done].
  destruct (negb _); [done|]. run_handler.
  destruct (decide _).
  - destruct (element _ _); done.
  - match goal with
    | |- context [finishMockExam ?e ?s] =>
        destruct (finishMockExam_frame e s) as (H1 & H2 & H3 & _ & H4 & _)
    end.
    destruct (finishMockExam _ _) as [st' r]. cbn in *.
    now rewrite H1, H2, H3, H4.
Qed.

(** X10.  The mock exam never touches the lessons: starting it, answering its
    questions (while it is in progress) and leaving it change neither a
    progress record nor the lesson pointer nor the stored scenario. *)
Theorem mock_exam_leaves_lessons_alone
  (service : Collaborators) (st : AppState) (userMessage : string) :
  let untouched st' :=
    lessons st' = lessons st
    /\ currentLessonIndex st' = currentLessonIndex st
    /\ scenarioRef st' = scenarioRef st in
  untouched (fst (handleStartMockExam service st))
  /\ untouched (fst (handleExitMockExam st))
  /\ (appStatus st = MOCK_EXAM_IN_PROGRESS ->
        untouched (fst (handleSendMessage service userMessage st))).
Proof.
  cbn zeta. split; [|split].
  - unfold handleStartMockExam. destruct (decide _); [done|]. run_handler.
    destruct (generateMockExamQuestions_outcome service _ _)
      as [error|[|first others]]; done.
  - unfold handleExitMockExam. run_handler. done.
  - intros Hstatus. unfold handleSendMessage. rewrite decide_True by done.
    destruct (handleMockAnswer_frame userMessage st) as (H1 & H2 & H3 & _).
    done.
Qed.

(** An answer to the second sample question leaves the sample lessons and
    the pointer where they are. *)
Lemma mock_exam_leaves_lessons_alone_witness :
  let st := inMockExam sampleQuestions 1 ["A"] in
  let st' := fst (handleSendMessage sampleService "b" st) in
  lessons st' = sampleLessons /\ currentLessonIndex st' = 5.
Proof.
  destruct (mock_exam_leaves_lessons_alone sampleService
              (inMockExam sampleQuestions 1 ["A"]) "b")
    as (_ & _ & Hanswer).
  destruct (Hanswer eq_refl) as (Hlessons & Hpointer & _).
  exact (conj Hlessons Hpointer).
Defined.

(** ** The mock exam: from the first answer to the summary *)

Import Runs.

Lemma letterText_reads_as (c : Letter) : reads_as (letterText c) c.
Proof. now destruct c. Qed.

Lemma letterText_included (c : Letter) :
  includes ["A"; "B"; "C"; "D"] (letterText c) = true.
Proof. now destruct c. Qed.

Lemma letterText_not_empty (c : Letter) : letterText c <> EmptyString.
Proof. now destruct c. Qed.

Lemma finishMockExam_messages (exam : MockExam) (st : AppState) :
  Forall (fun a => a <> EmptyString) (answers exam) ->
  messages (fst (finishMockExam exam st))
  = messages st
    ++ [ says system (examSummary (questions exam) (answers exam)) ].
Proof.
  intros Hne. unfold finishMockExam. rewrite (grade_all _ _ Hne).
  run_handler. reflexivity.
Qed.

(** One accepted answer: it is recorded in upper case and the cursor moves
    on; the exam goes on while a question is left, and is completed with
    the summary otherwise. *)
Lemma mock_answer_accepted (service : Collaborators) (st : AppState)
  (Q : list MockQuestion) (given : list string) (t : string) (c : Letter) :
  appStatus st = MOCK_EXAM_IN_PROGRESS ->
  mockExam st
    = Some {| questions := Q;
              currentQuestionIndex := Z.of_nat (length given);
              answers := given |} ->
  Forall (fun a => a <> EmptyString) given ->
  reads_as t c ->
  let st' := fst (handleSendMessage service t st) in
  mockExam st'
    = Some {| questions := Q;
              currentQuestionIndex := Z.of_nat (length (given ++ [letterText c]));
              answers := given ++ [letterText c] |}
  /\ lessons st' = lessons st
  /\ if decide (length given + 1 < length Q)%nat
     then appStatus st' = MOCK_EXAM_IN_PROGRESS
     else appStatus st' = MOCK_EXAM_COMPLETED
          /\ last (messages st')
             = Some (says system (examSummary Q (given ++ [letterText c]))).
Proof.
  intros Hstatus Hexam Hgiven Hreads. unfold handleSendMessage.
  rewrite decide_True by done. unfold handleMockAnswer. rewrite Hexam.
  cbn [answers questions currentQuestionIndex].
  unfold reads_as in Hreads. rewrite Hreads, letterText_included.
  cbn [negb]. run_handler.
  replace (Z.of_nat (length (given ++ [letterText c])))
    with (Z.of_nat (length given) + 1) by (rewrite length_app; cbn; lia).
  destruct (decide (length given + 1 < length Q)%nat) as [Hmore|Hlast].
  - rewrite decide_True by lia.
    destruct (lookup_lt_is_Some_2 Q (length given + 1)) as [q Hq]; [lia|].
    assert (Hat : at_index Q (Z.of_nat (length given) + 1) = Some q).
    { replace (Z.of_nat (length given) + 1)
        with (Z.of_nat (length given + 1)) by lia.
      now rewrite at_index_nat. }
    rewrite (element_Some _ _ _ Hat). cbn. done.
  - rewrite decide_False by lia.
    match goal with
    | |- context [finishMockExam ?e ?s] =>
        pose proof (finishMockExam_frame e s) as (Hl & _ & _ & Hm & _ & Hs & _);
        pose proof (finishMockExam_messages e s) as Hmsg
    end.
    cbn [answers questions] in Hmsg.
    rewrite Hmsg by (apply Forall_app; split; [done|];
                     repeat constructor; apply letterText_not_empty).
    rewrite Hm, Hs, Hl. cbn. rewrite last_snoc. done.
Qed.

Section MockExamRun.

Variable service : Collaborators.
Variable search : Lesson -> thrown + option (list GroundingChunk).
Variable Q : list MockQuestion.

Lemma mock_run_from (ts : list string) (cs : list Letter) :
  Forall2 reads_as ts cs ->
  forall (given : list string) (st : AppState),
    appStatus st = MOCK_EXAM_IN_PROGRESS ->
    mockExam st
      = Some {| questions := Q;
                currentQuestionIndex := Z.of_nat (length given);
                answers := given |} ->
    Forall (fun a => a <> EmptyString) given ->
    (length given + length cs = length Q)%nat ->
    cs <> [] ->
    let st' := sendAll service search ts st in
    appStatus st' = MOCK_EXAM_COMPLETED
    /\ mockExam st'
       = Some {| questions := Q; currentQuestionIndex := Z.of_nat (length Q);
                 answers := given ++ map letterText cs |}
    /\ last (messages st')
       = Some (says system (examSummary Q (given ++ map letterText cs)))
    /\ lessons st' = lessons st.
Proof.
  induction 1 as [|t c ts cs Hreads Hrest IH];
    intros given st Hstatus Hexam Hgiven Hlen Hne; [done|].
  unfold sendAll. cbn [foldl].
  change (after service search (SendMessage t) st)
    with (fst (handleSendMessage service t st)).
  fold (sendAll service search ts (fst (handleSendMessage service t st))).
  destruct (mock_answer_accepted service st Q given t c
              Hstatus Hexam Hgiven Hreads) as (Hexam' & Hlessons' & Hstatus').
  set (st1 := fst (handleSendMessage service t st)) in *.
  destruct cs as [|c' cs].
  - inversion Hrest; subst. cbn [sendAll foldl map]. cbn in Hlen.
    rewrite decide_False in Hstatus' by lia.
    destruct Hstatus' as [Hdone Hlast].
    split_and!; try done.
    rewrite Hexam'. do 2 f_equal. rewrite length_app. cbn. lia.
  - cbn in Hlen. rewrite decide_True in Hstatus' by lia.
    destruct (IH (given ++ [letterText c]) st1 Hstatus' Hexam')
      as (H1 & H2 & H3 & H4).
    + apply Forall_app. split; [done|].
      repeat constructor. apply letterText_not_empty.
    + rewrite length_app. cbn. lia.
    + done.
    + rewrite <- app_assoc in H2, H3. rewrite H4. done.
Qed.

(** X11.  A mock exam that has just started is completed by exactly as many
    letters as it has questions, whatever their case and the white space
    around them: the answers are recorded in upper case, in order, and the
    last message is the summary of these answers. *)
Theorem mock_exam_completes_after_all_answers
  (ts : list string) (cs : list Letter) (st : AppState) :
  Forall2 reads_as ts cs ->
  length cs = length Q -> Q <> [] ->
  appStatus st = MOCK_EXAM_IN_PROGRESS ->
  mockExam st
    = Some {| questions := Q; currentQuestionIndex := 0; answers := [] |} ->
  let st' := sendAll service search ts st in
  appStatus st' = MOCK_EXAM_COMPLETED
  /\ mockExam st'
     = Some {| questions := Q; currentQuestionIndex := Z.of_nat (length Q);
               answers := map letterText cs |}
  /\ last (messages st')
     = Some (says system (examSummary Q (map letterText cs)))
  /\ lessons st' = lessons st.
Proof.
  intros Hreads Hlen HQ Hstatus Hexam.
  apply (mock_run_from ts cs Hreads [] st Hstatus Hexam); [done | done |].
  destruct cs; [destruct Q|]; done.
Qed.

End MockExamRun.

Lemma mock_exam_completes_after_all_answers_witness :
  let st := inMockExam sampleQuestions 0 [] in
  let st' := sendAll sampleService (fun _ => inr None) ["a"; " c "; "C"] st in
  appStatus st' = MOCK_EXAM_COMPLETED
  /\ option_map answers (mockExam st') = Some ["A"; "C"; "C"].
Proof.
  destruct (mock_exam_completes_after_all_answers sampleService
              (fun _ => inr None) sampleQuestions ["a"; " c "; "C"] [A; C; C]
              (inMockExam sampleQuestions 0 [])
              ltac:(repeat constructor) eq_refl ltac:(discriminate)
              eq_refl eq_refl)
    as (Hstatus & Hexam & _).
  exact (conj Hstatus (f_equal (option_map answers) Hexam)).
Defined.

(** ** The input box *)

(** X12.  Through the input box, an answer to a mock question that is not one of
    A, B, C, D after upper-casing never advances the exam: either nothing
    is sent (the text is blank or the input is disabled) and the state is
    the same, or the handler only appends the message that the answer is
    invalid.  (The box sends the text trimmed, so the handler's own
    trimming changes nothing.) *)
Theorem input_box_non_letter_is_rejected
  (service : Collaborators) (st : AppState) (inputValue : string) :
  appStatus st = MOCK_EXAM_IN_PROGRESS ->
  mockExam st <> None ->
  includes ["A"; "B"; "C"; "D"] (toUpperCase (trim inputValue)) = false ->
  let st' := fst (handleSend (handleSendMessage service) inputValue st) in
  (st' = st \/ only_appends [ says system invalidAnswerText ] st st')
  /\ mockExam st' = mockExam st
  /\ appStatus st' = MOCK_EXAM_IN_PROGRESS.
Proof.
  intros Hstatus Hexam Hinvalid. unfold handleSend.
  destruct (trim inputValue) as [|c rest] eqn:Htrim; [cbn; auto|].
  destruct (inputDisabled st); [cbn; auto|].
  unfold handleSendMessage. rewrite decide_True by done.
  unfold handleMockAnswer. destruct (mockExam st) as [exam|] eqn:Hsome; [|done].
  assert (trim (String c rest) = String c rest) as ->
    by (rewrite <- Htrim; apply trim_idempotent).
  rewrite Hinvalid. cbn.
  split; [right; reflexivity|]. now rewrite Hsome.
Qed.

Lemma input_box_non_letter_is_rejected_witness :
  let st := inMockExam sampleQuestions 1 ["A"] in
  let st' := fst (handleSend (handleSendMessage sampleService) " e " st) in
  mockExam st' = mockExam st /\ appStatus st' = MOCK_EXAM_IN_PROGRESS.
Proof.
  exact (proj2 (input_box_non_letter_is_rejected sampleService
                  (inMockExam sampleQuestions 1 ["A"]) " e "
                  eq_refl ltac:(discriminate) eq_refl)).
Defined.

(** ** Three passing answers *)

Lemma passedLessons_alter (f : LessonProgress -> LessonProgress)
  (ls : list LessonProgress) (i : nat) :
  (forall l, ls !! i = Some l -> status l <> passed /\ status (f l) <> passed) ->
  passedLessons (alter f i ls) = passedLessons ls.
Proof.
  unfold passedLessons. revert i.
  induction ls as [|x ls IH]; intros i Hi; [done|].
  destruct i as [|i]; cbn [alter list_alter].
  - destruct (Hi x eq_refl) as [Hx Hfx].
    now rewrite !filter_cons_False by done.
  - rewrite !filter_cons. rewrite (IH i); [done|].
    intros l Hl. now apply Hi.
Qed.

(** One passing answer before the second twist, when the generator
    returns the twist. *)
Lemma passing_answer_twist_step (service : Collaborators) (st : AppState)
  (userMessage : string) (current newScenarioData : Scenario)
  (evaluation : EvaluationResult) (l : LessonProgress) :
  appStatus st <> MOCK_EXAM_IN_PROGRESS ->
  scenarioRef st = Some current ->
  evaluateAnswer_outcome service (scenario current) userMessage
    (passedLessons (lessons st)) = inr evaluation ->
  90 <= default 0 (totalScore evaluation) ->
  at_index (lessons st) (currentLessonIndex st) = Some l ->
  twistsCompleted l < 2 ->
  generateScenario_outcome service (lesson l) (passedLessons (lessons st))
    (Some (scenario current)) true = inr newScenarioData ->
  let st' := fst (handleSendMessage service userMessage st) in
  lessons st'
    = alter (with_twistsCompleted (twistsCompleted l + 1))
        (Z.to_nat (currentLessonIndex st)) (lessons st)
  /\ currentLessonIndex st' = currentLessonIndex st
  /\ scenarioRef st' = Some newScenarioData
  /\ appStatus st' = AWAITING_ANSWER
  /\ requests st'
     = requests st
       ++ [ EvaluateAnswer (scenario current) userMessage
              (passedLessons (lessons st));
            GenerateScenario (lesson l) (passedLessons (lessons st))
              (Some (scenario current)) true ].
Proof.
  intros Hnot_mock Hscenario Hevaluation H90 Hl Htwists Hgenerated.
  unfold handleSendMessage.
  destruct (decide (appStatus st = MOCK_EXAM_IN_PROGRESS)) as [|_]; [done|].
  rewrite Hscenario. run_handler. rewrite ?Hscenario, ?Hevaluation. cbn.
  destruct (decide (90 <= default 0 (totalScore evaluation))); [|lia].
  run_handler. rewrite (element_Some _ _ _ Hl). cbn.
  destruct (decide (twistsCompleted l < 2)); [|lia].
  run_handler. rewrite (assign_at_Some _ _ _ _ Hl). cbn.
  rewrite Hgenerated. cbn. split_and!; try done. now rewrite <- app_assoc.
Qed.

(** One passing answer after the second twist. *)
Lemma passing_answer_pass_step (service : Collaborators) (st : AppState)
  (userMessage : string) (current : Scenario)
  (evaluation : EvaluationResult) (l : LessonProgress) :
  appStatus st <> MOCK_EXAM_IN_PROGRESS ->
  scenarioRef st = Some current ->
  evaluateAnswer_outcome service (scenario current) userMessage
    (passedLessons (lessons st)) = inr evaluation ->
  90 <= default 0 (totalScore evaluation) ->
  at_index (lessons st) (currentLessonIndex st) = Some l ->
  ~ twistsCompleted l < 2 ->
  let st' := fst (handleSendMessage service userMessage st) in
  at_index (lessons st') (currentLessonIndex st)
    = Some (with_score (default 0 (totalScore evaluation))
              (with_status passed l))
  /\ appStatus st' = TOPIC_PASSED
  /\ requests st'
     = requests st
       ++ [ EvaluateAnswer (scenario current) userMessage
              (passedLessons (lessons st)) ].
Proof.
  intros Hnot_mock Hscenario Hevaluation H90 Hl Htwists.
  pose proof (at_index_alter (with_status passed) _ _ _ Hl) as Hl'.
  unfold handleSendMessage.
  destruct (decide (appStatus st = MOCK_EXAM_IN_PROGRESS)) as [|_]; [done|].
  rewrite Hscenario. run_handler. rewrite ?Hscenario, ?Hevaluation. cbn.
  destruct (decide (90 <= default 0 (totalScore evaluation))); [|lia].
  run_handler. rewrite (element_Some _ _ _ Hl). cbn.
  destruct (decide (twistsCompleted l < 2)); [lia|].
  run_handler. rewrite (assign_at_Some _ _ _ _ Hl).
  rewrite (assign_at_Some _ _ _ _ Hl'). cbn.
  split_and!; try done. now apply at_index_alter.
Qed.

Section ThreeAnswers.

Variable service : Collaborators.
Variable search : Lesson -> thrown + option (list GroundingChunk).
Variables (st : AppState) (l : LessonProgress).
Variables (s0 s1 s2 : Scenario) (a1 a2 a3 : string)
  (e1 e2 e3 : EvaluationResult).

Hypothesis Hnot_mock : appStatus st <> MOCK_EXAM_IN_PROGRESS.
Hypothesis Hscenario : scenarioRef st = Some s0.
Hypothesis Hcurrent : at_index (lessons st) (currentLessonIndex st) = Some l.
Hypothesis Hfresh : twistsCompleted l = 0.
Hypothesis Hnot_passed : status l <> passed.

(** The evaluator gives each of the three answers a score from 90, and the
    generator returns a twist each time it is asked. *)
Hypothesis Hfirst :
  evaluateAnswer_outcome service (scenario s0) a1 (passedLessons (lessons st))
  = inr e1.
Hypothesis Hsecond :
  evaluateAnswer_outcome service (scenario s1) a2 (passedLessons (lessons st))
  = inr e2.
Hypothesis Hthird :
  evaluateAnswer_outcome service (scenario s2) a3 (passedLessons (lessons st))
  = inr e3.
Hypothesis Hscore1 : 90 <= default 0 (totalScore e1).
Hypothesis Hscore2 : 90 <= default 0 (totalScore e2).
Hypothesis Hscore3 : 90 <= default 0 (totalScore e3).
Hypothesis Htwist1 :
  generateScenario_outcome service (lesson l) (passedLessons (lessons st))
    (Some (scenario s0)) true = inr s1.
Hypothesis Htwist2 :
  generateScenario_outcome service (lesson l) (passedLessons (lessons st))
    (Some (scenario s1)) true = inr s2.

(** X13.  A lesson without twists is passed by exactly three passing answers: the
    first two each bring a twist of the scenario just answered and leave the
    lesson's status as it was, the third passes the lesson with its score;
    three evaluations and two generations are requested, in that order. *)
Theorem three_passing_answers_pass_the_lesson :
  let at_current st' := at_index (lessons st') (currentLessonIndex st) in
  let st1 := sendAll service search [a1] st in
  let st2 := sendAll service search [a1; a2] st in
  let st3 := sendAll service search [a1; a2; a3] st in
  (appStatus st1 = AWAITING_ANSWER /\ scenarioRef st1 = Some s1
   /\ at_current st1 = Some (with_twistsCompleted 1 l))
  /\ (appStatus st2 = AWAITING_ANSWER /\ scenarioRef st2 = Some s2
      /\ at_current st2 = Some (with_twistsCompleted 2 l))
  /\ appStatus st3 = TOPIC_PASSED
  /\ at_current st3
     = Some {| lesson := lesson l; status := passed;
               score := default 0 (totalScore e3); twistsCompleted := 2 |}
  /\ requests st3
     = requests st
       ++ [ EvaluateAnswer (scenario s0) a1 (passedLessons (lessons st));
            GenerateScenario (lesson l) (passedLessons (lessons st))
              (Some (scenario s0)) true;
            EvaluateAnswer (scenario s1) a2 (passedLessons (lessons st));
            GenerateScenario (lesson l) (passedLessons (lessons st))
              (Some (scenario s1)) true;
            EvaluateAnswer (scenario s2) a3 (passedLessons (lessons st)) ].
Proof.
  unfold sendAll, after. cbn [foldl handle].
  set (st1 := fst (handleSendMessage service a1 st)).
  set (st2 := fst (handleSendMessage service a2 st1)).
  set (st3 := fst (handleSendMessage service a3 st2)).
  destruct (passing_answer_twist_step service st a1 s0 s1 e1 l)
    as (Hlessons1 & Hindex1 & Hstored1 & Hstatus1 & Hrequests1);
    try done; [lia|]. fold st1 in Hlessons1, Hindex1, Hstored1, Hstatus1, Hrequests1.
  rewrite Hfresh in Hlessons1. cbn in Hlessons1.
  assert (passedLessons (lessons st1) = passedLessons (lessons st)) as Hpassed1.
  { rewrite Hlessons1. apply passedLessons_alter. intros l'.
    pose proof Hcurrent as Hc. unfold at_index in Hc.
    destruct (decide (0 <= currentLessonIndex st)); [|done].
    rewrite Hc. now intros [= <-]. }
  assert (at_index (lessons st1) (currentLessonIndex st1)
          = Some (with_twistsCompleted 1 l)) as Hcurrent1.
  { rewrite Hindex1, Hlessons1. now apply at_index_alter. }
  destruct (passing_answer_twist_step service st1 a2 s1 s2 e2
              (with_twistsCompleted 1 l))
    as (Hlessons2 & Hindex2 & Hstored2 & Hstatus2 & Hrequests2);
    rewrite ?Hpassed1; try done; [by rewrite Hstatus1|].
  fold st2 in Hlessons2, Hindex2, Hstored2, Hstatus2, Hrequests2.
  cbn in Hlessons2.
  assert (passedLessons (lessons st2) = passedLessons (lessons st)) as Hpassed2.
  { rewrite Hlessons2, <- Hpassed1. apply passedLessons_alter. intros l'.
    pose proof Hcurrent1 as Hc. unfold at_index in Hc.
    destruct (decide (0 <= currentLessonIndex st1)); [|done].
    rewrite Hc. now intros [= <-]. }
  assert (at_index (lessons st2) (currentLessonIndex st2)
          = Some (with_twistsCompleted 2 l)) as Hcurrent2.
  { rewrite Hindex2, Hlessons2.
    now rewrite (at_index_alter _ _ _ _ Hcurrent1). }
  destruct (passing_answer_pass_step service st2 a3 s2 e3
              (with_twistsCompleted 2 l))
    as (Hentry3 & Hstatus3 & Hrequests3);
    rewrite ?Hpassed2; try done; [by rewrite Hstatus2|].
  fold st3 in Hentry3, Hstatus3, Hrequests3.
  rewrite Hindex2, Hindex1 in *.
  split_and!; try done.
  rewrite Hrequests3, Hpassed2, Hrequests2, Hpassed1, Hrequests1.
  now rewrite <- !app_assoc.
Qed.

End ThreeAnswers.

Import Sample.

(** The sample lesson at index 6 (locked, no twists): three good answers
    pass it with score 92. *)
Lemma three_passing_answers_pass_the_lesson_witness :
  let st := awaitingAnswer sampleLessons 6 originalScenario in
  let st3 := sendAll sampleService (fun _ => inr None)
               ["good"; "good"; "good"] st in
  appStatus st3 = TOPIC_PASSED
  /\ (status <$> at_index (lessons st3) 6) = Some passed.
Proof.
  destruct (three_passing_answers_pass_the_lesson sampleService
              (fun _ => inr None)
              (awaitingAnswer sampleLessons 6 originalScenario)
              (progress locked 0 0 (sampleLesson 7 "Tax Credits"))
              originalScenario twistScenario twistScenario
              "good" "good" "good"
              passingEvaluation passingEvaluation passingEvaluation
              ltac:(discriminate) eq_refl eq_refl eq_refl
              ltac:(discriminate) eq_refl eq_refl eq_refl
              ltac:(vm_compute; discriminate)
              ltac:(vm_compute; discriminate)
              ltac:(vm_compute; discriminate)
              eq_refl eq_refl)
    as (_ & _ & Hstatus & Hentry & _).
  exact (conj Hstatus (f_equal (fmap status) Hentry)).
Defined.

(** ** The size of the mock exam *)

(** X14.  The generator is never asked for fewer than 5 or more than 15
    questions, and never for fewer when more lessons are passed. *)
Theorem questionCount_bounds (passed more : list LessonProgress) :
  5 <= questionCount passed <= 15
  /\ questionCount passed <= questionCount (passed ++ more).
Proof.
  unfold questionCount. rewrite length_app.
  assert (Z.of_nat (length passed) / 2
          <= Z.of_nat (length passed + length more) / 2)
    by (apply Z.div_le_mono; lia).
  lia.
Qed.

(** ** What every handler does to the lessons *)

(** The outcomes of an answer that is not a mock exam answer: nothing
    happens (no scenario is stored), the lessons stay as they are, the
    current lesson gets a twist, or the current lesson is passed. *)
Lemma handleSendMessage_evaluation_cases
  (service : Collaborators) (userMessage : string) (st : AppState) :
  appStatus st <> MOCK_EXAM_IN_PROGRESS ->
  let st' := fst (handleSendMessage service userMessage st) in
  let current := Z.to_nat (currentLessonIndex st) in
  currentLessonIndex st' = currentLessonIndex st
  /\ mockExam st' = mockExam st
  /\ snd (handleSendMessage service userMessage st) = inr tt
  /\ (st' = st
      \/ (lessons st' = lessons st /\ appStatus st' = AWAITING_ANSWER)
      \/ (exists l,
            at_index (lessons st) (currentLessonIndex st) = Some l
            /\ twistsCompleted l < 2
            /\ lessons st'
               = alter (with_twistsCompleted (twistsCompleted l + 1))
                   current (lessons st)
            /\ appStatus st' = AWAITING_ANSWER)
      \/ (exists l score,
            at_index (lessons st) (currentLessonIndex st) = Some l
            /\ ~ twistsCompleted l < 2
            /\ 90 <= score
            /\ lessons st'
               = alter (with_score score) current
                   (alter (with_status passed) current (lessons st))
            /\ appStatus st' = TOPIC_PASSED)).
Proof.
  intros Hnot_mock. unfold handleSendMessage.
  destruct (decide (appStatus st = MOCK_EXAM_IN_PROGRESS)) as [|_]; [done|].
  destruct (scenarioRef st) as [current|] eqn:Hscenario; [|cbn; auto].
  run_handler. rewrite ?Hscenario. cbn.
  destruct (evaluateAnswer_outcome service _ _ _) as [error|evaluation];
    cbn; [split_and!; try done; right; left; done|].
  destruct (decide (90 <= default 0 (totalScore evaluation))) as [H90|].
  - run_handler.
    destruct (at_index (lessons st) (currentLessonIndex st)) as [l|] eqn:Hl.
    + rewrite (element_Some _ _ _ Hl). cbn.
      pose proof (at_index_alter (with_status passed) _ _ _ Hl) as Hl'.
      destruct (decide (twistsCompleted l < 2)).
      * run_handler. rewrite (assign_at_Some _ _ _ _ Hl). cbn.
        destruct (generateScenario_outcome service _ _ _ _); cbn;
          split_and!; try done; right; right; left; exists l; done.
      * run_handler. rewrite (assign_at_Some _ _ _ _ Hl).
        rewrite (assign_at_Some _ _ _ _ Hl'). cbn.
        split_and!; try done. right; right; right.
        exists l, (default 0 (totalScore evaluation)). done.
    + unfold element. rewrite Hl. cbn.
      split_and!; try done; right; left; done.
  - run_handler.
    destruct (default [] (knowledgePoints evaluation)); cbn;
      destruct (detailedExplanation evaluation) as [[|]|]; cbn;
      rewrite ?Hscenario; cbn; split_and!; try done; right; left; done.
Qed.

(** The outcomes of a mock exam answer: it is rejected, or it is recorded
    as a letter and the cursor moves on, where the exam ends when no
    question is left. *)
Lemma handleMockAnswer_cases (answer : string) (st : AppState) (exam : MockExam) :
  mockExam st = Some exam ->
  let st' := fst (handleMockAnswer answer st) in
  (mockExam st' = mockExam st /\ appStatus st' = appStatus st)
  \/ (exists letter,
        isLetter letter
        /\ mockExam st'
           = Some {| questions := questions exam;
                     currentQuestionIndex := currentQuestionIndex exam + 1;
                     answers := answers exam ++ [letter] |}
        /\ (currentQuestionIndex exam + 1 < Z.of_nat (length (questions exam))
            /\ appStatus st' = appStatus st
            \/ ~ currentQuestionIndex exam + 1
                 < Z.of_nat (length (questions exam))
               /\ appStatus st' = MOCK_EXAM_COMPLETED)).
Proof.
  intros Hexam. unfold handleMockAnswer. rewrite Hexam.
  destruct (includes _ _) eqn:Hletter; cbn [negb]; [|left; done].
  right. exists (toUpperCase (trim answer)). split.
  { now apply bool_decide_eq_true in Hletter. }
  run_handler. destruct (decide _) as [Hmore|Hlast].
  - destruct (element _ _); cbn; auto.
  - match goal with
    | |- context [finishMockExam ?e ?s] =>
        destruct (finishMockExam_frame e s) as (_ & _ & _ & H1 & _ & H2 & _)
    end.
    destruct (finishMockExam _ _) as [st' r]. cbn in *. rewrite H1, H2. auto.
Qed.

Lemma at_index_lookup {T} (arr : list T) (i : Z) :
  0 <= i -> at_index arr i = arr !! Z.to_nat i.
Proof. intros Hi. unfold at_index. now rewrite decide_True. Qed.

Lemma element_lookup {T} (arr : list T) (i : Z) (x : T) :
  element arr i = inr x -> arr !! Z.to_nat i = Some x.
Proof.
  unfold element, at_index. destruct (decide (0 <= i)); [|done].
  destruct (arr !! Z.to_nat i); [|done]. now intros [= ->].
Qed.

Lemma startLesson_frame (service : Collaborators)
  (search : Lesson -> thrown + option (list GroundingChunk)) (st : AppState) :
  let st' := fst (startLesson service search st) in
  lessons st' = lessons st
  /\ currentLessonIndex st' = currentLessonIndex st
  /\ mockExam st' = mockExam st
  /\ (appStatus st' = GENERATING \/ appStatus st' = AWAITING_ANSWER
      \/ appStatus st' = IDLE)
  /\ snd (startLesson service search st) = inr tt.
Proof.
  unfold startLesson. run_handler.
  destruct (at_index (lessons st) (currentLessonIndex st)) as [l|]; cbn;
    [|split_and!; auto].
  destruct (generateScenario_outcome service _ _ _ _); cbn;
    [split_and!; auto|].
  destruct (getIrsReferences _); cbn; split_and!; auto.
Qed.

Lemma handleStartMockExam_frame (service : Collaborators) (st : AppState) :
  let st' := fst (handleStartMockExam service st) in
  lessons st' = lessons st
  /\ currentLessonIndex st' = currentLessonIndex st
  /\ snd (handleStartMockExam service st) = inr tt
  /\ (mockExam st' = mockExam st
      /\ (appStatus st' = appStatus st \/ appStatus st' = IDLE)
      \/ exists first others,
           mockExam st'
           = Some {| questions := first :: others; currentQuestionIndex := 0;
                     answers := [] |}
           /\ appStatus st' = MOCK_EXAM_IN_PROGRESS).
Proof.
  unfold handleStartMockExam.
  destruct (decide _); [cbn; split_and!; auto|].
  run_handler.
  destruct (generateMockExamQuestions_outcome service _ _)
    as [error|[|first others]]; cbn; [split_and!; auto..|].
  split_and!; try done. right. now exists first, others.
Qed.

(** ** No progress is lost *)

Lemma keeps_progress_refl (l : LessonProgress) : keeps_progress l l.
Proof. unfold keeps_progress. split_and!; [done..|lia]. Qed.

Lemma keeps_progress_trans (l1 l2 l3 : LessonProgress) :
  keeps_progress l1 l2 -> keeps_progress l2 l3 -> keeps_progress l1 l3.
Proof.
  unfold keeps_progress. intros (H1 & H2 & H3) (H4 & H5 & H6).
  split_and!; [congruence|auto|lia].
Qed.

Lemma lessons_kept_refl (ls : list LessonProgress) :
  Forall2 keeps_progress ls ls.
Proof.
  apply Forall_Forall2_diag, Forall_forall. intros. apply keeps_progress_refl.
Qed.

Lemma lessons_kept_alter (f : LessonProgress -> LessonProgress) (i : nat)
  (ls0 ls : list LessonProgress) :
  Forall2 keeps_progress ls0 ls ->
  (forall l, ls !! i = Some l -> keeps_progress l (f l)) ->
  Forall2 keeps_progress ls0 (alter f i ls).
Proof.
  intros Hkept Hf. apply Forall2_alter_r; [done|].
  intros x y _ Hy Hxy. eapply keeps_progress_trans; [done|]. now apply Hf.
Qed.

Lemma keeps_progress_status (s : Status) (l : LessonProgress) :
  status l <> passed \/ s = passed -> keeps_progress l (with_status s l).
Proof.
  unfold keeps_progress. cbn. intros [H| ->]; split_and!; try done; lia.
Qed.

Lemma keeps_progress_passedLessons (ls ls' : list LessonProgress) :
  Forall2 keeps_progress ls ls' ->
  (length (passedLessons ls) <= length (passedLessons ls'))%nat.
Proof.
  unfold passedLessons. induction 1 as [|x y xs ys (_ & Hpassed & _) _ IH];
    [done|].
  rewrite !filter_cons.
  destruct (decide (status x = passed)) as [Hx|].
  - rewrite decide_True by auto. cbn. lia.
  - destruct (decide (status y = passed)); cbn; lia.
Qed.

Lemma initialize_keeps_progress (st : AppState) :
  Forall2 keeps_progress (lessons st) (lessons (fst (initialize st))).
Proof.
  unfold initialize. run_handler. unfold setLessons. cbn.
  destruct (decide (_ < _)) as [Hin|]; [|apply lessons_kept_refl].
  destruct (element _ _) as [e|l] eqn:Hl; cbn; [apply lessons_kept_refl|].
  destruct (decide (status l = locked)) as [Hlocked|];
    [|apply lessons_kept_refl].
  unfold assign_at. rewrite Hl. cbn.
  apply lessons_kept_alter; [apply lessons_kept_refl|].
  intros l' Hl'. apply keeps_progress_status. left.
  apply element_lookup in Hl. rewrite Hl' in Hl. injection Hl as ->.
  now rewrite Hlocked.
Qed.

Lemma handleNextLesson_keeps_progress (st : AppState) :
  Forall2 keeps_progress (lessons st) (lessons (fst (handleNextLesson st))).
Proof.
  unfold handleNextLesson.
  destruct (decide (_ < _)) as [Hin|]; [|run_handler; apply lessons_kept_refl].
  run_handler. unfold setLessons. cbn.
  destruct (element _ _) as [e|l] eqn:Hl; cbn; [apply lessons_kept_refl|].
  destruct (decide (status l = locked)) as [Hlocked|];
    [|apply lessons_kept_refl].
  unfold assign_at. rewrite Hl. cbn.
  apply lessons_kept_alter; [apply lessons_kept_refl|].
  intros l' Hl'. apply keeps_progress_status. left.
  apply element_lookup in Hl. rewrite Hl' in Hl. injection Hl as ->.
  now rewrite Hlocked.
Qed.

Lemma handleSelectLesson_keeps_progress (index : Z) (st : AppState) :
  Forall2 keeps_progress (lessons st)
    (lessons (fst (handleSelectLesson index st))).
Proof.
  unfold handleSelectLesson.
  destruct (decide (index = _)); [apply lessons_kept_refl|].
  run_handler. unfold setLessons. cbn.
  destruct (element (lessons st) _) as [e|current] eqn:Hcurrent; cbn;
    [apply lessons_kept_refl|].
  assert (Forall2 keeps_progress (lessons st)
            (if decide (status current = active)
             then alter (with_status locked)
                    (Z.to_nat (currentLessonIndex st)) (lessons st)
             else lessons st)) as Hdemoted.
  { destruct (decide (status current = active)) as [Hactive|];
      [|apply lessons_kept_refl].
    apply lessons_kept_alter; [apply lessons_kept_refl|].
    intros l' Hl'. apply keeps_progress_status. left.
    apply element_lookup in Hcurrent. rewrite Hl' in Hcurrent.
    injection Hcurrent as ->. now rewrite Hactive. }
  destruct (element (if decide _ then _ else _) index) as [e|target] eqn:Htarget;
    cbn; [apply lessons_kept_refl|].
  destruct (decide (status target <> passed)) as [Hnot_passed|]; cbn; [|done].
  apply lessons_kept_alter; [done|].
  intros l' Hl'. apply keeps_progress_status. left.
  apply element_lookup in Htarget. rewrite Hl' in Htarget.
  now injection Htarget as ->.
Qed.

Lemma handleSendMessage_keeps_progress (service : Collaborators)
  (userMessage : string) (st : AppState) :
  Forall2 keeps_progress (lessons st)
    (lessons (fst (handleSendMessage service userMessage st))).
Proof.
  destruct (decide (appStatus st = MOCK_EXAM_IN_PROGRESS)) as [Hmock|Hmock].
  - unfold handleSendMessage. rewrite decide_True by done.
    destruct (handleMockAnswer_frame userMessage st) as (-> & _).
    apply lessons_kept_refl.
  - destruct (handleSendMessage_evaluation_cases service userMessage st Hmock)
      as (_ & _ & _ & [-> | [[-> _] | [(l & Hl & Htwists & -> & _)
                                      | (l & score & Hl & _ & _ & -> & _)]]]);
      try apply lessons_kept_refl.
    + apply lessons_kept_alter; [apply lessons_kept_refl|].
      intros l' Hl'. unfold keeps_progress. cbn.
      unfold at_index in Hl. destruct (decide _); [|done].
      rewrite Hl' in Hl. injection Hl as ->. split_and!; [done..|lia].
    + apply lessons_kept_alter;
        [apply lessons_kept_alter; [apply lessons_kept_refl|]|].
      * intros l' _. apply keeps_progress_status. now right.
      * intros l' _. unfold keeps_progress. cbn. split_and!; [done..|lia].
Qed.

(** X15.  No progress is ever lost: whatever the state and whatever the services
    answer, after the initial effect and after every handler each record
    is for the lesson it was for, a passed lesson is still passed, and no
    twist is taken back; so the number of passed lessons never goes down,
    and a mock exam button that is enabled stays enabled.  (Handlers run
    to their end one after the other.) *)
Theorem progress_is_never_lost (service : Collaborators)
  (search : Lesson -> thrown + option (list GroundingChunk))
  (st : AppState) :
  let kept st' :=
    Forall2 keeps_progress (lessons st) (lessons st')
    /\ (length (passedLessons (lessons st))
        <= length (passedLessons (lessons st')))%nat in
  kept (fst (initialize st))
  /\ forall event, kept (after service search event st).
Proof.
  cbn zeta.
  assert (forall st', Forall2 keeps_progress (lessons st) (lessons st') ->
            Forall2 keeps_progress (lessons st) (lessons st')
            /\ (length (passedLessons (lessons st))
                <= length (passedLessons (lessons st')))%nat) as Hboth
    by (intros st' H; split; [done|now apply keeps_progress_passedLessons]).
  split; [apply Hboth, initialize_keeps_progress|].
  intros event. apply Hboth. unfold after.
  destruct event as [|userMessage| |index| |]; cbn [handle].
  - destruct (startLesson_frame service search st) as (-> & _).
    apply lessons_kept_refl.
  - apply handleSendMessage_keeps_progress.
  - apply handleNextLesson_keeps_progress.
  - apply handleSelectLesson_keeps_progress.
  - destruct (handleStartMockExam_frame service st) as (-> & _).
    apply lessons_kept_refl.
  - unfold handleExitMockExam. run_handler. apply lessons_kept_refl.
Qed.

(** ** What holds in every session *)

Lemma session_ok_frame (st st' : AppState) :
  session_ok st ->
  lessons st' = lessons st ->
  currentLessonIndex st' = currentLessonIndex st ->
  mockExam st' = mockExam st ->
  appStatus st' = appStatus st
  \/ appStatus st' <> TOPIC_PASSED /\ appStatus st' <> MOCK_EXAM_IN_PROGRESS ->
  session_ok st'.
Proof.
  intros [] Hlessons Hindex Hexam Hstatus.
  split; rewrite ?Hlessons, ?Hindex, ?Hexam; try done.
  - intros H. destruct Hstatus as [Hsame|[? ?]]; [|done].
    rewrite Hsame in H. auto.
  - intros H. destruct Hstatus as [Hsame|[? ?]]; [|done].
    rewrite Hsame in H. auto.
Qed.

Lemma session_ok_alter_current (f : LessonProgress -> LessonProgress)
  (st st' : AppState) :
  session_ok st ->
  lessons st' = alter f (Z.to_nat (currentLessonIndex st)) (lessons st) ->
  currentLessonIndex st' = currentLessonIndex st ->
  mockExam st' = mockExam st ->
  appStatus st' <> MOCK_EXAM_IN_PROGRESS ->
  (forall l, lessons st !! Z.to_nat (currentLessonIndex st) = Some l ->
             progress_ok l ->
             progress_ok (f l)
             /\ (status (f l) = status l \/ status (f l) = passed)
             /\ (appStatus st' = TOPIC_PASSED -> status (f l) = passed)) ->
  session_ok st'.
Proof.
  intros [Hstore Hpointer Hcurrent Hactive _ Hexam _] Hlessons Hindex Hmock
    Hstatus Hf.
  assert (exists l, lessons st !! Z.to_nat (currentLessonIndex st) = Some l)
    as [l Hl] by (apply lookup_lt_is_Some; lia).
  assert (progress_ok l) as Hl_ok
    by (eapply (proj1 (Forall_lookup _ _) Hstore); done).
  destruct (Hf l Hl Hl_ok) as (Hfl_ok & Hfl_status & Hfl_passed).
  assert (at_index (lessons st') (currentLessonIndex st') = Some (f l))
    as Hl'.
  { rewrite Hindex, Hlessons, at_index_lookup by lia.
    rewrite list_lookup_alter, decide_True by done. now rewrite Hl. }
  split.
  - rewrite Hlessons. apply Forall_alter; [done|].
    intros x Hx. rewrite Hl in Hx. now injection Hx as <-.
  - rewrite Hlessons, Hindex, length_alter. lia.
  - rewrite Hl'. intros ? [= <-].
    destruct Hfl_status as [-> | ->]; [|done].
    apply Hcurrent. now rewrite at_index_lookup by lia.
  - intros j x. rewrite Hlessons, Hindex, list_lookup_alter.
    destruct (decide _) as [<-|]; [lia|]. apply Hactive.
  - intros Htopic. rewrite Hl'. cbn. f_equal. auto.
  - now rewrite Hmock.
  - done.
Qed.

Lemma handleMockAnswer_returns (answer : string) (st : AppState)
  (exam : MockExam) :
  mockExam st = Some exam ->
  0 <= currentQuestionIndex exam ->
  snd (handleMockAnswer answer st) = inr tt.
Proof.
  intros Hexam Hcursor. unfold handleMockAnswer. rewrite Hexam.
  destruct (negb _); [done|]. run_handler.
  destruct (decide _) as [Hmore|Hlast].
  - destruct (lookup_lt_is_Some_2 (questions exam)
                (Z.to_nat (currentQuestionIndex exam + 1))) as [q Hq]; [lia|].
    unfold element. rewrite at_index_lookup, Hq by lia. done.
  - match goal with
    | |- context [finishMockExam ?e ?s] =>
        destruct (finishMockExam_frame e s) as (_ & _ & _ & _ & _ & _ & H)
    end.
    destruct (finishMockExam _ _) as [st' r]. cbn in *. now rewrite H.
Qed.

Lemma handleSendMessage_session_ok (service : Collaborators)
  (userMessage : string) (st : AppState) :
  session_ok st ->
  session_ok (fst (handleSendMessage service userMessage st))
  /\ snd (handleSendMessage service userMessage st) = inr tt.
Proof.
  intros Hok.
  destruct (decide (appStatus st = MOCK_EXAM_IN_PROGRESS)) as [Hmock|Hmock].
  - unfold handleSendMessage. rewrite decide_True by done.
    destruct (in_progress_ok _ Hok Hmock) as (exam & Hexam & Hcursor).
    destruct (exam_ok _ Hok exam Hexam) as [Hcount Hletters].
    split; [|apply (handleMockAnswer_returns _ _ exam); [done|lia]].
    destruct (handleMockAnswer_frame userMessage st)
      as (Hlessons & Hindex & _).
    destruct (handleMockAnswer_cases userMessage st exam Hexam)
      as [[Hsame Hstatus]|(letter & Hletter & Hnew & Hstatus)].
    + apply (session_ok_frame st); auto.
    + destruct Hok as [Hstore Hpointer Hcurrent Hactive _ _ _].
      split; rewrite ?Hlessons, ?Hindex, ?Hnew; try done.
      * intros Htopic. destruct Hstatus as [[_ H]|[_ H]]; congruence.
      * intros ? [= <-]. cbn. split.
        -- rewrite length_app. cbn. lia.
        -- apply Forall_app. split; [done|]. now constructor.
      * intros Hprogress. destruct Hstatus as [[Hmore _]|[_ H]];
          [|congruence].
        eexists. split; [done|]. done.
  - destruct (handleSendMessage_evaluation_cases service userMessage st Hmock)
      as (Hindex & Hexam & Hreturns & Hcases).
    split; [|done].
    destruct Hcases as [-> | [[Hlessons Hstatus]
                       | [(l & Hl & Htwists & Hlessons & Hstatus)
                         | (l & score & Hl & Htwists & H90 & Hlessons
                            & Hstatus)]]]; [done| | |].
    + apply (session_ok_frame st); auto. right. now rewrite Hstatus.
    + apply (session_ok_alter_current
               (with_twistsCompleted (twistsCompleted l + 1)) st); auto.
      { now rewrite Hstatus. }
      pose proof (pointer_ok _ Hok) as Hpointer.
      rewrite at_index_lookup in Hl by lia. intros x Hx [Hrange Hpassed].
      rewrite Hl in Hx. injection Hx as <-.
      split_and!; [|now left|now rewrite Hstatus].
      split; cbn; [lia|]. intros H. apply Hpassed in H. lia.
    + rewrite list_alter_alter_eq in Hlessons.
      apply (session_ok_alter_current
               (with_score score ∘ with_status passed) st); auto.
      { now rewrite Hstatus. }
      pose proof (pointer_ok _ Hok) as Hpointer.
      rewrite at_index_lookup in Hl by lia. intros x Hx [Hrange Hpassed].
      rewrite Hl in Hx. injection Hx as <-.
      split_and!; [|now right|done].
      split; cbn; [lia|]. intros _. lia.
Qed.

(** The status the side bar gives a lesson that is left, and a lesson that
    is selected. *)
Lemma alter_same_at {T} (f : T -> T) (arr : list T) (i : nat) (x : T) :
  arr !! i = Some x -> f x = x -> alter f i arr = arr.
Proof.
  intros Hx Hf. apply list_eq. intros j. rewrite list_lookup_alter.
  destruct (decide (i = j)) as [<-|]; [|done]. rewrite Hx. cbn. now rewrite Hf.
Qed.

Lemma handleSelectLesson_effect (index : nat) (st : AppState)
  (current target : LessonProgress) :
  Z.of_nat index <> currentLessonIndex st ->
  0 <= currentLessonIndex st ->
  lessons st !! Z.to_nat (currentLessonIndex st) = Some current ->
  lessons st !! index = Some target ->
  let st' := fst (handleSelectLesson (Z.of_nat index) st) in
  lessons st'
    = alter (fun l => if decide (status l <> passed)
                      then with_status active l else l) index
        (alter (fun l => if decide (status l = active)
                         then with_status locked l else l)
           (Z.to_nat (currentLessonIndex st)) (lessons st))
  /\ currentLessonIndex st' = Z.of_nat index
  /\ appStatus st' = IDLE
  /\ scenarioRef st' = None
  /\ mockExam st' = mockExam st
  /\ snd (handleSelectLesson (Z.of_nat index) st) = inr tt.
Proof.
  intros Hother Hpointer Hcurrent Htarget.
  set (demote := fun l => if decide (status l = active)
                          then with_status locked l else l).
  set (promote := fun l => if decide (status l <> passed)
                           then with_status active l else l).
  assert ((if decide (status current = active)
           then alter (with_status locked)
                  (Z.to_nat (currentLessonIndex st)) (lessons st)
           else lessons st)
          = alter demote (Z.to_nat (currentLessonIndex st)) (lessons st))
    as Hdemoted.
  { destruct (decide (status current = active)) as [Hactive|Hactive].
    - apply list_eq. intros j. rewrite !list_lookup_alter.
      destruct (decide _); [|done]. rewrite Hcurrent. cbn. unfold demote.
      now rewrite decide_True.
    - symmetry. apply (alter_same_at _ _ _ current); [done|].
      unfold demote. now rewrite decide_False. }
  assert (alter demote (Z.to_nat (currentLessonIndex st)) (lessons st) !! index
          = Some target) as Htarget'
    by (rewrite list_lookup_alter_ne by lia; done).
  unfold handleSelectLesson. rewrite decide_False by done.
  run_handler. unfold setLessons. cbn.
  unfold element. rewrite !(at_index_lookup (lessons st)), !Hcurrent by done.
  rewrite !Hdemoted, !at_index_nat, !Htarget', !Nat2Z.id.
  destruct (decide (status target <> passed)) as [Hnot_passed|Hpassed]; cbn.
  - split_and!; try done. apply list_eq. intros j.
    rewrite !(list_lookup_alter _ _ index).
    destruct (decide (index = j)); [|done]. rewrite Htarget'. cbn.
    unfold promote. now rewrite decide_True.
  - split_and!; try done. symmetry.
    apply (alter_same_at _ _ _ target); [done|].
    unfold promote. now rewrite decide_False.
Qed.

Lemma handleSelectLesson_session_ok (index : nat) (st : AppState) :
  session_ok st ->
  (index < length (lessons st))%nat ->
  session_ok (fst (handleSelectLesson (Z.of_nat index) st))
  /\ snd (handleSelectLesson (Z.of_nat index) st) = inr tt.
Proof.
  intros Hok Hindex.
  destruct (decide (Z.of_nat index = currentLessonIndex st)) as [Hsame|Hother].
  { unfold handleSelectLesson. now rewrite decide_True. }
  destruct Hok as [Hstore Hpointer Hcurrent Hactive _ Hexam _].
  destruct (lookup_lt_is_Some_2 (lessons st)
              (Z.to_nat (currentLessonIndex st))) as [current Hc]; [lia|].
  destruct (lookup_lt_is_Some_2 (lessons st) index) as [target Ht]; [lia|].
  destruct (handleSelectLesson_effect index st current target)
    as (Hlessons & Hpointer' & Hstatus & _ & Hmock & Hreturns);
    [done|lia|done..|].
  split; [|done].
  split; rewrite ?Hlessons, ?Hpointer', ?Hstatus, ?Hmock; try done.
  - apply Forall_alter; [apply Forall_alter; [done|]|].
    + intros x _ [Hrange Hpassed]. destruct (decide _) as [Hx|]; [|done].
      split; cbn; [done|]. done.
    + intros x _ [Hrange Hpassed]. destruct (decide _) as [Hx|]; [|done].
      split; cbn; [done|]. done.
  - rewrite !length_alter. lia.
  - intros l. rewrite at_index_nat, list_lookup_alter, decide_True by done.
    rewrite list_lookup_alter_ne, Ht by lia. cbn. intros [= <-].
    destruct (decide (status target <> passed)) as [|Hpassed]; [done|].
    intros Hlocked. apply Hpassed. now rewrite Hlocked.
  - intros j l. rewrite list_lookup_alter.
    destruct (decide (index = j)) as [<-|Hj]; [done|].
    rewrite list_lookup_alter.
    destruct (decide (Z.to_nat (currentLessonIndex st) = j)) as [<-|Hj'].
    + rewrite Hc. cbn. intros [= <-].
      destruct (decide (status current = active)); done.
    + intros Hl Hl_active. specialize (Hactive j l Hl Hl_active). lia.
Qed.

Lemma handleNextLesson_session_ok (st : AppState) :
  session_ok st ->
  appStatus st = TOPIC_PASSED ->
  session_ok (fst (handleNextLesson st))
  /\ snd (handleNextLesson st) = inr tt.
Proof.
  intros Hok Htopic. unfold handleNextLesson.
  destruct (decide (_ < _)) as [Hnext|Hlast].
  2:{ run_handler. split; [|done].
      apply (session_ok_frame st); auto; right; done. }
  destruct Hok as [Hstore Hpointer Hcurrent Hactive Hpassed Hexam _].
  specialize (Hpassed Htopic). rewrite at_index_lookup in Hpassed by lia.
  assert (forall j l, lessons st !! j = Some l -> status l <> active)
    as Hnone.
  { intros j l Hl Hl_active. specialize (Hactive j l Hl Hl_active).
    rewrite <- Hactive, Nat2Z.id, Hl in Hpassed. cbn in Hpassed. congruence. }
  destruct (lookup_lt_is_Some_2 (lessons st)
              (Z.to_nat (currentLessonIndex st + 1))) as [next Hn]; [lia|].
  run_handler. unfold setLessons. cbn.
  unfold assign_at, element.
  rewrite !(at_index_lookup (lessons st)), !Hn by lia.
  destruct (decide (status next = locked)) as [Hlocked|Hunlocked].
  - cbn.
    split; [|done]. split; cbn; try done.
    + apply Forall_alter; [done|]. intros x _ [Hrange _]. done.
    + rewrite length_alter. lia.
    + intros l. rewrite at_index_lookup, list_lookup_alter by lia.
      rewrite decide_True, Hn by done. cbn. now intros [= <-].
    + intros j l. rewrite list_lookup_alter.
      destruct (decide _) as [<-|]; [lia|]. intros Hl Hl_active.
      now destruct (Hnone j l Hl).
  - cbn. split; [|done]. split; cbn; try done.
    + lia.
    + intros l. rewrite at_index_lookup, Hn by lia. now intros [= <-].
    + intros j l Hl Hl_active. now destruct (Hnone j l Hl).
Qed.

Lemma initialize_session_ok (first : Lesson) (plan : list Lesson) :
  session_ok (fst (initialize (initialState (freshLessons (first :: plan))))).
Proof.
  assert (fst (initialize (initialState (freshLessons (first :: plan))))
          = {| lessons := {| lesson := first; status := active; score := 0;
                             twistsCompleted := 0 |} :: freshLessons plan;
               currentLessonIndex := 0;
               messages := [ says system welcomeText ];
               appStatus := IDLE; inputDisabled := true; mockExam := None;
               isSidebarOpen := false; scenarioRef := None;
               requests := [] |}) as ->.
  { unfold initialize. cbn [initialState lessons freshLessons map findIndex].
    rewrite bool_decide_true by done. cbn. done. }
  split; cbn [lessons currentLessonIndex appStatus mockExam]; try done.
  - constructor; [split; [done|done]|].
    apply Forall_fmap, Forall_forall. intros l _. split; [done|done].
  - intros l [= <-]. done.
  - intros [|j] l; [done|]. cbn. intros Hl Hactive. exfalso.
    revert j Hl. induction plan as [|next plan IH]; intros [|j]; cbn;
      try done.
    + intros [= <-]. done.
    + apply IH.
Qed.

Lemma handle_session_ok (service : Collaborators)
  (search : Lesson -> thrown + option (list GroundingChunk))
  (st : AppState) (event : Event) :
  session_ok st -> offered st event ->
  session_ok (after service search event st)
  /\ snd (handle service search event st) = inr tt.
Proof.
  intros Hok Hoffered. unfold after.
  destruct Hoffered as [event Hbutton|inputValue c rest _ _|index Hindex|_];
    cbn [handle].
  - destruct (appStatus st) eqn:Hstatus; try discriminate;
      injection Hbutton as <-; cbn [handle].
    + destruct (startLesson_frame service search st)
        as (Hlessons & Hpointer & Hexam & Hstatus' & Hreturns).
      split; [|done]. apply (session_ok_frame st); auto. right.
      destruct Hstatus' as [-> | [-> | ->]]; done.
    + now apply handleNextLesson_session_ok.
    + unfold handleExitMockExam. run_handler. split; [|done].
      destruct Hok. split; cbn; try done.
  - now apply handleSendMessage_session_ok.
  - now apply handleSelectLesson_session_ok.
  - destruct (handleStartMockExam_frame service st)
      as (Hlessons & Hpointer & Hreturns & Hcases).
    split; [|done].
    destruct Hcases as [(Hexam & Hstatus)
                       |(first & others & Hexam & Hstatus)].
    + apply (session_ok_frame st); auto.
      destruct Hstatus as [->| ->]; auto.
    + destruct Hok as [Hstore Hpointer0 Hcurrent Hactive _ _ _].
      split; rewrite ?Hlessons, ?Hpointer, ?Hexam, ?Hstatus; try done.
      * intros ? [= <-]. cbn. done.
      * intros _. eexists. split; [done|]. cbn. lia.
Qed.

(** X16.  Every event the components offer keeps the session in order, and its
    handler returns without throwing: every record stays one the program
    writes (at most 2 twists; a passed lesson has both twists and a score
    from 90), the pointer stays on a lesson that is active or passed, no
    other lesson is active, the button to the next lesson is shown on a
    passed lesson only, and the cursor of a mock exam counts its answers,
    which are letters, with a question at the cursor while the exam is in
    progress.  (Handlers run to their end one after the other.) *)
Theorem offered_events_keep_the_session_in_order (service : Collaborators)
  (search : Lesson -> thrown + option (list GroundingChunk))
  (st : AppState) (event : Event) :
  session_ok st -> offered st event ->
  session_ok (after service search event st)
  /\ snd (handle service search event st) = inr tt.
Proof. apply handle_session_ok. Qed.

Lemma offered_events_keep_the_session_in_order_witness :
  let st := fst (initialize (initialState (freshLessons samplePlan))) in
  session_ok (after sampleService (fun _ => inr None) StartLesson st)
  /\ snd (handle sampleService (fun _ => inr None) StartLesson st) = inr tt.
Proof.
  exact (offered_events_keep_the_session_in_order sampleService
           (fun _ => inr None)
           (fst (initialize (initialState (freshLessons samplePlan))))
           StartLesson
           (initialize_session_ok _ _)
           (offered_action
              (fst (initialize (initialState (freshLessons samplePlan))))
              StartLesson eq_refl)).
Defined.

Lemma session_ok_one_active (st : AppState) :
  session_ok st -> (count_status active (lessons st) <= 1)%nat.
Proof.
  intros [_ Hpointer _ Hactive _ _ _].
  destruct (lookup_lt_is_Some_2 (lessons st)
              (Z.to_nat (currentLessonIndex st))) as [l Hl]; [lia|].
  destruct (decide (status l = active)) as [Hl_active|Hl_other].
  - rewrite (count_status_only_at active _ _ l Hl Hl_active); [done|].
    intros j l' Hl' Hl'_active. specialize (Hactive j l' Hl' Hl'_active). lia.
  - rewrite count_status_none; [lia|].
    intros j l' Hl' Hl'_active. specialize (Hactive j l' Hl' Hl'_active).
    rewrite <- Hactive, Nat2Z.id, Hl' in Hl. now injection Hl as ->.
Qed.

(** X17.  From a fresh lesson plan that is not empty, every state a session
    reaches is in order, whatever the services answer; in particular at
    most one lesson is active, and it is the one the pointer is on.
    (Without a page load in between, after which a second lesson can be
    active, and with the handlers run to their end one after the other.) *)
Theorem reachable_sessions_are_in_order (service : Collaborators)
  (search : Lesson -> thrown + option (list GroundingChunk))
  (plan : list Lesson) (st : AppState) :
  plan <> [] -> reachable service search plan st ->
  session_ok st
  /\ (count_status active (lessons st) <= 1)%nat.
Proof.
  intros Hplan Hreachable.
  assert (session_ok st) as Hok; [|split; [done|now apply session_ok_one_active]].
  induction Hreachable as [|st event _ IH Hoffered].
  - destruct plan as [|first plan]; [done|]. apply initialize_session_ok.
  - now apply handle_session_ok.
Qed.

Lemma reachable_sessions_are_in_order_witness :
  let st0 := fst (initialize (initialState (freshLessons samplePlan))) in
  let st := after sampleService (fun _ => inr None) (SelectLesson 2) st0 in
  session_ok st /\ (count_status active (lessons st) <= 1)%nat.
Proof.
  exact (reachable_sessions_are_in_order sampleService (fun _ => inr None)
           samplePlan _ ltac:(discriminate)
           (reachable_event _ _ _ _ (SelectLesson (Z.of_nat 2))
              (reachable_start _ _ samplePlan)
              (offered_select
                 (fst (initialize (initialState (freshLessons samplePlan))))
                 2%nat ltac:(vm_compute; lia)))).
Defined.

(** ** Looking at another lesson and coming back *)

(** X18.  Selecting a lesson in the side bar and then the lesson one came from
    changes no progress record and puts the pointer back: the lesson left
    is locked and unlocked again, a passed lesson stays passed.  What is
    lost is the scenario in progress: the session is back in IDLE without
    a stored scenario. *)
Theorem select_lesson_and_back (st : AppState) (index : nat) :
  session_ok st ->
  (index < length (lessons st))%nat ->
  let st1 := fst (handleSelectLesson (Z.of_nat index) st) in
  let st2 := fst (handleSelectLesson (currentLessonIndex st) st1) in
  lessons st2 = lessons st
  /\ currentLessonIndex st2 = currentLessonIndex st
  /\ (Z.of_nat index <> currentLessonIndex st ->
      scenarioRef st2 = None /\ appStatus st2 = IDLE).
Proof.
  intros Hok Hindex.
  destruct (decide (Z.of_nat index = currentLessonIndex st)) as [Hsame|Hother].
  { assert (forall i, i = currentLessonIndex st ->
                        handleSelectLesson i st = (st, inr tt)) as Hnone
      by (intros i Hi; unfold handleSelectLesson; now rewrite decide_True).
    cbn zeta. rewrite (Hnone (Z.of_nat index)) by done. cbn [fst].
    rewrite (Hnone (currentLessonIndex st)) by done. done. }
  destruct Hok as [_ Hpointer Hcurrent Hactive _ _ _].
  destruct (lookup_lt_is_Some_2 (lessons st)
              (Z.to_nat (currentLessonIndex st))) as [current Hc]; [lia|].
  destruct (lookup_lt_is_Some_2 (lessons st) index) as [target Ht]; [lia|].
  set (demote := fun l => if decide (status l = active)
                          then with_status locked l else l).
  set (promote := fun l => if decide (status l <> passed)
                           then with_status active l else l).
  assert (promote (demote current) = current) as Hcurrent_back.
  { specialize (Hcurrent current). rewrite at_index_lookup in Hcurrent by lia.
    specialize (Hcurrent Hc). unfold promote, demote.
    destruct current as [l [] n t]; done. }
  assert (demote (promote target) = target) as Htarget_back.
  { assert (status target <> active) as Hnot_active
      by (intros H; specialize (Hactive _ _ Ht H); lia).
    unfold promote, demote. destruct target as [l [] n t]; done. }
  intros st1.
  destruct (handleSelectLesson_effect index st current target)
    as (Hlessons1 & Hpointer1 & _); [done|lia|done..|].
  fold st1 demote promote in Hlessons1, Hpointer1.
  intros st2. subst st2.
  rewrite <- (Z2Nat.id (currentLessonIndex st)) by lia.
  destruct (handleSelectLesson_effect (Z.to_nat (currentLessonIndex st)) st1
              (promote target) (demote current))
    as (Hlessons2 & Hpointer2 & Hstatus2 & Hscenario2 & _).
  { rewrite Hpointer1. lia. }
  { rewrite Hpointer1. lia. }
  { rewrite Hpointer1, Nat2Z.id, Hlessons1.
    rewrite list_lookup_alter, decide_True by done.
    rewrite list_lookup_alter_ne, Ht by lia. done. }
  { rewrite Hlessons1, list_lookup_alter_ne by lia.
    rewrite list_lookup_alter, decide_True, Hc by done. done. }
  fold demote promote in Hlessons2.
  split_and!; [|done..].
  rewrite Hlessons2, Hpointer1, Nat2Z.id, Hlessons1.
  apply list_eq. intros j.
  destruct (decide (j = Z.to_nat (currentLessonIndex st))) as [->|Hj].
  - rewrite list_lookup_alter, decide_True by done.
    rewrite !(list_lookup_alter_ne _ _ index) by lia.
    rewrite list_lookup_alter, decide_True, Hc by done.
    cbn [fmap option_fmap option_map]. now rewrite Hcurrent_back.
  - rewrite (list_lookup_alter_ne _ _ (Z.to_nat (currentLessonIndex st)))
      by lia.
    destruct (decide (j = index)) as [->|Hj'].
    + rewrite list_lookup_alter, decide_True by done.
      rewrite list_lookup_alter, decide_True by done.
      rewrite list_lookup_alter_ne, Ht by lia.
      cbn [fmap option_fmap option_map]. now rewrite Htarget_back.
    + rewrite !list_lookup_alter_ne by lia. done.
Qed.

Lemma awaitingAnswer_sample_ok :
  session_ok (awaitingAnswer sampleLessons 5 originalScenario).
Proof.
  split; cbn [awaitingAnswer lessons currentLessonIndex appStatus mockExam];
    try done.
  - repeat constructor; cbn; try lia; done.
  - now intros l [= <-].
  - intros j l. do 7 (destruct j as [|j]; [now intros [= <-]|]). done.
Qed.

(** On the sample lessons (the sixth in progress): a look at the seventh
    and back. *)
Lemma select_lesson_and_back_witness :
  let st := awaitingAnswer sampleLessons 5 originalScenario in
  let st1 := fst (handleSelectLesson 6 st) in
  let st2 := fst (handleSelectLesson 5 st1) in
  lessons st2 = sampleLessons /\ scenarioRef st2 = None.
Proof.
  destruct (select_lesson_and_back
              (awaitingAnswer sampleLessons 5 originalScenario) 6%nat
              awaitingAnswer_sample_ok ltac:(vm_compute; lia))
    as (Hlessons & _ & Hlost).
  exact (conj Hlessons (proj1 (Hlost ltac:(discriminate)))).
Defined.

(** ** From a passed lesson to the next *)

Lemma handleNextLesson_effect (st : AppState) (next : LessonProgress) :
  at_index (lessons st) (currentLessonIndex st + 1) = Some next ->
  let st' := fst (handleNextLesson st) in
  lessons st'
    = alter (fun l => if decide (status l = locked)
                      then with_status active l else l)
        (Z.to_nat (currentLessonIndex st + 1)) (lessons st)
  /\ currentLessonIndex st' = currentLessonIndex st + 1
  /\ messages st' = [ says system nextLessonText ]
  /\ scenarioRef st' = None
  /\ appStatus st' = IDLE
  /\ requests st' = requests st.
Proof.
  intros Hnext. pose proof (at_index_Some_range _ _ _ Hnext) as Hrange.
  assert (lessons st !! Z.to_nat (currentLessonIndex st + 1) = Some next)
    as Hlookup by (rewrite <- at_index_lookup by lia; done).
  unfold handleNextLesson. rewrite decide_True by lia.
  run_handler. unfold setLessons, assign_at, element. cbn. rewrite !Hnext.
  destruct (decide (status next = locked)) as [Hlocked|Hunlocked]; cbn.
  - split_and!; try done. apply list_eq. intros j.
    rewrite !list_lookup_alter. destruct (decide _); [|done].
    rewrite Hlookup. cbn. now rewrite decide_True.
  - split_and!; try done. symmetry.
    apply (alter_same_at _ _ _ next); [done|]. now rewrite decide_False.
Qed.

Lemma startLesson_request (service : Collaborators)
  (search : Lesson -> thrown + option (list GroundingChunk))
  (st : AppState) (l : LessonProgress) :
  at_index (lessons st) (currentLessonIndex st) = Some l ->
  requests (fst (startLesson service search st))
  = requests st
    ++ [ GenerateScenario (lesson l) (passedLessons (lessons st)) None false ].
Proof.
  intros Hl. unfold startLesson. run_handler. rewrite Hl. cbn.
  destruct (generateScenario_outcome service _ _ _ _); cbn; [done|].
  destruct (getIrsReferences _); done.
Qed.

(** X19.  The button to the next lesson, then the button to start it: the pointer
    moves to the following lesson, which is unlocked when it was locked
    (no other record changes), the transcript and the stored scenario are
    cleared, and the scenario that is then requested is for that lesson,
    with the passed lessons as they were, not as a twist. *)
Theorem next_lesson_then_start (service : Collaborators)
  (search : Lesson -> thrown + option (list GroundingChunk))
  (st : AppState) (next : LessonProgress) :
  at_index (lessons st) (currentLessonIndex st + 1) = Some next ->
  let st1 := after service search NextLesson st in
  let st2 := after service search StartLesson st1 in
  currentLessonIndex st1 = currentLessonIndex st + 1
  /\ at_index (lessons st1) (currentLessonIndex st + 1)
     = Some (if decide (status next = locked)
             then with_status active next else next)
  /\ (forall j, j <> currentLessonIndex st + 1 ->
        at_index (lessons st1) j = at_index (lessons st) j)
  /\ messages st1 = [ says system nextLessonText ]
  /\ scenarioRef st1 = None
  /\ lessons st2 = lessons st1
  /\ requests st2
     = requests st
       ++ [ GenerateScenario (lesson next) (passedLessons (lessons st))
              None false ].
Proof.
  intros Hnext st1 st2.
  pose proof (at_index_Some_range _ _ _ Hnext) as Hrange.
  destruct (handleNextLesson_effect st next Hnext)
    as (Hlessons & Hpointer & Hmessages & Hscenario & _ & Hrequests).
  change (fst (handleNextLesson st)) with st1
    in Hlessons, Hpointer, Hmessages, Hscenario, Hrequests.
  set (unlock := fun l => if decide (status l = locked)
                          then with_status active l else l) in Hlessons.
  assert (at_index (lessons st1) (currentLessonIndex st1) = Some (unlock next))
    as Hcurrent
    by (rewrite Hpointer, Hlessons; now apply at_index_alter).
  assert (passedLessons (lessons st1) = passedLessons (lessons st)) as Hpassed.
  { rewrite Hlessons.
    assert (lessons st !! Z.to_nat (currentLessonIndex st + 1) = Some next)
      as Hlookup by (rewrite <- at_index_lookup by lia; done).
    destruct (decide (status next = locked)) as [Hlocked|Hunlocked].
    - apply passedLessons_alter. intros l. rewrite Hlookup. intros [= <-].
      unfold unlock. rewrite decide_True by done. cbn. now rewrite Hlocked.
    - rewrite (alter_same_at unlock _ _ next); [done..|].
      unfold unlock. now rewrite decide_False. }
  split_and!; try done.
  - rewrite <- Hpointer. exact Hcurrent.
  - intros j Hj. rewrite Hlessons. apply at_index_alter_ne; lia.
  - subst st2. unfold after. cbn [handle].
    now destruct (startLesson_frame service search st1) as (-> & _).
  - subst st2. unfold after. cbn [handle].
    rewrite (startLesson_request service search st1 (unlock next) Hcurrent).
    rewrite Hrequests, Hpassed. do 3 f_equal. unfold unlock.
    now destruct (decide _).
Qed.

Lemma next_lesson_then_start_witness :
  let st := awaitingAnswer sampleLessons 5 originalScenario in
  let st1 := after sampleService (fun _ => inr None) NextLesson st in
  let st2 := after sampleService (fun _ => inr None) StartLesson st1 in
  currentLessonIndex st1 = 6
  /\ requests st2
     = [ GenerateScenario (sampleLesson 7 "Tax Credits")
           (passedLessons sampleLessons) None false ].
Proof.
  destruct (next_lesson_then_start sampleService (fun _ => inr None)
              (awaitingAnswer sampleLessons 5 originalScenario)
              (progress locked 0 0 (sampleLesson 7 "Tax Credits")) eq_refl)
    as (Hpointer & _ & _ & _ & _ & _ & Hrequests).
  exact (conj Hpointer Hrequests).
Defined.

(** ** Starting a lesson in a session that is in order *)



(** ** The references of a lesson *)

(** X20.  [getIrsReferences] gives exactly the sources of the search that are
    complete: a reference is returned if and only if the search returned
    (without throwing) a chunk whose web part has that title and that uri,
    both not empty.  When the search throws or has no chunks it gives no
    reference. *)
Theorem getIrsReferences_gives_the_complete_sources
  (searchOutcome : thrown + option (list GroundingChunk)) (r : Reference) :
  r ∈ getIrsReferences searchOutcome
  <-> exists chunks chunk w,
        searchOutcome = inr (Some chunks)
        /\ chunk ∈ chunks
        /\ web chunk = Some w
        /\ web_title w = Some (title r)
        /\ web_uri w = Some (uri r)
        /\ title r <> EmptyString
        /\ uri r <> EmptyString.
Proof.
  split.
  - destruct searchOutcome as [e|[chunks|]]; cbn; [by intros ?%elem_of_nil| |
      by intros ?%elem_of_nil].
    intros (chunk & Hchunk & Href)%list_elem_of_omap.
    unfold reference_of in Href.
    destruct (web chunk) as [w|] eqn:Hw; [|done].
    destruct (web_title w) as [[|a t]|] eqn:Ht; try done.
    destruct (web_uri w) as [[|b u]|] eqn:Hu; try done.
    injection Href as <-. exists chunks, chunk, w. done.
  - intros (chunks & chunk & w & -> & Hchunk & Hw & Ht & Hu & Htitle & Huri).
    cbn. apply list_elem_of_omap. exists chunk. split; [done|].
    unfold reference_of. rewrite Hw, Ht, Hu.
    destruct r as [[|a t] [|b u]]; done.
Qed.
